(** * dex-brain: the task dashboard of the page component

    A shallow embedding of the scoring engine, the view pipeline and the task
    store of the page component ([src/app/page.tsx] in its later version,
    whose lines the comments below cite), and the properties the
    specification states about them.

    Conventions of the embedding.
    - A JavaScript number that the program only ever uses as an integer (time
      values in milliseconds, day counts, scores, array indices) is a [Z].
      The sort comparator also meets [Number.POSITIVE_INFINITY]; its numbers
      are the type [num] below.
    - A JavaScript string is a Rocq [string]; a character stands for one code
      unit below 256.
    - An optional property ([description?], [deadline?]) is an [option]:
      [None] stands both for a missing property and for one holding
      [undefined], which no expression of the program tells apart.
    - The literal union types of [Task] are inductive types.
    - What the program takes from its platform and what depends on the
      locale, the time zone or the engine (the getters and the parser of
      [Date], [toLowerCase], [trim], [localeCompare], and the algorithm of
      [Array.prototype.sort]) is the class [Host]; [HostLaws] states what the
      standards promise of it. The clock read by [new Date()] is an explicit
      argument [now]: one evaluation of a function reads one clock value. *)

From Stdlib Require Import ZArith List String Ascii Bool Lia.
From Stdlib Require Import Sorting.Permutation Sorting.Sorted.
Import ListNotations.

Set Warnings "-register-all".

Local Open Scope string_scope.
Local Open Scope list_scope.
Local Open Scope Z_scope.

(** ** Data model (lines 5-55) *)

Inductive Area :=
  Infra | Backend | DevOps | Certificates | DNS | Monitoring | Research | Personal.
Inductive TaskType := Ticket | Microtask | Investigation | FollowUp | Meeting.
Inductive Origin := Jira | Slack | OMeeting | Boss | Self.
Inductive Rating := R1 | R2 | R3 | R4 | R5.
Inductive Effort := E5m | E15m | E30m | E1h | EResearch.
Inductive Status := Inbox | Doing | Waiting | Done.

Definition area_str (a : Area) : string :=
  match a with
  | Infra => "Infra" | Backend => "Backend" | DevOps => "DevOps"
  | Certificates => "Certificates" | DNS => "DNS" | Monitoring => "Monitoring"
  | Research => "Research" | Personal => "Personal"
  end.

Definition type_str (k : TaskType) : string :=
  match k with
  | Ticket => "Ticket" | Microtask => "Microtask" | Investigation => "Investigation"
  | FollowUp => "Follow-up" | Meeting => "Meeting"
  end.

Definition origin_str (o : Origin) : string :=
  match o with
  | Jira => "Jira" | Slack => "Slack" | OMeeting => "Meeting" | Boss => "Boss"
  | Self => "Self"
  end.

Definition rating_val (r : Rating) : Z :=
  match r with R1 => 1 | R2 => 2 | R3 => 3 | R4 => 4 | R5 => 5 end.

Definition effort_str (e : Effort) : string :=
  match e with
  | E5m => "5m" | E15m => "15m" | E30m => "30m" | E1h => "1h+"
  | EResearch => "Research"
  end.

Definition status_str (s : Status) : string :=
  match s with
  | Inbox => "Inbox" | Doing => "Doing" | Waiting => "Waiting" | Done => "Done"
  end.

Definition status_eqb (a b : Status) : bool :=
  match a, b with
  | Inbox, Inbox | Doing, Doing | Waiting, Waiting | Done, Done => true
  | _, _ => false
  end.

Record Task := mkTask {
  id : string;
  createdAt : string;
  title : string;
  description : option string;
  area : Area;
  type : TaskType;
  origin : Origin;
  impact : Rating;
  urgency : Rating;
  effort : Effort;
  deadline : option string;
  status : Status
}.

Record TaskForm := mkForm {
  f_title : string;
  f_description : string;
  f_area : Area;
  f_type : TaskType;
  f_origin : Origin;
  f_impact : Rating;
  f_urgency : Rating;
  f_effort : Effort;
  f_deadline : string;
  f_status : Status
}.

Definition STORAGE_KEY : string := "dexbrain.tasks".
Definition MS_PER_DAY : Z := 1000 * 60 * 60 * 24.

Definition defaultForm : TaskForm :=
  mkForm "" "" Infra Ticket Self R3 R3 E15m "" Inbox.

(** ** Numbers *)

(** The numbers of the comparator: integers, the two infinities and [NaN]. *)
Inductive num := Fin (z : Z) | PosInf | NegInf | NaN.

(** [a - b] *)
Definition num_sub (a b : num) : num :=
  match a, b with
  | Fin x, Fin y => Fin (x - y)
  | NaN, _ | _, NaN => NaN
  | PosInf, PosInf | NegInf, NegInf => NaN
  | PosInf, _ | _, NegInf => PosInf
  | NegInf, _ | _, PosInf => NegInf
  end.

(** [a === b] *)
Definition num_eqb (a b : num) : bool :=
  match a, b with
  | Fin x, Fin y => x =? y
  | PosInf, PosInf | NegInf, NegInf => true
  | _, _ => false
  end.

(** [v > 0] *)
Definition num_pos (v : num) : bool :=
  match v with Fin z => 0 <? z | PosInf => true | _ => false end.

(** The sign of a number, 0 for [NaN]. *)
Definition num_sgn (v : num) : Z :=
  match v with Fin z => Z.sgn z | PosInf => 1 | NegInf => -1 | NaN => 0 end.

(** ** The platform *)

(** [x] may stand before [y]: the comparator does not put it behind. *)
Definition before {A} (comparator : A -> A -> num) (x y : A) : Prop :=
  num_pos (comparator x y) = false.

(** A consistent comparator (ECMAScript, Array.prototype.sort): it never
    yields [NaN], swapping its arguments swaps the sign of its result, and
    the order it gives is transitive. *)
Definition consistent {A} (comparator : A -> A -> num) : Prop :=
  (forall a b, comparator a b <> NaN) /\
  (forall a b, num_sgn (comparator b a) = - num_sgn (comparator a b)) /\
  (forall a b c, num_sgn (comparator a b) <= 0 -> num_sgn (comparator b c) <= 0 ->
                 num_sgn (comparator a c) <= 0).

(** A [Date] is its time value, the milliseconds since the epoch.
    [Date_parse s] is the time value of [new Date(s)], [None] when it is
    [NaN]; [Date_ymd y m d] is the time value of [new Date(y, m, d)].
    [Array_sort comparator l] is the array after [l.sort(comparator)]. *)
Class Host := {
  getFullYear : Z -> Z;
  getMonth : Z -> Z;
  getDate : Z -> Z;
  Date_ymd : Z -> Z -> Z -> Z;
  Date_parse : string -> option Z;
  toLowerCase : string -> string;
  trim : string -> string;
  localeCompare : string -> string -> Z;
  Array_sort : forall A : Type, (A -> A -> num) -> list A -> list A
}.
Arguments Array_sort {Host A} comparator l.

(** What the standards promise of the platform. [localeCompare] is a
    consistent comparator (ECMA-402): equal strings compare 0, swapping the
    arguments swaps the sign, and the order is transitive. [sort], given a
    consistent comparator, rearranges the array so that no element stands
    before one that the comparator puts in front of it; nothing is assumed
    about the order in which it leaves elements that compare equal. *)
Class HostLaws (H : Host) := {
  localeCompare_refl : forall a, localeCompare a a = 0;
  localeCompare_swap : forall a b, Z.sgn (localeCompare b a) = - Z.sgn (localeCompare a b);
  localeCompare_trans : forall a b c,
    localeCompare a b <= 0 -> localeCompare b c <= 0 -> localeCompare a c <= 0;
  Array_sort_perm : forall A (comparator : A -> A -> num) (l : list A),
    consistent comparator -> Permutation (Array_sort comparator l) l;
  Array_sort_sorted : forall A (comparator : A -> A -> num) (l : list A),
    consistent comparator -> StronglySorted (before comparator) (Array_sort comparator l)
}.

(** ** Scoring engine (lines 57-88) *)

Section Scoring.
Context {H : Host}.

Definition startOfDay (date : Z) : Z :=
  Date_ymd (getFullYear date) (getMonth date) (getDate date).

(** [Math.ceil(a / b)] for integers [a] and [b > 0]. *)
Definition ceil_div (a b : Z) : Z := - ((- a) / b).

Definition daysUntilDeadline (now : Z) (deadline : option string) : option Z :=
  match deadline with
  | None => None
  | Some "" => None
  | Some d =>
      match Date_parse (String.append d "T00:00:00") with
      | None => None
      | Some target =>
          let today := startOfDay now in
          let diff := target - today in
          Some (ceil_div diff MS_PER_DAY)
      end
  end.

Definition calculateScore (now : Z) (task : Task) : Z :=
  if status_eqb (status task) Done then 0
  else
    let score := rating_val (impact task) * 2 + rating_val (urgency task) in
    let days := daysUntilDeadline now (deadline task) in
    let score := match days with
                 | Some days => score + (1000 - days * 20)
                 | None => score
                 end in
    let score := if status_eqb (status task) Waiting then score - 10 else score in
    score.

Definition calculateLevel (score : Z) : string :=
  if 900 <=? score then "Critical"
  else if 30 <=? score then "High"
  else if 10 <=? score then "Medium"
  else "Low".

End Scoring.

(** ** View pipeline (lines 322-438) *)

(** [s.includes(q)] *)
Fixpoint includes (s q : string) : bool :=
  String.prefix q s ||
  match s with
  | EmptyString => false
  | String _ s' => includes s' q
  end.

Inductive SortDir := asc | desc.

(** The view state of the component (lines 110-116). *)
Record View := mkView {
  activeFilter : string;
  search : string;
  statusFilter : string;
  areaFilter : string;
  hideDone : bool;
  sortBy : option string;
  sortDir : SortDir
}.

(** An element [{ t, i }] of [withIndex]. *)
Record Indexed := mkIx { t_of : Task; i_of : Z }.

(** The value a sort key reads from a task: [av] and [bv] of the comparator. *)
Inductive SortVal := VStr (s : string) | VNum (n : num).

(** The order of the values of a numeric key: the integers, with positive
    infinity above them all. *)
Definition num_order (n m : num) : Z :=
  match n, m with
  | Fin x, Fin y => Z.sgn (x - y)
  | PosInf, Fin _ => 1
  | Fin _, PosInf => -1
  | _, _ => 0
  end.

Section ViewPipeline.
Context {H : Host}.

(** Lines 327-349: the quick filter of the sidebar. *)
Definition quickFilter (now : Z) (activeFilter : string) (lst : list Task) : list Task :=
  if String.eqb activeFilter "Quick Wins" then
    filter (fun t => match effort t with E5m | E15m => true | _ => false end) lst
  else if String.eqb activeFilter "Critical" then
    filter (fun t => String.eqb (calculateLevel (calculateScore now t)) "Critical") lst
  else if String.eqb activeFilter "Due Soon" then
    filter (fun t => match daysUntilDeadline now (deadline t) with
                     | Some d => (d <=? 3) && (0 <=? d)
                     | None => false
                     end) lst
  else if String.eqb activeFilter "Waiting" then
    filter (fun t => status_eqb (status t) Waiting) lst
  else if String.eqb activeFilter "Done" then
    filter (fun t => status_eqb (status t) Done) lst
  else lst.

(** Lines 325-359: all the filters, in the order of the source. *)
Definition filteredTasks (now : Z) (v : View) (tasks : list Task) : list Task :=
  let lst := tasks in
  let lst := quickFilter now (activeFilter v) lst in
  let lst := if hideDone v
              then filter (fun t => negb (status_eqb (status t) Done)) lst
              else lst in
  let lst := if negb (String.eqb (statusFilter v) "All")
              then filter (fun t => String.eqb (status_str (status t)) (statusFilter v)) lst
              else lst in
  let lst := if negb (String.eqb (areaFilter v) "All")
              then filter (fun t => String.eqb (area_str (area t)) (areaFilter v)) lst
              else lst in
  let lst := if negb (String.eqb (trim (search v)) "")
              then let q := toLowerCase (search v) in
                   filter (fun t => includes (toLowerCase (title t)) q) lst
              else lst in
  lst.

(** Line 362: [list.map((t, i) => ({ t, i }))]. *)
Fixpoint withIndexFrom (i : Z) (lst : list Task) : list Indexed :=
  match lst with
  | [] => []
  | t :: lst' => mkIx t i :: withIndexFrom (i + 1) lst'
  end.

Definition withIndex (lst : list Task) : list Indexed := withIndexFrom 0 lst.

(** Lines 376-420: the [switch] on the sort key. *)
Definition sortValue (now : Z) (sortBy : string) (t : Task) : SortVal :=
  if String.eqb sortBy "title" then VStr (toLowerCase (title t))
  else if String.eqb sortBy "area" then VStr (area_str (area t))
  else if String.eqb sortBy "type" then VStr (type_str (type t))
  else if String.eqb sortBy "effort" then VStr (effort_str (effort t))
  else if String.eqb sortBy "status" then VStr (status_str (status t))
  else if String.eqb sortBy "impact" then VNum (Fin (rating_val (impact t)))
  else if String.eqb sortBy "urgency" then VNum (Fin (rating_val (urgency t)))
  else if String.eqb sortBy "deadline" || String.eqb sortBy "daysLeft" then
    VNum (match daysUntilDeadline now (deadline t) with
          | Some d => Fin d
          | None => PosInf
          end)
  else VNum (Fin (calculateScore now t)).

(** Lines 428-429: [typeof v === "number" ? v : Number(v ?? 0)]. The second
    branch is dead code: every case of the switch gives [av] and [bv] the
    same type, so a string never reaches it; [NaN] stands for its value. *)
Definition toNumber (v : SortVal) : num :=
  match v with VNum n => n | VStr _ => NaN end.

(** Lines 364-434. *)
Definition comparator (now : Z) (sortBy : option string) (sortDir : SortDir)
    (a b : Indexed) : num :=
  match sortBy with
  | None | Some "" =>
      let sa := calculateScore now (t_of a) in
      let sb := calculateScore now (t_of b) in
      if negb (sb =? sa) then Fin (sb - sa)
      else Fin (i_of a - i_of b)
  | Some key =>
      let av := sortValue now key (t_of a) in
      let bv := sortValue now key (t_of b) in
      match av, bv with
      | VStr av, VStr bv =>
          let cmp := localeCompare av bv in
          if cmp =? 0 then Fin (i_of a - i_of b)
          else match sortDir with asc => Fin cmp | desc => Fin (- cmp) end
      | _, _ =>
          let na := toNumber av in
          let nb := toNumber bv in
          if num_eqb na nb then Fin (i_of a - i_of b)
          else match sortDir with
               | asc => num_sub na nb
               | desc => num_sub nb na
               end
      end
  end.

(** Lines 361-437: the sort stage on an already filtered list. *)
Definition sortedIndexed (now : Z) (v : View) (lst : list Task) : list Indexed :=
  Array_sort (comparator now (sortBy v) (sortDir v)) (withIndex lst).

Definition filteredSortedTasks (now : Z) (v : View) (tasks : list Task) : list Task :=
  map t_of (sortedIndexed now v (filteredTasks now v tasks)).

(** The comparator on the keys alone: what it returns for two tasks that
    stand at the same index, so that no index decides. It is [Fin 0] when the
    two tasks compare equal under the sort key. *)
Definition keyCompare (now : Z) (sortBy : option string) (sortDir : SortDir)
    (a b : Task) : num :=
  comparator now sortBy sortDir (mkIx a 0) (mkIx b 0).

End ViewPipeline.

(** ** JSON text (the platform's [JSON.stringify] and [JSON.parse]) *)

Module JSON.

(** A parsed JSON value. A string is its list of code units, as an escape
    [\uXXXX] can name any of them; a number is the decimal [mant * 10^exp10]
    that its literal denotes; an object is its members in the order of the
    text, a later member of the same name shadowing an earlier one. *)
Inductive value :=
| JNull
| JBool (b : bool)
| JNum (mant exp10 : Z)
| JStr (s : list N)
| JArr (elems : list value)
| JObj (members : list (list N * value)).

Definition dquote : ascii := ascii_of_N 34.
Definition backslash : ascii := ascii_of_N 92.

Definition hexdigit (n : N) : ascii :=
  ascii_of_N (if (n <? 10)%N then 48 + n else 87 + n)%N.

(** QuoteJSONString, one code unit. *)
Definition quote_char (c : ascii) : string :=
  let n := N_of_ascii c in
  if (n =? 8)%N then "\b"
  else if (n =? 9)%N then "\t"
  else if (n =? 10)%N then "\n"
  else if (n =? 12)%N then "\f"
  else if (n =? 13)%N then "\r"
  else if (n =? 34)%N then String backslash (String dquote "")
  else if (n =? 92)%N then "\\"
  else if (n <? 32)%N then
    String.append "\u00" (String (hexdigit (n / 16)) (String (hexdigit (n mod 16)) ""))
  else String c "".

Fixpoint quote_body (s : string) : string :=
  match s with
  | EmptyString => String dquote ""
  | String c s' => String.append (quote_char c) (quote_body s')
  end.

Definition quote (s : string) : string := String dquote (quote_body s).

Definition digit (r : Rating) : string :=
  match r with R1 => "1" | R2 => "2" | R3 => "3" | R4 => "4" | R5 => "5" end.

(** The value of a property of a [Task]: a string or one of the numbers 1
    to 5. *)
Inductive prim := PStr (s : string) | PNum (r : Rating).

Definition required (key : string) (p : prim) : list (string * prim) := [(key, p)].

(** A property that is [undefined] is left out of the text. *)
Definition optional (key : string) (v : option string) : list (string * prim) :=
  match v with
  | Some s => [(key, PStr s)]
  | None => []
  end.

(** The properties of a task that are serialized, in the order of the object
    literal of [handleSubmit] (the order of the properties of an object in
    memory is not part of the typed model, and no reader of the text depends
    on it). *)
Definition properties (t : Task) : list (string * prim) :=
  required "id" (PStr (id t)) ++
  required "createdAt" (PStr (createdAt t)) ++
  required "title" (PStr (title t)) ++
  optional "description" (description t) ++
  required "area" (PStr (area_str (area t))) ++
  required "type" (PStr (type_str (type t))) ++
  required "origin" (PStr (origin_str (origin t))) ++
  required "impact" (PNum (impact t)) ++
  required "urgency" (PNum (urgency t)) ++
  required "effort" (PStr (effort_str (effort t))) ++
  optional "deadline" (deadline t) ++
  required "status" (PStr (status_str (status t))).

Definition print_prim (p : prim) : string :=
  match p with
  | PStr s => quote s
  | PNum r => digit r
  end.

(** A member [key:text]. *)
Definition print_member (m : string * prim) : string :=
  String.append (quote (fst m)) (String ":" (print_prim (snd m))).

Fixpoint join_tail (rest : list string) (close : string) : string :=
  match rest with
  | [] => close
  | x :: rest' => String "," (String.append x (join_tail rest' close))
  end.

(** [open x1,x2,...,xn close] *)
Definition bracket (open : ascii) (items : list string) (close : string) : string :=
  String open
    match items with
    | [] => close
    | x :: rest => String.append x (join_tail rest close)
    end.

Definition stringify_task (t : Task) : string :=
  bracket "{" (map print_member (properties t)) "}".

(** [JSON.stringify(tasks)] for a [Task[]]. *)
Definition stringify (tasks : list Task) : string :=
  bracket "[" (map stringify_task tasks) "]".

(** *** The parser: the grammar of ECMA-404 *)

Definition is_ws (c : ascii) : bool :=
  let n := N_of_ascii c in
  ((n =? 32) || (n =? 9) || (n =? 10) || (n =? 13))%N.

Fixpoint skip_ws (s : string) : string :=
  match s with
  | String c s' => if is_ws c then skip_ws s' else s
  | EmptyString => s
  end.

Definition hexval (c : ascii) : option N :=
  let n := N_of_ascii c in
  if ((48 <=? n) && (n <=? 57))%N then Some (n - 48)%N
  else if ((97 <=? n) && (n <=? 102))%N then Some (n - 87)%N
  else if ((65 <=? n) && (n <=? 70))%N then Some (n - 55)%N
  else None.

(** The code unit of a one-letter escape: quotation mark, backslash, slash,
    b, f, n, r, t. *)
Definition escape (e : ascii) : option N :=
  let n := N_of_ascii e in
  if (n =? 34)%N then Some 34%N
  else if (n =? 92)%N then Some 92%N
  else if (n =? 47)%N then Some 47%N
  else if (n =? 98)%N then Some 8%N
  else if (n =? 102)%N then Some 12%N
  else if (n =? 110)%N then Some 10%N
  else if (n =? 114)%N then Some 13%N
  else if (n =? 116)%N then Some 9%N
  else None.

(** The characters of a string literal after its opening quote, up to and
    including the closing one. *)
Fixpoint parse_string_body (s : string) : option (list N * string) :=
  match s with
  | EmptyString => None
  | String c rest =>
      let n := N_of_ascii c in
      if (n =? 34)%N then Some ([], rest)
      else if (n =? 92)%N then
        match rest with
        | String e rest1 =>
            if (N_of_ascii e =? 117)%N then
              match rest1 with
              | String h1 (String h2 (String h3 (String h4 rest2))) =>
                  match hexval h1, hexval h2, hexval h3, hexval h4 with
                  | Some a, Some b, Some c, Some d =>
                      match parse_string_body rest2 with
                      | Some (units, r) =>
                          Some ((((a * 16 + b) * 16 + c) * 16 + d)%N :: units, r)
                      | None => None
                      end
                  | _, _, _, _ => None
                  end
              | _ => None
              end
            else
              match escape e with
              | Some u =>
                  match parse_string_body rest1 with
                  | Some (units, r) => Some (u :: units, r)
                  | None => None
                  end
              | None => None
              end
        | EmptyString => None
        end
      else if (n <? 32)%N then None
      else
        match parse_string_body rest with
        | Some (units, r) => Some (n :: units, r)
        | None => None
        end
  end.

Definition is_digit (c : ascii) : bool :=
  let n := N_of_ascii c in ((48 <=? n) && (n <=? 57))%N.

(** The longest run of digits at the head of [s], read onto [acc]; the
    number of digits read. *)
Fixpoint digits (s : string) (acc : Z) (count : Z) : Z * Z * string :=
  match s with
  | String c s' =>
      if is_digit c
      then digits s' (acc * 10 + (Z.of_N (N_of_ascii c) - 48)) (count + 1)
      else (acc, count, s)
  | EmptyString => (acc, count, s)
  end.

(** [-? int frac? exp?], where [int] is [0] or starts with a digit 1-9. *)
Definition parse_number (s : string) : option (value * string) :=
  let '(neg, s1) := match s with
                    | String "-" s' => (true, s')
                    | _ => (false, s)
                    end in
  match s1 with
  | String c s2 =>
      if is_digit c then
        let '(int, _, s3) :=
          if (N_of_ascii c =? 48)%N then (0, 1, s2) else digits s1 0 0 in
        let frac :=
          match s3 with
          | String "." s4 =>
              let '(m, k, s5) := digits s4 int 0 in
              if 0 <? k then Some (m, k, s5) else None
          | _ => Some (int, 0, s3)
          end in
        match frac with
        | None => None
        | Some (m, k, s5) =>
            let m := if neg then - m else m in
            match s5 with
            | String e s6 =>
                if ((N_of_ascii e =? 101) || (N_of_ascii e =? 69))%N then
                  let '(eneg, s7) := match s6 with
                                     | String "-" s' => (true, s')
                                     | String "+" s' => (false, s')
                                     | _ => (false, s6)
                                     end in
                  let '(x, n, s8) := digits s7 0 0 in
                  if 0 <? n
                  then Some (JNum m ((if eneg then - x else x) - k), s8)
                  else None
                else Some (JNum m (- k), s5)
            | EmptyString => Some (JNum m (- k), s5)
            end
        end
      else None
  | EmptyString => None
  end.

(** A value, after optional white space; [fuel] bounds the nesting of the
    calls. *)
Fixpoint parse_value (fuel : nat) (s : string) {struct fuel} : option (value * string) :=
  match fuel with
  | O => None
  | S fuel' =>
      match skip_ws s with
      | String "[" r =>
          match skip_ws r with
          | String "]" r' => Some (JArr [], r')
          | _ => parse_elements fuel' r []
          end
      | String "{" r =>
          match skip_ws r with
          | String "}" r' => Some (JObj [], r')
          | _ => parse_members fuel' r []
          end
      | String "t" (String "r" (String "u" (String "e" r))) => Some (JBool true, r)
      | String "f" (String "a" (String "l" (String "s" (String "e" r)))) =>
          Some (JBool false, r)
      | String "n" (String "u" (String "l" (String "l" r))) => Some (JNull, r)
      | String c r =>
          if (N_of_ascii c =? 34)%N then
            match parse_string_body r with
            | Some (units, r') => Some (JStr units, r')
            | None => None
            end
          else parse_number (String c r)
      | EmptyString => None
      end
  end

(** The elements of an array up to its closing bracket; those read so far
    are in [acc], last first. *)
with parse_elements (fuel : nat) (s : string) (acc : list value) {struct fuel}
    : option (value * string) :=
  match fuel with
  | O => None
  | S fuel' =>
      match parse_value fuel' s with
      | Some (v, r) =>
          match skip_ws r with
          | String "," r' => parse_elements fuel' r' (v :: acc)
          | String "]" r' => Some (JArr (rev (v :: acc)), r')
          | _ => None
          end
      | None => None
      end
  end

(** The members of an object up to its closing brace. *)
with parse_members (fuel : nat) (s : string) (acc : list (list N * value)) {struct fuel}
    : option (value * string) :=
  match fuel with
  | O => None
  | S fuel' =>
      match skip_ws s with
      | String c r =>
          if (N_of_ascii c =? 34)%N then
            match parse_string_body r with
            | Some (key, r1) =>
                match skip_ws r1 with
                | String ":" r2 =>
                    match parse_value fuel' r2 with
                    | Some (v, r3) =>
                        match skip_ws r3 with
                        | String "," r4 => parse_members fuel' r4 ((key, v) :: acc)
                        | String "}" r4 => Some (JObj (rev ((key, v) :: acc)), r4)
                        | _ => None
                        end
                    | None => None
                    end
                | _ => None
                end
            | None => None
            end
          else None
      | EmptyString => None
      end
  end.

(** What may follow a value inside an object or an array. *)
Definition delimited (rest : string) : Prop :=
  exists r, rest = String "," r \/ rest = String "}" r \/ rest = String "]" r.

(** [JSON.parse(text)]; [None] when it throws a [SyntaxError]. No call nests
    deeper than the text is long. *)
Definition parse (text : string) : option value :=
  match parse_value (2 * String.length text + 2) text with
  | Some (v, r) =>
      match skip_ws r with
      | EmptyString => Some v
      | _ => None
      end
  | None => None
  end.

End JSON.

(** ** Reading a parsed value at the type [Task] *)

(** [JSON.parse(stored) as Task[]] is an unchecked cast: the program goes on
    to read the properties of whatever was parsed. [as_task] is that reading
    for a value that has the shape of a [Task]; it is [None] for any other
    value, where the typed model stops. *)

Definition units_of_string (s : string) : list N :=
  map N_of_ascii (list_ascii_of_string s).

Fixpoint string_of_units (u : list N) : option string :=
  match u with
  | [] => Some EmptyString
  | n :: u' =>
      if (n <? 256)%N then option_map (String (ascii_of_N n)) (string_of_units u')
      else None
  end.

Fixpoint units_eqb (a b : list N) : bool :=
  match a, b with
  | [], [] => true
  | x :: a', y :: b' => (x =? y)%N && units_eqb a' b'
  | _, _ => false
  end.

(** [obj[key]]: the last member of that name, [None] for [undefined]. *)
Fixpoint get (key : list N) (members : list (list N * JSON.value)) : option JSON.value :=
  match members with
  | [] => None
  | (k, v) :: members' =>
      match get key members' with
      | Some v' => Some v'
      | None => if units_eqb k key then Some v else None
      end
  end.

Definition prop (key : string) (members : list (list N * JSON.value)) : option JSON.value :=
  get (units_of_string key) members.

Definition as_string (v : option JSON.value) : option string :=
  match v with
  | Some (JSON.JStr u) => string_of_units u
  | _ => None
  end.

Definition as_optional_string (v : option JSON.value) : option (option string) :=
  match v with
  | None => Some None
  | Some (JSON.JStr u) => option_map Some (string_of_units u)
  | Some _ => None
  end.

Definition as_enum {A} (name : A -> string) (all : list A) (v : option JSON.value) : option A :=
  match as_string v with
  | Some s => find (fun a => String.eqb (name a) s) all
  | None => None
  end.

(** The integer that the decimal [mant * 10^exp10] is, if it is one. *)
Definition integer_of (mant exp10 : Z) : option Z :=
  if 0 <=? exp10 then Some (mant * 10 ^ exp10)
  else let p := 10 ^ (- exp10) in
       if mant mod p =? 0 then Some (mant / p) else None.

Definition as_rating (v : option JSON.value) : option Rating :=
  match v with
  | Some (JSON.JNum mant exp10) =>
      match integer_of mant exp10 with
      | Some n => find (fun r => rating_val r =? n) [R1; R2; R3; R4; R5]
      | None => None
      end
  | _ => None
  end.

(** The value that [JSON.parse] builds from the text of a task. *)
Definition value_of_prim (p : JSON.prim) : JSON.value :=
  match p with
  | JSON.PStr s => JSON.JStr (units_of_string s)
  | JSON.PNum r => JSON.JNum (rating_val r) 0
  end.

Definition value_of_member (m : string * JSON.prim) : list N * JSON.value :=
  (units_of_string (fst m), value_of_prim (snd m)).

Definition value_of_task (t : Task) : JSON.value :=
  JSON.JObj (map value_of_member (JSON.properties t)).

Definition bind {A B} (x : option A) (f : A -> option B) : option B :=
  match x with Some a => f a | None => None end.

Notation "x <- e ;; k" := (bind e (fun x => k))
  (at level 61, e at next level, right associativity).

Definition as_task (v : JSON.value) : option Task :=
  match v with
  | JSON.JObj m =>
      id <- as_string (prop "id" m) ;;
      createdAt <- as_string (prop "createdAt" m) ;;
      title <- as_string (prop "title" m) ;;
      description <- as_optional_string (prop "description" m) ;;
      area <- as_enum area_str
                [Infra; Backend; DevOps; Certificates; DNS; Monitoring; Research; Personal]
                (prop "area" m) ;;
      type <- as_enum type_str [Ticket; Microtask; Investigation; FollowUp; Meeting]
                (prop "type" m) ;;
      origin <- as_enum origin_str [Jira; Slack; OMeeting; Boss; Self] (prop "origin" m) ;;
      impact <- as_rating (prop "impact" m) ;;
      urgency <- as_rating (prop "urgency" m) ;;
      effort <- as_enum effort_str [E5m; E15m; E30m; E1h; EResearch] (prop "effort" m) ;;
      deadline <- as_optional_string (prop "deadline" m) ;;
      status <- as_enum status_str [Inbox; Doing; Waiting; Done] (prop "status" m) ;;
      Some (mkTask id createdAt title description area type origin impact urgency
                   effort deadline status)
  | _ => None
  end.

Fixpoint as_tasks (parsed : list JSON.value) : option (list Task) :=
  match parsed with
  | [] => Some []
  | v :: parsed' =>
      t <- as_task v ;;
      l <- as_tasks parsed' ;;
      Some (t :: l)
  end.

(** ** Task store (lines 104-134 and 200-257) *)

(** The result of code that can throw. *)
Inductive Result (A : Type) :=
| Ok (a : A)
| Throw (error : string).
Arguments Ok {A} a.
Arguments Throw {A} error.

(** [try { body } catch { handler }] *)
Definition try_catch {A} (body : Result A) (handler : Result A) : Result A :=
  match body with
  | Ok a => Ok a
  | Throw _ => handler
  end.

(** [JSON.parse] as the program calls it. *)
Definition JSON_parse (text : string) : Result JSON.value :=
  match JSON.parse text with
  | Some v => Ok v
  | None => Throw "SyntaxError"
  end.

(** What the load effect does to the [tasks] state: leave it, or
    [setTasks(parsed)]. *)
Inductive Load := KeepTasks | SetTasks (parsed : list JSON.value).

(** Lines 123-134. [stored] is [localStorage.getItem(STORAGE_KEY)], [None]
    for [null]. *)
Definition loadEffect (stored : option string) : Result Load :=
  match stored with
  | None | Some "" => Ok KeepTasks
  | Some stored =>
      try_catch
        match JSON_parse stored with
        | Ok (JSON.JArr parsed) => Ok (SetTasks parsed)
        | Ok _ => Ok KeepTasks
        | Throw e => Throw e
        end
        (Ok KeepTasks)
  end.

(** Line 105: [useState<Task[]>([])]. *)
Definition initialTasks : list Task := [].

(** The task list after the load effect has run on the initial state;
    [None] when the stored array is not a [Task[]]. *)
Definition tasksAfterLoad (l : Load) : option (list Task) :=
  match l with
  | KeepTasks => Some initialTasks
  | SetTasks parsed => as_tasks parsed
  end.

(** The part of the component state that the store operations touch, and
    the item of [localStorage] under [STORAGE_KEY]. A write to the storage is
    taken to succeed. *)
Record State := mkState {
  tasks : list Task;
  isModalOpen : bool;
  editingTask : option Task;
  viewingTask : option Task;
  form : TaskForm;
  localStorage : option string
}.

Section Store.
Context {H : Host}.

(** Lines 207-219: [{ ...t, title: ..., ..., status: form.status }]. *)
Definition editedTask (form : TaskForm) (t : Task) : Task :=
  {| id := id t;
     createdAt := createdAt t;
     title := trim (f_title form);
     description := Some (if String.eqb (f_description form) "" then ""
                          else f_description form);
     area := f_area form;
     type := f_type form;
     origin := f_origin form;
     impact := f_impact form;
     urgency := f_urgency form;
     effort := f_effort form;
     deadline := if String.eqb (f_deadline form) "" then None
                 else Some (f_deadline form);
     status := f_status form |}.

(** Lines 230-243; [uuid] is [crypto.randomUUID()] and [isoNow] is
    [new Date().toISOString()]. *)
Definition newTask (uuid isoNow : string) (form : TaskForm) : Task :=
  {| id := uuid;
     createdAt := isoNow;
     title := trim (f_title form);
     description := Some (if String.eqb (f_description form) "" then ""
                          else f_description form);
     area := f_area form;
     type := f_type form;
     origin := f_origin form;
     impact := f_impact form;
     urgency := f_urgency form;
     effort := f_effort form;
     deadline := if String.eqb (f_deadline form) "" then None
                 else Some (f_deadline form);
     status := f_status form |}.

(** Lines 200-250. *)
Definition handleSubmit (uuid isoNow : string) (st : State) : State :=
  if String.eqb (trim (f_title (form st))) "" then st
  else
    match editingTask st with
    | Some editing =>
        let updatedTasks :=
          map (fun t => if String.eqb (id t) (id editing)
                        then editedTask (form st) t
                        else t) (tasks st) in
        {| tasks := updatedTasks;
           localStorage := Some (JSON.stringify updatedTasks);
           isModalOpen := false;
           editingTask := None;
           viewingTask := None;
           form := form st |}
    | None =>
        let nextTasks := newTask uuid isoNow (form st) :: tasks st in
        {| tasks := nextTasks;
           localStorage := Some (JSON.stringify nextTasks);
           isModalOpen := false;
           editingTask := None;
           viewingTask := viewingTask st;
           form := defaultForm |}
    end.

End Store.

Definition setId (x : string) (t : Task) : Task :=
  {| id := x; createdAt := createdAt t; title := title t;
     description := description t; area := area t; type := type t;
     origin := origin t; impact := impact t; urgency := urgency t;
     effort := effort t; deadline := deadline t; status := status t |}.

(** [t'] is [t] with some other identifier. *)
Definition relabelled (t t' : Task) : Prop := t' = setId (id t') t.

Definition setStatus (s : Status) (t : Task) : Task :=
  {| id := id t; createdAt := createdAt t; title := title t;
     description := description t; area := area t; type := type t;
     origin := origin t; impact := impact t; urgency := urgency t;
     effort := effort t; deadline := deadline t; status := s |}.

(** Lines 253-257. *)
Definition updateTaskStatus (id' : string) (status' : Status) (st : State) : State :=
  let updated :=
    map (fun t => if String.eqb (id t) id' then setStatus status' t else t) (tasks st) in
  {| tasks := updated;
     localStorage := Some (JSON.stringify updated);
     isModalOpen := isModalOpen st;
     editingTask := editingTask st;
     viewingTask := viewingTask st;
     form := form st |}.

(** ** A reference host *)

(** One platform the program can run on, used to evaluate the definitions
    on concrete inputs: the time zone is UTC, [new Date(s)] reads the
    ECMAScript date-time format [YYYY-MM-DDTHH:mm:ss] and nothing else, and
    [toLowerCase] and [trim] are those of the code units below 256, the
    collation of [localeCompare] is the order of the code units, and the
    sort is an insertion sort. *)
Module Ref.

(** Days since 1970-01-01 of a date of the proleptic Gregorian calendar,
    [m] from 1 to 12. *)
Definition days_from_civil (y m d : Z) : Z :=
  let y := if m <=? 2 then y - 1 else y in
  let era := y / 400 in
  let yoe := y - era * 400 in
  let mp := (m + 9) mod 12 in
  let doy := (153 * mp + 2) / 5 + d - 1 in
  let doe := yoe * 365 + yoe / 4 - yoe / 100 + doy in
  era * 146097 + doe - 719468.

Definition civil_from_days (z : Z) : Z * Z * Z :=
  let z := z + 719468 in
  let era := z / 146097 in
  let doe := z - era * 146097 in
  let yoe := (doe - doe / 1460 + doe / 36524 - doe / 146096) / 365 in
  let doy := doe - (365 * yoe + yoe / 4 - yoe / 100) in
  let mp := (5 * doy + 2) / 153 in
  let d := doy - (153 * mp + 2) / 5 + 1 in
  let m := if mp <? 10 then mp + 3 else mp - 9 in
  let y := yoe + era * 400 in
  (if m <=? 2 then y + 1 else y, m, d).

Definition getFullYear (t : Z) : Z :=
  let '(y, _, _) := civil_from_days (t / MS_PER_DAY) in y.
Definition getMonth (t : Z) : Z :=
  let '(_, m, _) := civil_from_days (t / MS_PER_DAY) in m - 1.
Definition getDate (t : Z) : Z :=
  let '(_, _, d) := civil_from_days (t / MS_PER_DAY) in d.

(** [new Date(y, m, d)]: a year from 0 to 99 means 1900 + y, and a month
    outside 0..11 carries into the year. *)
Definition Date_ymd (y m d : Z) : Z :=
  let y := if (0 <=? y) && (y <=? 99) then 1900 + y else y in
  (days_from_civil (y + m / 12) (m mod 12 + 1) 1 + d - 1) * MS_PER_DAY.

Definition digit_val (c : ascii) : option Z :=
  let n := Z.of_N (N_of_ascii c) in
  if (48 <=? n) && (n <=? 57) then Some (n - 48) else None.

Definition two_digits (a b : ascii) : option Z :=
  match digit_val a, digit_val b with
  | Some x, Some y => Some (x * 10 + y)
  | _, _ => None
  end.

Definition is_leap (y : Z) : bool :=
  ((y mod 4 =? 0) && negb (y mod 100 =? 0)) || (y mod 400 =? 0).

Definition days_in_month (y m : Z) : Z :=
  if m =? 2 then (if is_leap y then 29 else 28)
  else if (m =? 4) || (m =? 6) || (m =? 9) || (m =? 11) then 30
  else 31.

Definition Date_parse (s : string) : option Z :=
  match list_ascii_of_string s with
  | [y1; y2; y3; y4; s1; m1; m2; s2; d1; d2; s3; h1; h2; s4; n1; n2; s5; c1; c2] =>
      match two_digits y1 y2, two_digits y3 y4, two_digits m1 m2, two_digits d1 d2,
            two_digits h1 h2, two_digits n1 n2, two_digits c1 c2 with
      | Some yh, Some yl, Some m, Some d, Some h, Some n, Some c =>
          let y := yh * 100 + yl in
          if Ascii.eqb s1 "-" && Ascii.eqb s2 "-" && Ascii.eqb s3 "T"
             && Ascii.eqb s4 ":" && Ascii.eqb s5 ":"
             && (1 <=? m) && (m <=? 12) && (1 <=? d) && (d <=? days_in_month y m)
             && (h <=? 23) && (n <=? 59) && (c <=? 59)
          then Some (days_from_civil y m d * MS_PER_DAY
                     + ((h * 60 + n) * 60 + c) * 1000)
          else None
      | _, _, _, _, _, _, _ => None
      end
  | _ => None
  end.

(** The lower case of a code unit below 256: A-Z, and the capital letters
    of Latin-1 (all of 192-222 but the multiplication sign 215). *)
Definition lower (c : ascii) : ascii :=
  let n := N_of_ascii c in
  if ((65 <=? n) && (n <=? 90))%N then ascii_of_N (n + 32)
  else if ((192 <=? n) && (n <=? 222) && negb (n =? 215))%N then ascii_of_N (n + 32)
  else c.

Fixpoint toLowerCase (s : string) : string :=
  match s with
  | EmptyString => EmptyString
  | String c s' => String (lower c) (toLowerCase s')
  end.

Definition is_space (c : ascii) : bool :=
  let n := N_of_ascii c in
  (((9 <=? n) && (n <=? 13)) || (n =? 32) || (n =? 160))%N.

Fixpoint trimStart (s : string) : string :=
  match s with
  | String c s' => if is_space c then trimStart s' else s
  | EmptyString => s
  end.

Fixpoint trimEnd (s : string) : string :=
  match s with
  | String c s' =>
      match trimEnd s' with
      | EmptyString => if is_space c then EmptyString else String c EmptyString
      | r => String c r
      end
  | EmptyString => s
  end.

Definition trim (s : string) : string := trimEnd (trimStart s).

Fixpoint localeCompare (a b : string) : Z :=
  match a, b with
  | EmptyString, EmptyString => 0
  | EmptyString, String _ _ => -1
  | String _ _, EmptyString => 1
  | String x a', String y b' =>
      let n := Z.of_N (N_of_ascii x) in
      let m := Z.of_N (N_of_ascii y) in
      if n <? m then -1 else if m <? n then 1 else localeCompare a' b'
  end.

(** The sort: insertion from the right, an element going before the first
    one that it does not compare greater than. *)
Fixpoint insert {A} (comparator : A -> A -> num) (x : A) (l : list A) : list A :=
  match l with
  | [] => [x]
  | y :: l' =>
      if num_pos (comparator x y) then y :: insert comparator x l'
      else x :: y :: l'
  end.

Fixpoint Array_sort {A} (comparator : A -> A -> num) (l : list A) : list A :=
  match l with
  | [] => []
  | x :: l' => insert comparator x (Array_sort comparator l')
  end.

Definition host : Host :=
  Build_Host getFullYear getMonth getDate Date_ymd Date_parse
             toLowerCase trim localeCompare (@Array_sort).

End Ref.

(** ** The rest of the page component *)

(** Lines 90-102: the colour of the priority indicator of a row. *)
Definition levelClass (level : string) : string :=
  if String.eqb level "Critical" then "bg-red-600"
  else if String.eqb level "High" then "bg-orange-500"
  else if String.eqb level "Medium" then "bg-yellow-500"
  else "bg-transparent".

(** [array.length] *)
Definition length_of {A} (l : list A) : Z := Z.of_nat (List.length l).

Record Stats := mkStats { open : Z; critical : Z; soon : Z; waiting : Z }.

(** The sum of the impacts of the tasks, as [tasks.forEach] of line 446 adds
    them up. *)
Fixpoint sum_of (f : Task -> Z) (tasks : list Task) (acc : Z) : Z :=
  match tasks with
  | [] => acc
  | t :: tasks' => sum_of f tasks' (acc + f t)
  end.

(** A [Record<string, number>]: its properties in the order in which they
    were created. The keys of the program are names of areas and of
    statuses, none of which is a property that an object inherits. *)
Definition Counts := list (string * Z).

(** [m[k]], [None] for [undefined]. *)
Fixpoint count_of (k : string) (m : Counts) : option Z :=
  match m with
  | [] => None
  | (k', v) :: m' => if String.eqb k' k then Some v else count_of k m'
  end.

(** [m[k] = (m[k] || 0) + 1] (lines 447-448): a property that is there keeps
    its place, a new one goes last. *)
Fixpoint bump (k : string) (m : Counts) : Counts :=
  match m with
  | [] => [(k, 0 + 1)]
  | (k', v) :: m' =>
      if String.eqb k' k then (k', (if v =? 0 then 0 else v) + 1) :: m'
      else (k', v) :: bump k m'
  end.

Fixpoint countBy (name : Task -> string) (tasks : list Task) (m : Counts) : Counts :=
  match tasks with
  | [] => m
  | t :: tasks' => countBy name tasks' (bump (name t) m)
  end.

(** A [keydown] event as the handler of lines 300-317 reads it: the key, the
    [tagName] of the target ([None] when there is no target or no tag name)
    and whether the target is content editable. *)
Record KeyEvent := mkKeyEvent {
  ev_key : string;
  ev_tagName : option string;
  ev_isContentEditable : bool
}.

(** The state of the page: the store, the view, the delete confirmation and
    the insights panel (lines 105-119). *)
Record Page := mkPage {
  store : State;
  view : View;
  showDeleteConfirm : bool;
  deleteTargetId : option string;
  showInsights : bool
}.

Section PageComponent.
Context {H : Host}.

(** Lines 145-163. *)
Definition stats (now : Z) (tasks : list Task) : Stats :=
  let openTasks := filter (fun task => negb (status_eqb (status task) Done)) tasks in
  let criticalTasks :=
    filter (fun task => String.eqb (calculateLevel (calculateScore now task)) "Critical")
           tasks in
  let waitingTasks := filter (fun task => status_eqb (status task) Waiting) tasks in
  let deadlineSoon :=
    filter (fun task =>
              if status_eqb (status task) Done then false
              else match daysUntilDeadline now (deadline task) with
                   | Some days => (0 <=? days) && (days <=? 7)
                   | None => false
                   end) tasks in
  {| open := length_of openTasks;
     critical := length_of criticalTasks;
     soon := length_of deadlineSoon;
     waiting := length_of waitingTasks |}.

(** Line 711: [daysLeft !== null && daysLeft <= 2], the days of the row are
    shown in red. *)
Definition isUrgent (now : Z) (task : Task) : bool :=
  match daysUntilDeadline now (deadline task) with
  | Some daysLeft => daysLeft <=? 2
  | None => false
  end.

(** The comparator [(a, b) => calculateScore(b) - calculateScore(a)]. *)
Definition byScore (now : Z) (a b : Task) : num :=
  Fin (calculateScore now b - calculateScore now a).

(** [[...tasks].sort((a, b) => calculateScore(b) - calculateScore(a))]: the
    list of the earlier version of the page ([src/app/page.tsx], lines
    120-124), and the first step of the insights. *)
Definition sortedTasks (now : Z) (tasks : list Task) : list Task :=
  Array_sort (byScore now) tasks.

(** Line 441: [top], the first three. *)
Definition insights_top (now : Z) (tasks : list Task) : list Task :=
  firstn 3 (sortedTasks now tasks).

(** Lines 442-451: [byArea], [byStatus], [impactSum] and [urgencySum]. *)
Definition insights_byArea (tasks : list Task) : Counts :=
  countBy (fun t => area_str (area t)) tasks [].

Definition insights_byStatus (tasks : list Task) : Counts :=
  countBy (fun t => status_str (status t)) tasks [].

Definition impactSum (tasks : list Task) : Z :=
  sum_of (fun t => rating_val (impact t)) tasks 0.

Definition urgencySum (tasks : list Task) : Z :=
  sum_of (fun t => rating_val (urgency t)) tasks 0.

(** Lines 165-171. *)
Definition openModal (st : State) : State :=
  {| tasks := tasks st;
     isModalOpen := true;
     editingTask := None;
     viewingTask := None;
     form := defaultForm;
     localStorage := localStorage st |}.

(** Lines 173-177. *)
Definition closeModal (st : State) : State :=
  {| tasks := tasks st;
     isModalOpen := false;
     editingTask := None;
     viewingTask := viewingTask st;
     form := defaultForm;
     localStorage := localStorage st |}.

(** Lines 182-193: the form of a task that is being edited. *)
Definition formOf (editingTask : Task) : TaskForm :=
  {| f_title := title editingTask;
     f_description := match description editingTask with Some d => d | None => "" end;
     f_area := area editingTask;
     f_type := type editingTask;
     f_origin := origin editingTask;
     f_impact := impact editingTask;
     f_urgency := urgency editingTask;
     f_effort := effort editingTask;
     f_deadline := match deadline editingTask with Some d => d | None => "" end;
     f_status := status editingTask |}.

(** Lines 180-198: the effect that follows a change of [editingTask]. *)
Definition syncForm (st : State) : State :=
  match editingTask st with
  | Some editing =>
      {| tasks := tasks st;
         isModalOpen := true;
         editingTask := editingTask st;
         viewingTask := viewingTask st;
         form := formOf editing;
         localStorage := localStorage st |}
  | None =>
      {| tasks := tasks st;
         isModalOpen := isModalOpen st;
         editingTask := editingTask st;
         viewingTask := viewingTask st;
         form := defaultForm;
         localStorage := localStorage st |}
  end.

(** Lines 756-760 and 938-941: the Edit buttons, [setViewingTask(null);
    setEditingTask(task)], followed by the effect. *)
Definition startEdit (task : Task) (st : State) : State :=
  syncForm {| tasks := tasks st;
              isModalOpen := isModalOpen st;
              editingTask := Some task;
              viewingTask := None;
              form := form st;
              localStorage := localStorage st |}.

(** Lines 260-263. *)
Definition confirmDelete (id' : string) (p : Page) : Page :=
  {| store := store p;
     view := view p;
     showDeleteConfirm := true;
     deleteTargetId := Some id';
     showInsights := showInsights p |}.

(** Lines 265-272. *)
Definition performDelete (p : Page) : Page :=
  match deleteTargetId p with
  | None | Some "" => p
  | Some target =>
      let updated :=
        filter (fun t => negb (String.eqb (id t) target)) (tasks (store p)) in
      {| store := {| tasks := updated;
                     isModalOpen := isModalOpen (store p);
                     editingTask := editingTask (store p);
                     viewingTask := viewingTask (store p);
                     form := form (store p);
                     localStorage := Some (JSON.stringify updated) |};
         view := view p;
         showDeleteConfirm := false;
         deleteTargetId := None;
         showInsights := showInsights p |}
  end.

(** Lines 274-282. *)
Definition clearFilters (v : View) : View :=
  {| search := "";
     statusFilter := "All";
     areaFilter := "All";
     activeFilter := "All Tasks";
     hideDone := false;
     sortBy := None;
     sortDir := desc |}.

(** Lines 284-291. *)
Definition toggleSort (key : string) (v : View) : View :=
  let same := match sortBy v with
              | Some k => String.eqb k key
              | None => false
              end in
  if same then
    {| activeFilter := activeFilter v; search := search v;
       statusFilter := statusFilter v; areaFilter := areaFilter v;
       hideDone := hideDone v; sortBy := sortBy v;
       sortDir := match sortDir v with desc => asc | asc => desc end |}
  else
    {| activeFilter := activeFilter v; search := search v;
       statusFilter := statusFilter v; areaFilter := areaFilter v;
       hideDone := hideDone v; sortBy := Some key;
       sortDir := desc |}.

(** Lines 300-317: the handler of [keydown], on its own: the effect that
    follows a change of [editingTask] is [syncForm]. The boolean of the
    result tells whether the handler took the branch of the slash: it called
    [preventDefault] and asked the search box to take the focus. *)
Definition onKey (e : KeyEvent) (p : Page) : Page * bool :=
  let tag := option_map toLowerCase (ev_tagName e) in
  let tagIs name := match tag with Some t => String.eqb t name | None => false end in
  if tagIs "input" || tagIs "textarea" || ev_isContentEditable e then (p, false)
  else if String.eqb (ev_key e) "n" then
    ({| store := openModal (store p);
        view := view p;
        showDeleteConfirm := showDeleteConfirm p;
        deleteTargetId := deleteTargetId p;
        showInsights := showInsights p |}, false)
  else if String.eqb (ev_key e) "/" then (p, true)
  else if String.eqb (ev_key e) "Escape" then
    ({| store := {| tasks := tasks (store p);
                    isModalOpen := false;
                    editingTask := None;
                    viewingTask := None;
                    form := form (store p);
                    localStorage := localStorage (store p) |};
        view := view p;
        showDeleteConfirm := false;
        deleteTargetId := deleteTargetId p;
        showInsights := showInsights p |}, false)
  else (p, false).

End PageComponent.

(** The text in the storage reads back as the list in memory: the load
    effect run on it sets an array which, read at the type [Task[]], is
    [tasks st]. *)
Definition reloads (st : State) : Prop :=
  exists parsed,
    loadEffect (localStorage st) = Ok (SetTasks parsed) /\
    tasksAfterLoad (SetTasks parsed) = Some (tasks st).

(** ** The render that follows the load *)

(** [task.status], for an element [task] of the array that [JSON.parse]
    built and the load effect set without a check: the read of a property
    of [null] throws a [TypeError]; an object gives its member of that name,
    [None] for [undefined]; an array, a string, a number and a boolean have
    no property of the names of a task, the read gives [undefined]. *)
Definition read_property (key : string) (v : JSON.value) : Result (option JSON.value) :=
  match v with
  | JSON.JNull => Throw "TypeError"
  | JSON.JObj m => Ok (prop key m)
  | _ => Ok None
  end.

(** [x === "Done"] *)
Definition is_Done (x : option JSON.value) : bool :=
  match x with
  | Some (JSON.JStr u) => units_eqb u (units_of_string "Done")
  | _ => false
  end.

(** Line 146, [tasks.filter((task) => task.status !== "Done")]: the first
    statement of the memo [stats], and the first read of an element of the
    task list in a render of the page. *)
Fixpoint openTasks_unchecked (tasks : list JSON.value) : Result (list JSON.value) :=
  match tasks with
  | [] => Ok []
  | task :: tasks' =>
      match read_property "status" task with
      | Throw e => Throw e
      | Ok s =>
          match openTasks_unchecked tasks' with
          | Throw e => Throw e
          | Ok kept => Ok (if is_Done s then kept else task :: kept)
          end
      end
  end.

(** The array in the state [tasks] after the load effect. *)
Definition arrayAfterLoad (l : Load) : list JSON.value :=
  match l with
  | KeepTasks => []
  | SetTasks parsed => parsed
  end.

(** The load as the user meets it: the effect, then the render of the page
    with the array it left, up to the open tasks of the memo [stats]. An
    exception of the render is not caught by anything in the page. *)
Definition loadAndRender (stored : option string) : Result (list JSON.value) :=
  match loadEffect stored with
  | Throw e => Throw e
  | Ok l => openTasks_unchecked (arrayAfterLoad l)
  end.

(** * Properties *)

(** ** Scoring engine *)

Section ScoringFacts.
Context {H : Host}.

Lemma daysUntilDeadline_None (now : Z) (deadline : option string) :
  daysUntilDeadline now deadline = None <->
  deadline = None \/ deadline = Some "" \/
  exists d, deadline = Some d /\ Date_parse (String.append d "T00:00:00") = None.
Proof.
  unfold daysUntilDeadline. split.
  - destruct deadline as [[|c d]|]; auto.
    destruct (Date_parse _) eqn:E; [discriminate|].
    intros _. right. right. eauto.
  - intros [->|[->|(d & -> & E)]]; trivial.
    destruct d; trivial. now rewrite E.
Qed.

Lemma daysUntilDeadline_Some (now : Z) (deadline : option string) (days : Z) :
  daysUntilDeadline now deadline = Some days <->
  exists d target, deadline = Some d /\ d <> "" /\
    Date_parse (String.append d "T00:00:00") = Some target /\
    days = ceil_div (target - startOfDay now) MS_PER_DAY.
Proof.
  unfold daysUntilDeadline. split.
  - destruct deadline as [[|c d]|]; try discriminate.
    destruct (Date_parse _) as [target|] eqn:E; [|discriminate].
    intros [= <-]. exists (String c d), target. repeat split; congruence.
  - intros (d & target & -> & Hd & E & ->).
    destruct d; [congruence|]. now rewrite E.
Qed.

(** The score of a task that is not [Done], in terms of the day count. *)
Lemma calculateScore_open (now : Z) (task : Task) :
  status task <> Done ->
  calculateScore now task =
    rating_val (impact task) * 2 + rating_val (urgency task)
    + match daysUntilDeadline now (deadline task) with
      | Some days => 1000 - days * 20
      | None => 0
      end
    - match status task with Waiting => 10 | _ => 0 end.
Proof.
  unfold calculateScore. intros Hs.
  destruct (status task); try congruence; cbn;
    destruct (daysUntilDeadline now (deadline task)); lia.
Qed.

Lemma calculateScore_Done (now : Z) (task : Task) :
  status task = Done -> calculateScore now task = 0.
Proof. unfold calculateScore. now intros ->. Qed.

Lemma rating_val_range (r : Rating) : 1 <= rating_val r <= 5.
Proof. destruct r; cbn; lia. Qed.

(** C1. The score of a task is 0 when its status is Done. Otherwise it is
    impact*2 + urgency, plus (1000 - days*20) when the task has a deadline
    for which [daysUntilDeadline] gives a day count [days], and minus 10 when
    the status is Waiting. The deadlines with a day count are the ones that
    are present, not empty and read as a date by the platform; for every
    other task nothing is added. *)
Theorem calculateScore_spec (now : Z) (task : Task) :
  (status task = Done -> calculateScore now task = 0) /\
  (status task <> Done ->
     forall days, daysUntilDeadline now (deadline task) = Some days ->
     calculateScore now task =
       rating_val (impact task) * 2 + rating_val (urgency task)
       + (1000 - days * 20)
       - (if status_eqb (status task) Waiting then 10 else 0)) /\
  (status task <> Done ->
     daysUntilDeadline now (deadline task) = None ->
     calculateScore now task =
       rating_val (impact task) * 2 + rating_val (urgency task)
       - (if status_eqb (status task) Waiting then 10 else 0)) /\
  (forall days, daysUntilDeadline now (deadline task) = Some days <->
     exists d target, deadline task = Some d /\ d <> "" /\
       Date_parse (String.append d "T00:00:00") = Some target /\
       days = ceil_div (target - startOfDay now) MS_PER_DAY) /\
  (daysUntilDeadline now (deadline task) = None <->
     deadline task = None \/ deadline task = Some "" \/
     exists d, deadline task = Some d /\
               Date_parse (String.append d "T00:00:00") = None).
Proof.
  split; [apply calculateScore_Done|].
  split; [|split; [|split]].
  - intros Hs days Hd. rewrite (calculateScore_open _ _ Hs), Hd.
    destruct (status task); cbn; lia.
  - intros Hs Hd. rewrite (calculateScore_open _ _ Hs), Hd.
    destruct (status task); cbn; lia.
  - intros days. apply daysUntilDeadline_Some.
  - apply daysUntilDeadline_None.
Qed.

(** C2. For every integer score the level is Critical from 900 up, High from
    30 to 899, Medium from 10 to 29 and Low below 10; the function reads
    nothing but the score, so the thresholds are the constants 900, 30 and
    10. *)
Theorem calculateLevel_spec (score : Z) :
  (900 <= score -> calculateLevel score = "Critical") /\
  (30 <= score < 900 -> calculateLevel score = "High") /\
  (10 <= score < 30 -> calculateLevel score = "Medium") /\
  (score < 10 -> calculateLevel score = "Low").
Proof.
  unfold calculateLevel.
  destruct (900 <=? score) eqn:E1; destruct (30 <=? score) eqn:E2;
    destruct (10 <=? score) eqn:E3; repeat split; intros; trivial; lia.
Qed.

(** C3, as amended. A task with impact 5, urgency 5, no deadline and status
    Doing scores 15, and the level of that score is Medium: 15 is below the
    threshold 30 of High. *)
Theorem example_score_15_Medium (now : Z) (task : Task) :
  impact task = R5 -> urgency task = R5 -> deadline task = None ->
  status task = Doing ->
  calculateScore now task = 15 /\
  calculateLevel (calculateScore now task) = "Medium".
Proof.
  intros Hi Hu Hd Hs.
  assert (E : calculateScore now task = 15).
  { unfold calculateScore. now rewrite Hi, Hu, Hd, Hs. }
  rewrite E. split; reflexivity.
Qed.

(** C4, as amended. The score is a function of the four fields impact,
    urgency, deadline and status and of the current local day: two
    evaluations whose clocks fall on the same local day (equal
    [startOfDay]) on tasks that agree on the four fields give equal scores,
    whatever the other fields are; and when the status is Done or the
    deadline has no day count the score does not depend on the clock
    either. *)
Theorem calculateScore_same_day (now1 now2 : Z) (task1 task2 : Task) :
  impact task1 = impact task2 -> urgency task1 = urgency task2 ->
  deadline task1 = deadline task2 -> status task1 = status task2 ->
  (startOfDay now1 = startOfDay now2 \/ status task1 = Done \/
   daysUntilDeadline now1 (deadline task1) = None) ->
  calculateScore now1 task1 = calculateScore now2 task2.
Proof.
  intros Hi Hu Hd Hs Hday. unfold calculateScore.
  rewrite <- Hi, <- Hu, <- Hd, <- Hs.
  destruct (status_eqb (status task1) Done) eqn:E; trivial.
  assert (D : daysUntilDeadline now1 (deadline task1)
              = daysUntilDeadline now2 (deadline task1)).
  { destruct Hday as [Hday|[Hday|Hday]].
    - unfold daysUntilDeadline. now rewrite Hday.
    - rewrite Hday in E. discriminate.
    - rewrite Hday. symmetry. apply daysUntilDeadline_None.
      now apply daysUntilDeadline_None in Hday. }
  now rewrite D.
Qed.

(** C10. A task whose deadline is absent, empty or not read as a date by the
    platform, and whose status is not Done, scores between -7 and 15; the
    level of the score of any task without a valid deadline is not
    Critical. *)
Theorem score_without_deadline (now : Z) (task : Task) :
  (deadline task = None \/ deadline task = Some "" \/
   exists d, deadline task = Some d /\
             Date_parse (String.append d "T00:00:00") = None) ->
  (status task <> Done -> -7 <= calculateScore now task <= 15) /\
  calculateLevel (calculateScore now task) <> "Critical".
Proof.
  intros Hd. apply (daysUntilDeadline_None now) in Hd.
  assert (B : -7 <= calculateScore now task <= 15).
  { unfold calculateScore. rewrite Hd.
    pose proof (rating_val_range (impact task)).
    pose proof (rating_val_range (urgency task)).
    destruct (status task); cbn; lia. }
  split; [trivial|].
  unfold calculateLevel.
  destruct (900 <=? calculateScore now task) eqn:E; [lia|].
  destruct (30 <=? _); [discriminate|]. destruct (10 <=? _); discriminate.
Qed.

End ScoringFacts.

(** Witness of C1: on the reference host, on 2024-01-10, a Waiting task with
    impact 2, urgency 3 and a deadline two days ahead scores
    2*2 + 3 + (1000 - 2*20) - 10. *)
Lemma calculateScore_spec_witness :
  let task := mkTask "1" "2024-01-02T09:00:00.000Z" "Pay invoice" (Some "")
                     Personal Ticket Self R2 R3 E5m (Some "2024-01-12") Waiting in
  daysUntilDeadline (H := Ref.host) 1704891600000 (deadline task) = Some 2 /\
  calculateScore (H := Ref.host) 1704891600000 task = 2 * 2 + 3 + (1000 - 2 * 20) - 10.
Proof.
  intros task.
  destruct (calculateScore_spec (H := Ref.host) 1704891600000 task)
    as (_ & Dated & _).
  split; [reflexivity|]. apply Dated; [discriminate|reflexivity].
Defined.

(** Witness of C2: one score in each of the four ranges. *)
Lemma calculateLevel_spec_witness :
  calculateLevel 1003 = "Critical" /\ calculateLevel 899 = "High" /\
  calculateLevel 10 = "Medium" /\ calculateLevel (-7) = "Low".
Proof.
  split; [apply (calculateLevel_spec 1003); lia|].
  split; [apply (calculateLevel_spec 899); lia|].
  split; [apply (calculateLevel_spec 10); lia|].
  apply (calculateLevel_spec (-7)); lia.
Defined.

(** C3 as stated fails: on the reference host, a task with impact 5, urgency
    5, no deadline and status Doing scores 15, and the level of 15 is Medium,
    not High. *)
Lemma example_score_15_not_High :
  let task := mkTask "1" "2024-01-10T13:00:00.000Z" "Renew certificate" (Some "")
                     Certificates Ticket Jira R5 R5 E30m None Doing in
  calculateScore (H := Ref.host) 1704891600000 task = 15 /\
  calculateLevel (calculateScore (H := Ref.host) 1704891600000 task) = "Medium" /\
  calculateLevel (calculateScore (H := Ref.host) 1704891600000 task) <> "High".
Proof. vm_compute. repeat split; discriminate. Qed.

(** Witness of C3 as amended. *)
Lemma example_score_15_Medium_witness :
  let task := mkTask "1" "2024-01-10T13:00:00.000Z" "Renew certificate" (Some "")
                     Certificates Ticket Jira R5 R5 E30m None Doing in
  calculateScore (H := Ref.host) 1704891600000 task = 15 /\
  calculateLevel (calculateScore (H := Ref.host) 1704891600000 task) = "Medium".
Proof.
  intros task.
  apply (example_score_15_Medium (H := Ref.host) 1704891600000 task); reflexivity.
Defined.

(** C4 as stated fails: the same task, on the reference host, scores 1003
    when evaluated on its deadline day and 1023 a day later. *)
Lemma calculateScore_depends_on_clock :
  let task := mkTask "1" "2024-01-02T09:00:00.000Z" "Pay invoice" (Some "")
                     Personal Ticket Self R1 R1 E5m (Some "2024-01-10") Doing in
  calculateScore (H := Ref.host) 1704891600000 task = 1003 /\
  calculateScore (H := Ref.host) 1704978000000 task = 1023 /\
  calculateScore (H := Ref.host) 1704891600000 task
    <> calculateScore (H := Ref.host) 1704978000000 task.
Proof. vm_compute. repeat split; discriminate. Qed.

(** Witness of C4 as amended: two tasks that differ in identifier, title,
    description, area, type, origin and effort, evaluated in the morning and
    in the evening of 2024-01-10. *)
Lemma calculateScore_same_day_witness :
  calculateScore (H := Ref.host) 1704877200000
    (mkTask "1" "2024-01-02T09:00:00.000Z" "Pay invoice" (Some "")
            Personal Ticket Self R1 R1 E5m (Some "2024-01-12") Waiting)
  = calculateScore (H := Ref.host) 1704913200000
    (mkTask "2" "2024-01-03T10:00:00.000Z" "Rotate keys" None
            Infra Microtask Boss R1 R1 E1h (Some "2024-01-12") Waiting).
Proof.
  apply (calculateScore_same_day (H := Ref.host)); try reflexivity.
  left. vm_compute. reflexivity.
Defined.

(** Witness of C10: a deadline that is not a date. *)
Lemma score_without_deadline_witness :
  let task := mkTask "1" "2024-01-02T09:00:00.000Z" "Pay invoice" (Some "")
                     Personal Ticket Self R1 R1 E5m (Some "soon") Waiting in
  (status task <> Done ->
   -7 <= calculateScore (H := Ref.host) 1704891600000 task <= 15) /\
  calculateLevel (calculateScore (H := Ref.host) 1704891600000 task) <> "Critical".
Proof.
  intros task.
  apply (score_without_deadline (H := Ref.host) 1704891600000 task).
  right. right. exists "soon". split; reflexivity.
Defined.

(** ** JSON text: what is printed is read back *)

Section JSONFacts.
Import JSON.

Lemma parse_quote_char (c : ascii) (tail : string) :
  parse_string_body (String.append (quote_char c) tail) =
  match parse_string_body tail with
  | Some (units, r) => Some (N_of_ascii c :: units, r)
  | None => None
  end.
Proof.
  destruct c as [[] [] [] [] [] [] [] []]; reflexivity.
Qed.

Lemma append_assoc (a b c : string) :
  String.append (String.append a b) c = String.append a (String.append b c).
Proof. induction a; cbn; congruence. Qed.

Lemma length_append (a b : string) :
  String.length (String.append a b) = (String.length a + String.length b)%nat.
Proof. induction a; cbn; congruence. Qed.

Lemma parse_quote_body (s tail : string) :
  parse_string_body (String.append (quote_body s) tail) =
  Some (units_of_string s, tail).
Proof.
  induction s as [|c s IH]; [reflexivity|].
  cbn [quote_body]. rewrite append_assoc, parse_quote_char, IH. reflexivity.
Qed.

Lemma string_of_units_of_string (s : string) :
  string_of_units (units_of_string s) = Some s.
Proof.
  induction s as [|c s IH]; [reflexivity|].
  unfold units_of_string in *. cbn [list_ascii_of_string map string_of_units].
  rewrite IH.
  destruct (N.ltb_spec (N_of_ascii c) 256) as [_|Hc].
  - cbn. now rewrite ascii_N_embedding.
  - pose proof (N_ascii_bounded c). lia.
Qed.

Local Infix "+++" := String.append (right associativity, at level 60).

Lemma parse_value_prim (fuel : nat) (p : prim) (rest : string) :
  delimited rest ->
  parse_value (S fuel) (print_prim p +++ rest) = Some (value_of_prim p, rest).
Proof.
  intros (r & D). destruct p as [s|n].
  - cbn [print_prim quote String.append]. cbn [parse_value].
    change (skip_ws (String dquote (quote_body s +++ rest)))
      with (String dquote (quote_body s +++ rest)).
    cbv iota beta. change (N_of_ascii dquote =? 34)%N with true. cbv iota.
    now rewrite parse_quote_body.
  - destruct n; destruct D as [-> | [-> | ->]]; reflexivity.
Qed.

Lemma join_tail_delimited (items : list string) (close : ascii) (tail : string) :
  close = "}"%char \/ close = "]"%char ->
  delimited (join_tail items (String close "") +++ tail).
Proof.
  intros Hc. destruct items as [|x items]; cbn.
  - exists tail. destruct Hc as [-> | ->]; eauto.
  - eexists. left. reflexivity.
Qed.

Lemma skip_ws_dquote (s : string) : skip_ws (String dquote s) = String dquote s.
Proof. reflexivity. Qed.

Lemma parse_members_eq (fuel : nat) (s : string) (acc : list (list N * value)) :
  parse_members (S fuel) s acc =
  match skip_ws s with
  | String c r =>
      if (N_of_ascii c =? 34)%N then
        match parse_string_body r with
        | Some (key, r1) =>
            match skip_ws r1 with
            | String ":" r2 =>
                match parse_value fuel r2 with
                | Some (v, r3) =>
                    match skip_ws r3 with
                    | String "," r4 => parse_members fuel r4 ((key, v) :: acc)
                    | String "}" r4 => Some (JObj (rev ((key, v) :: acc)), r4)
                    | _ => None
                    end
                | None => None
                end
            | _ => None
            end
        | None => None
        end
      else None
  | EmptyString => None
  end.
Proof. reflexivity. Qed.

Lemma parse_elements_eq (fuel : nat) (s : string) (acc : list value) :
  parse_elements (S fuel) s acc =
  match parse_value fuel s with
  | Some (v, r) =>
      match skip_ws r with
      | String "," r' => parse_elements fuel r' (v :: acc)
      | String "]" r' => Some (JArr (rev (v :: acc)), r')
      | _ => None
      end
  | None => None
  end.
Proof. reflexivity. Qed.

Lemma parse_members_step (fuel : nat) (m : string * prim) (rest : string)
    (acc : list (list N * value)) :
  delimited rest ->
  parse_members (S (S fuel)) (print_member m +++ rest) acc =
  match rest with
  | String "," r => parse_members (S fuel) r (value_of_member m :: acc)
  | String "}" r => Some (JObj (rev (value_of_member m :: acc)), r)
  | _ => None
  end.
Proof.
  intros D. destruct m as [k p]. unfold print_member, value_of_member, quote.
  cbn [fst snd]. rewrite append_assoc. cbn [String.append].
  rewrite parse_members_eq, skip_ws_dquote.
  change (N_of_ascii dquote =? 34)%N with true. cbv iota.
  rewrite parse_quote_body.
  change (skip_ws (String ":" (print_prim p +++ rest)))
    with (String ":" (print_prim p +++ rest)).
  cbv iota beta.
  rewrite (parse_value_prim _ _ _ D).
  destruct D as (r & [-> | [-> | ->]]); reflexivity.
Qed.

Lemma parse_members_printed (ms : list (string * prim)) :
  forall (m : string * prim) (fuel : nat) (acc : list (list N * value)) (tail : string),
  (List.length ms < fuel)%nat ->
  parse_members (S fuel)
    (print_member m +++ join_tail (map print_member ms) "}" +++ tail) acc =
  Some (JObj (rev acc ++ map value_of_member (m :: ms)), tail).
Proof.
  induction ms as [|m' ms IH]; intros m fuel acc tail Hf;
    (destruct fuel as [|fuel]; [cbn in Hf; lia|]);
    rewrite parse_members_step by (apply join_tail_delimited; auto).
  - reflexivity.
  - cbn [map join_tail String.append]. rewrite append_assoc.
    rewrite IH by (cbn in Hf; lia).
    cbn [rev map]. now rewrite <- app_assoc.
Qed.

Lemma parse_value_object (fuel : nat) (m : string * prim) (rest : string) :
  parse_value (S fuel) (String "{" (print_member m +++ rest)) =
  parse_members fuel (print_member m +++ rest) [].
Proof. reflexivity. Qed.

(** The text of a task reads back as its value. *)
Lemma parse_value_task (fuel : nat) (t : Task) (tail : string) :
  (13 < fuel)%nat ->
  parse_value (S fuel) (stringify_task t +++ tail) = Some (value_of_task t, tail).
Proof.
  intros Hf. unfold stringify_task, value_of_task, bracket.
  assert (L : (List.length (properties t) <= 12)%nat).
  { unfold properties, optional.
    destruct (description t), (deadline t); cbn; lia. }
  destruct (properties t) as [|m ms] eqn:E.
  { unfold properties in E. discriminate. }
  cbn [map String.append]. rewrite append_assoc, parse_value_object.
  destruct fuel as [|fuel]; [lia|].
  rewrite parse_members_printed by (cbn in L; lia).
  reflexivity.
Qed.

Lemma parse_elements_printed (ts : list Task) :
  forall (t : Task) (fuel : nat) (acc : list value) (tail : string),
  (List.length ts + 14 < fuel)%nat ->
  parse_elements (S fuel)
    (stringify_task t +++ join_tail (map stringify_task ts) "]" +++ tail) acc =
  Some (JArr (rev acc ++ map value_of_task (t :: ts)), tail).
Proof.
  induction ts as [|t' ts IH]; intros t fuel acc tail Hf;
    (destruct fuel as [|fuel]; [lia|]);
    rewrite parse_elements_eq, parse_value_task by (cbn in Hf; lia).
  - reflexivity.
  - cbn [map join_tail String.append]. rewrite append_assoc.
    change (skip_ws (String "," ?x)) with (String "," x). cbv iota beta.
    rewrite IH by (cbn in Hf; lia).
    cbn [rev map]. now rewrite <- app_assoc.
Qed.

Lemma parse_value_array (fuel : nat) (t : Task) (rest : string) :
  parse_value (S fuel) (String "[" (stringify_task t +++ rest)) =
  parse_elements fuel (stringify_task t +++ rest) [].
Proof. reflexivity. Qed.

Lemma parse_value_tasks (fuel : nat) (tasks : list Task) (tail : string) :
  (List.length tasks + 15 < fuel)%nat ->
  parse_value fuel (stringify tasks +++ tail) =
  Some (JArr (map value_of_task tasks), tail).
Proof.
  intros Hf. destruct fuel as [|fuel]; [lia|].
  destruct tasks as [|t ts]; [reflexivity|].
  unfold stringify, bracket. cbn [map String.append].
  rewrite append_assoc, parse_value_array.
  destruct fuel as [|fuel]; [lia|].
  rewrite parse_elements_printed by (cbn in Hf; lia). reflexivity.
Qed.

Lemma length_stringify_task (t : Task) : (7 <= String.length (stringify_task t))%nat.
Proof.
  unfold stringify_task, properties, required. cbn. lia.
Qed.

Lemma length_join_tail (ts : list Task) (close : string) :
  (8 * List.length ts + String.length close
   <= String.length (join_tail (map stringify_task ts) close))%nat.
Proof.
  induction ts as [|t ts IH]; [cbn; lia|].
  cbn [map join_tail String.length List.length]. rewrite length_append.
  pose proof (length_stringify_task t). lia.
Qed.

Lemma length_stringify (tasks : list Task) :
  (7 * List.length tasks + 2 <= String.length (stringify tasks))%nat.
Proof.
  unfold stringify, bracket. destruct tasks as [|t ts]; [cbn; lia|].
  cbn [map String.length List.length]. rewrite length_append.
  pose proof (length_stringify_task t).
  pose proof (length_join_tail ts "]"). cbn [String.length] in *. lia.
Qed.

Lemma append_empty (s : string) : s +++ "" = s.
Proof. induction s; cbn; congruence. Qed.

(** [JSON.parse(JSON.stringify(tasks))] is the array of the values of the
    tasks. *)
Lemma parse_stringify (tasks : list Task) :
  parse (stringify tasks) = Some (JArr (map value_of_task tasks)).
Proof.
  destruct tasks as [|t ts]; [reflexivity|].
  unfold parse.
  rewrite <- (append_empty (stringify (t :: ts))) at 2.
  rewrite parse_value_tasks; [reflexivity|].
  pose proof (length_stringify (t :: ts)). cbn [List.length] in *. lia.
Qed.

Lemma as_string_units (s : string) :
  as_string (Some (JStr (units_of_string s))) = Some s.
Proof. apply string_of_units_of_string. Qed.

Lemma as_optional_string_units (o : option string) :
  as_optional_string (option_map (fun s => JStr (units_of_string s)) o) = Some o.
Proof. destruct o; cbn; [|reflexivity]. now rewrite string_of_units_of_string. Qed.

Lemma as_rating_val (r : Rating) : as_rating (Some (JNum (rating_val r) 0)) = Some r.
Proof. destruct r; reflexivity. Qed.

Lemma as_enum_name {A} (name : A -> string) (all : list A) (a : A) :
  find (fun b => String.eqb (name b) (name a)) all = Some a ->
  as_enum name all (Some (JStr (units_of_string (name a)))) = Some a.
Proof. intros E. unfold as_enum. now rewrite as_string_units. Qed.

(** The value of a task, read at the type [Task], is the task. *)
Lemma as_task_value_of_task (t : Task) : as_task (value_of_task t) = Some t.
Proof.
  destruct t as [i c ti de a ty o im u e dl st].
  unfold value_of_task, as_task.
  set (m := map value_of_member (properties _)).
  assert (P1 : prop "id" m = Some (JStr (units_of_string i)))
    by (destruct de, dl; reflexivity).
  assert (P2 : prop "createdAt" m = Some (JStr (units_of_string c)))
    by (destruct de, dl; reflexivity).
  assert (P3 : prop "title" m = Some (JStr (units_of_string ti)))
    by (destruct de, dl; reflexivity).
  assert (P4 : prop "description" m
               = option_map (fun s => JStr (units_of_string s)) de)
    by (destruct de, dl; reflexivity).
  assert (P5 : prop "area" m = Some (JStr (units_of_string (area_str a))))
    by (destruct de, dl; reflexivity).
  assert (P6 : prop "type" m = Some (JStr (units_of_string (type_str ty))))
    by (destruct de, dl; reflexivity).
  assert (P7 : prop "origin" m = Some (JStr (units_of_string (origin_str o))))
    by (destruct de, dl; reflexivity).
  assert (P8 : prop "impact" m = Some (JNum (rating_val im) 0))
    by (destruct de, dl; reflexivity).
  assert (P9 : prop "urgency" m = Some (JNum (rating_val u) 0))
    by (destruct de, dl; reflexivity).
  assert (P10 : prop "effort" m = Some (JStr (units_of_string (effort_str e))))
    by (destruct de, dl; reflexivity).
  assert (P11 : prop "deadline" m
                = option_map (fun s => JStr (units_of_string s)) dl)
    by (destruct de, dl; reflexivity).
  assert (P12 : prop "status" m = Some (JStr (units_of_string (status_str st))))
    by (destruct de, dl; reflexivity).
  rewrite P1, P2, P3, P4, P5, P6, P7, P8, P9, P10, P11, P12.
  rewrite !as_string_units, !as_optional_string_units, !as_rating_val.
  rewrite (as_enum_name area_str) by (destruct a; reflexivity).
  rewrite (as_enum_name type_str) by (destruct ty; reflexivity).
  rewrite (as_enum_name origin_str) by (destruct o; reflexivity).
  rewrite (as_enum_name effort_str) by (destruct e; reflexivity).
  rewrite (as_enum_name status_str) by (destruct st; reflexivity).
  reflexivity.
Qed.

Lemma as_tasks_values (tasks : list Task) :
  as_tasks (map value_of_task tasks) = Some tasks.
Proof.
  induction tasks as [|t ts IH]; [reflexivity|].
  cbn [map as_tasks]. rewrite as_task_value_of_task, IH. reflexivity.
Qed.

End JSONFacts.


(** ** Task store *)

Lemma loadEffect_stringify (tasks : list Task) :
  loadEffect (Some (JSON.stringify tasks)) =
  Ok (SetTasks (map value_of_task tasks)).
Proof.
  unfold loadEffect, JSON_parse. rewrite parse_stringify.
  unfold JSON.stringify, JSON.bracket. reflexivity.
Qed.

Lemma unique_id (l : list Task) (k j : nat) (t u : Task) :
  NoDup (map id l) ->
  nth_error l k = Some t -> nth_error l j = Some u -> id u = id t -> j = k.
Proof.
  intros Hnd Hk Hj E.
  apply (proj1 (NoDup_nth_error (map id l)) Hnd).
  - rewrite length_map. apply nth_error_Some. congruence.
  - rewrite !nth_error_map, Hk, Hj. cbn. congruence.
Qed.

(** A [map] that rewrites the tasks of one identifier, on a list with unique
    identifiers: the task at [k] is rewritten, every other position is kept. *)
Lemma map_by_id (f : Task -> Task) (l : list Task) (k : nat) (t : Task) :
  NoDup (map id l) -> nth_error l k = Some t ->
  let l' := map (fun u => if String.eqb (id u) (id t) then f u else u) l in
  nth_error l' k = Some (f t) /\
  forall j, j <> k -> nth_error l' j = nth_error l j.
Proof.
  intros Hnd Hk l'. unfold l'. split.
  - rewrite nth_error_map, Hk. cbn. now rewrite String.eqb_refl.
  - intros j Hj. rewrite nth_error_map.
    destruct (nth_error l j) as [u|] eqn:Eu; [|reflexivity]. cbn.
    destruct (String.eqb_spec (id u) (id t)) as [E|E]; [|reflexivity].
    exfalso. apply Hj. eapply unique_id; eauto.
Qed.

Section StoreFacts.
Context {H : Host}.

(** C7. On a list with unique identifiers, take the task [t] at position
    [k]. An accepted submission of the edit form for [t] (the title is not
    blank) puts at [k] a task with the identifier and the creation timestamp
    of [t] and the fields of the form (the title trimmed, an empty deadline
    as none), and an inline change of the status of [t] puts at [k] the task
    [t] with the new status; both leave every other position of the list as
    it was. *)
Theorem update_keeps_identity (uuid isoNow : string) (st : State)
    (editing : Task) (status' : Status) (k : nat) (t : Task) :
  NoDup (map id (tasks st)) ->
  nth_error (tasks st) k = Some t ->
  (editingTask st = Some editing -> id editing = id t ->
   trim (f_title (form st)) <> "" ->
   let tasks' := tasks (handleSubmit uuid isoNow st) in
   (exists t', nth_error tasks' k = Some t' /\
      id t' = id t /\ createdAt t' = createdAt t /\
      title t' = trim (f_title (form st)) /\
      description t' = Some (f_description (form st)) /\
      area t' = f_area (form st) /\ type t' = f_type (form st) /\
      origin t' = f_origin (form st) /\ impact t' = f_impact (form st) /\
      urgency t' = f_urgency (form st) /\ effort t' = f_effort (form st) /\
      deadline t' = (if String.eqb (f_deadline (form st)) "" then None
                     else Some (f_deadline (form st))) /\
      status t' = f_status (form st)) /\
   (forall j, j <> k -> nth_error tasks' j = nth_error (tasks st) j)) /\
  (let tasks' := tasks (updateTaskStatus (id t) status' st) in
   (exists t', nth_error tasks' k = Some t' /\
      id t' = id t /\ createdAt t' = createdAt t /\
      title t' = title t /\ description t' = description t /\
      area t' = area t /\ type t' = type t /\ origin t' = origin t /\
      impact t' = impact t /\ urgency t' = urgency t /\
      effort t' = effort t /\ deadline t' = deadline t /\
      status t' = status') /\
   (forall j, j <> k -> nth_error tasks' j = nth_error (tasks st) j)).
Proof.
  intros Hnd Hk. split.
  - intros He Hid Ht tasks'. unfold tasks', handleSubmit.
    apply String.eqb_neq in Ht. rewrite Ht, He, Hid. cbn [tasks].
    destruct (map_by_id (editedTask (form st)) _ _ _ Hnd Hk) as [A B].
    split; [|exact B].
    eexists. split; [exact A|]. cbn.
    repeat split. now destruct (String.eqb_spec (f_description (form st)) "") as [->|].
  - intros tasks'. unfold tasks', updateTaskStatus. cbn [tasks].
    destruct (map_by_id (setStatus status') _ _ _ Hnd Hk) as [A B].
    split; [|exact B].
    eexists. split; [exact A|]. cbn. repeat split.
Qed.


(** C8. A create (a submission with no task being edited and a title that
    is not blank) prepends the new task and writes the text of the whole new
    list to the storage; the load effect run on that storage parses the
    text into an array which, read at the type [Task[]], is the list in
    memory. *)
Theorem create_then_reload (uuid isoNow : string) (st : State) :
  editingTask st = None ->
  trim (f_title (form st)) <> "" ->
  let st' := handleSubmit uuid isoNow st in
  tasks st' = newTask uuid isoNow (form st) :: tasks st /\
  localStorage st' = Some (JSON.stringify (tasks st')) /\
  exists parsed,
    loadEffect (localStorage st') = Ok (SetTasks parsed) /\
    tasksAfterLoad (SetTasks parsed) = Some (tasks st').
Proof.
  intros He Ht. unfold handleSubmit.
  apply String.eqb_neq in Ht. rewrite Ht, He. cbn [tasks localStorage].
  repeat split.
  eexists. split; [apply loadEffect_stringify|]. apply as_tasks_values.
Qed.

End StoreFacts.

(** *** Reading the array that was loaded *)

Lemma units_eqb_eq (a b : list N) : units_eqb a b = true <-> a = b.
Proof.
  revert b. induction a as [|x a IH]; intros [|y b]; cbn;
    try (split; [discriminate|congruence]); [tauto|].
  rewrite andb_true_iff, N.eqb_eq, IH. split; [intros [-> ->]|intros [= -> ->]]; auto.
Qed.

Lemma string_of_units_inv (u : list N) :
  forall s, string_of_units u = Some s -> u = units_of_string s.
Proof.
  induction u as [|n u IH]; cbn; intros s E.
  - now injection E as <-.
  - destruct (N.ltb_spec n 256) as [Hn|Hn]; [|discriminate].
    destruct (string_of_units u) as [s'|]; [|discriminate].
    injection E as <-. unfold units_of_string. cbn [list_ascii_of_string map].
    rewrite N_ascii_embedding by exact Hn. f_equal. now apply IH.
Qed.

(** A value that reads as a task is an object, and its property [status]
    reads as the status of the task. *)
Lemma as_task_status (v : JSON.value) (t : Task) :
  as_task v = Some t ->
  exists m, v = JSON.JObj m /\
    as_enum status_str [Inbox; Doing; Waiting; Done] (prop "status" m)
    = Some (status t).
Proof.
  intros E. destruct v as [| | | | |m]; try discriminate E.
  exists m. split; [reflexivity|].
  unfold as_task, bind in E.
  repeat match type of E with
         | context [match ?x with Some _ => _ | None => _ end] =>
             destruct x eqn:?; [|discriminate E]
         end.
  now injection E as <-.
Qed.

Lemma is_Done_status (x : option JSON.value) (st : Status) :
  as_enum status_str [Inbox; Doing; Waiting; Done] x = Some st ->
  is_Done x = status_eqb st Done.
Proof.
  unfold as_enum, as_string.
  destruct x as [[| | |u| |]|]; try discriminate.
  destruct (string_of_units u) as [s|] eqn:E; [|discriminate].
  apply string_of_units_inv in E. subst u. intros F.
  apply find_some in F. destruct F as [_ F]. apply String.eqb_eq in F. subst s.
  now destruct st.
Qed.

(** On an array of tasks the first read of the render does not throw, and
    keeps the tasks that are not done. *)
Lemma openTasks_unchecked_tasks (parsed : list JSON.value) :
  forall ts, as_tasks parsed = Some ts ->
  exists kept,
    openTasks_unchecked parsed = Ok kept /\
    as_tasks kept = Some (filter (fun t => negb (status_eqb (status t) Done)) ts).
Proof.
  induction parsed as [|v parsed IH]; cbn [as_tasks openTasks_unchecked]; intros ts E.
  - injection E as <-. now exists [].
  - unfold bind in E.
    destruct (as_task v) as [t|] eqn:Ev; [|discriminate E].
    destruct (as_tasks parsed) as [l|]; [|discriminate E].
    injection E as <-.
    destruct (IH l eq_refl) as (kept & K & T). rewrite K.
    destruct (as_task_status v t Ev) as (m & -> & S).
    cbn [read_property filter]. rewrite (is_Done_status _ _ S).
    destruct (status_eqb (status t) Done); cbn [negb].
    + now exists kept.
    + exists (JSON.JObj m :: kept). split; [reflexivity|].
      cbn [as_tasks]. now rewrite Ev, T.
Qed.




(** Witness of C8: a first task created on the reference host. *)
Lemma create_then_reload_witness :
  let st := mkState [] true None None
              (mkForm " Renew certificate " "" Certificates Ticket Jira R4 R2 E30m
                      "2024-02-01" Inbox) None in
  let st' := handleSubmit (H := Ref.host) "6f1c" "2024-01-10T13:00:00.000Z" st in
  tasks st' = newTask (H := Ref.host) "6f1c" "2024-01-10T13:00:00.000Z" (form st)
              :: tasks st /\
  localStorage st' = Some (JSON.stringify (tasks st')) /\
  exists parsed,
    loadEffect (localStorage st') = Ok (SetTasks parsed) /\
    tasksAfterLoad (SetTasks parsed) = Some (tasks st').
Proof.
  intros st.
  apply (create_then_reload (H := Ref.host) "6f1c" "2024-01-10T13:00:00.000Z" st).
  - reflexivity.
  - vm_compute. discriminate.
Defined.

(** Witness of C7: the second of two tasks is edited, and set to Done. *)
Lemma update_keeps_identity_witness :
  let a := mkTask "id-a" "2024-01-02T09:00:00.000Z" "Pay invoice" (Some "")
                  Personal Ticket Self R1 R1 E5m (Some "2024-01-10") Doing in
  let b := mkTask "id-b" "2024-01-03T10:00:00.000Z" "Rotate keys" None
                  Infra Microtask Boss R3 R4 E1h None Inbox in
  let st := mkState [a; b] true (Some b) None
              (mkForm "Rotate API keys " "all regions" DevOps Ticket Jira R5 R4 E30m
                      "" Waiting) None in
  (exists t', nth_error (tasks (handleSubmit (H := Ref.host) "" "" st)) 1 = Some t' /\
     id t' = "id-b" /\ createdAt t' = "2024-01-03T10:00:00.000Z" /\
     title t' = "Rotate API keys" /\ deadline t' = None /\ status t' = Waiting) /\
  nth_error (tasks (handleSubmit (H := Ref.host) "" "" st)) 0 = Some a /\
  (exists t', nth_error (tasks (updateTaskStatus "id-b" Done st)) 1 = Some t' /\
     id t' = "id-b" /\ createdAt t' = "2024-01-03T10:00:00.000Z" /\
     title t' = "Rotate keys" /\ status t' = Done) /\
  nth_error (tasks (updateTaskStatus "id-b" Done st)) 0 = Some a.
Proof.
  intros a b st.
  assert (Hnd : NoDup (map id (tasks st))).
  { repeat constructor; cbn; intuition discriminate. }
  destruct (update_keeps_identity (H := Ref.host) "" "" st b Done 1 b Hnd eq_refl)
    as [E S].
  destruct (E eq_refl eq_refl) as [(t' & Ht' & F) Others].
  { vm_compute. discriminate. }
  destruct S as [(t'' & Ht'' & F') Others'].
  split; [exists t'; split; [exact Ht'|]; intuition|].
  split; [apply (Others 0%nat); discriminate|].
  split; [exists t''; split; [exact Ht''|]; intuition|].
  apply (Others' 0%nat); discriminate.
Defined.

(** ** View pipeline *)

(** *** Consistent comparators *)

Lemma num_pos_sgn (v : num) : num_pos v = false <-> num_sgn v <= 0.
Proof.
  destruct v as [z| | |]; cbn; try (split; [lia|reflexivity]);
    try (split; [discriminate|lia]).
  rewrite Z.ltb_ge. lia.
Qed.

Lemma consistent_total {A} (cmp : A -> A -> num) :
  consistent cmp -> forall x y, before cmp x y \/ before cmp y x.
Proof.
  intros (_ & Hswap & _) x y. unfold before. rewrite !num_pos_sgn.
  pose proof (Hswap x y). lia.
Qed.

Lemma consistent_trans {A} (cmp : A -> A -> num) :
  consistent cmp ->
  forall x y z, before cmp x y -> before cmp y z -> before cmp x z.
Proof.
  intros (_ & _ & Htrans) x y z. unfold before. rewrite !num_pos_sgn.
  apply Htrans.
Qed.

(** A comparison whose sign is that of a three-way comparison [c] of a total
    preorder is consistent. *)
Lemma consistent_of_order {A} (cmp : A -> A -> num) (c : A -> A -> Z) :
  (forall a b, cmp a b <> NaN /\ num_sgn (cmp a b) = Z.sgn (c a b)) ->
  (forall a b, Z.sgn (c b a) = - Z.sgn (c a b)) ->
  (forall a b d, c a b <= 0 -> c b d <= 0 -> c a d <= 0) ->
  consistent cmp.
Proof.
  intros Hc Hswap Htrans. split; [|split].
  - intros a b. apply Hc.
  - intros a b. rewrite !(proj2 (Hc _ _)). apply Hswap.
  - intros a b d. rewrite !(proj2 (Hc _ _)).
    pose proof (Htrans a b d). lia.
Qed.

(** *** The insertion sort of the reference host *)

Section InsertionSort.
Variable A : Type.
Variable comparator : A -> A -> num.

Lemma insert_perm (x : A) (l : list A) :
  Permutation (Ref.insert comparator x l) (x :: l).
Proof.
  induction l as [|y l IH]; cbn; [reflexivity|].
  destruct (num_pos (comparator x y)); [|reflexivity].
  rewrite IH. apply perm_swap.
Qed.

Lemma Ref_Array_sort_perm (l : list A) : Permutation (Ref.Array_sort comparator l) l.
Proof.
  induction l as [|x l IH]; cbn; [reflexivity|].
  rewrite insert_perm. now constructor.
Qed.

Hypothesis Hc : consistent comparator.

Lemma insert_sorted (x : A) (l : list A) :
  StronglySorted (before comparator) l ->
  StronglySorted (before comparator) (Ref.insert comparator x l).
Proof.
  induction 1 as [|y l Hs IH Hy]; cbn.
  - repeat constructor.
  - destruct (num_pos (comparator x y)) eqn:E.
    + constructor; [exact IH|].
      rewrite insert_perm. constructor; [|exact Hy].
      destruct (consistent_total _ Hc x y) as [B|B]; [|exact B].
      unfold before in B. congruence.
    + constructor; [now constructor|].
      constructor; [exact E|].
      eapply Forall_impl; [|exact Hy].
      intros z. now apply (consistent_trans _ Hc).
Qed.

Lemma Ref_Array_sort_sorted (l : list A) :
  StronglySorted (before comparator) (Ref.Array_sort comparator l).
Proof.
  induction l as [|x l IH]; cbn; [constructor|]. now apply insert_sorted.
Qed.

End InsertionSort.

Lemma Ref_localeCompare_refl (a : string) : Ref.localeCompare a a = 0.
Proof.
  induction a as [|x a IH]; cbn; [reflexivity|].
  now rewrite Z.ltb_irrefl.
Qed.

Lemma Ref_localeCompare_swap (a b : string) :
  Ref.localeCompare b a = - Ref.localeCompare a b.
Proof.
  revert b. induction a as [|x a IH]; intros [|y b]; cbn; trivial.
  destruct (Z.ltb_spec (Z.of_N (N_of_ascii x)) (Z.of_N (N_of_ascii y)));
    destruct (Z.ltb_spec (Z.of_N (N_of_ascii y)) (Z.of_N (N_of_ascii x)));
    try lia. apply IH.
Qed.

Lemma Ref_localeCompare_trans (a b c : string) :
  Ref.localeCompare a b <= 0 -> Ref.localeCompare b c <= 0 ->
  Ref.localeCompare a c <= 0.
Proof.
  revert b c. induction a as [|x a IH]; intros [|y b] [|z c]; cbn; try lia.
  destruct (Z.ltb_spec (Z.of_N (N_of_ascii x)) (Z.of_N (N_of_ascii y)));
    destruct (Z.ltb_spec (Z.of_N (N_of_ascii y)) (Z.of_N (N_of_ascii x)));
    destruct (Z.ltb_spec (Z.of_N (N_of_ascii y)) (Z.of_N (N_of_ascii z)));
    destruct (Z.ltb_spec (Z.of_N (N_of_ascii z)) (Z.of_N (N_of_ascii y)));
    destruct (Z.ltb_spec (Z.of_N (N_of_ascii x)) (Z.of_N (N_of_ascii z)));
    destruct (Z.ltb_spec (Z.of_N (N_of_ascii z)) (Z.of_N (N_of_ascii x)));
    try lia.
  apply IH.
Qed.

(** The reference host keeps the promises of the standards. *)
Lemma Ref_laws : HostLaws Ref.host.
Proof.
  split; cbn.
  - apply Ref_localeCompare_refl.
  - intros a b. now rewrite Ref_localeCompare_swap, Z.sgn_opp.
  - apply Ref_localeCompare_trans.
  - intros A cmp l _. apply Ref_Array_sort_perm.
  - intros A cmp l Hc. now apply Ref_Array_sort_sorted.
Qed.

(** In a strongly sorted list, an earlier element is related to a later one. *)
Lemma StronglySorted_nth {A} (R : A -> A -> Prop) (l : list A) :
  StronglySorted R l ->
  forall p q a b, (p < q)%nat ->
  nth_error l p = Some a -> nth_error l q = Some b -> R a b.
Proof.
  induction 1 as [|x l Hs IH Hx]; intros p q a b Hpq Hp Hq.
  - destruct p; discriminate.
  - destruct q as [|q]; [lia|]. cbn in Hq. destruct p as [|p]; cbn in Hp.
    + injection Hp as <-. rewrite Forall_forall in Hx. apply Hx.
      eapply nth_error_In; eauto.
    + apply (IH p q a b); [lia|exact Hp|exact Hq].
Qed.

(** *** The comparator of the view *)

Section ComparatorFacts.
Context {H : Host}.
Variable now : Z.

Lemma num_sub_not_zero (a b : num) :
  num_eqb a b = false -> num_eqb (num_sub a b) (Fin 0) = false.
Proof.
  destruct a, b; cbn; trivial. intros E.
  apply Z.eqb_neq in E. apply Z.eqb_neq. lia.
Qed.

(** The comparator is the comparison of the keys, and the difference of the
    indices where the keys tie. *)
Lemma comparator_split (sortBy : option string) (sortDir : SortDir) (a b : Indexed) :
  comparator now sortBy sortDir a b =
  if num_eqb (keyCompare now sortBy sortDir (t_of a) (t_of b)) (Fin 0)
  then Fin (i_of a - i_of b)
  else keyCompare now sortBy sortDir (t_of a) (t_of b).
Proof.
  assert (D : forall sa sb,
    (if negb (sb =? sa) then Fin (sb - sa) else Fin (i_of a - i_of b)) =
    if num_eqb (if negb (sb =? sa) then Fin (sb - sa) else Fin (0 - 0)) (Fin 0)
    then Fin (i_of a - i_of b)
    else if negb (sb =? sa) then Fin (sb - sa) else Fin (0 - 0)).
  { intros sa sb. destruct (Z.eqb_spec sb sa) as [E|E]; cbn; [reflexivity|].
    destruct (Z.eqb_spec (sb - sa) 0); [lia|reflexivity]. }
  unfold keyCompare, comparator. cbn [t_of i_of].
  destruct sortBy as [[|c key]|]; try apply D.
  destruct (sortValue now (String c key) (t_of a)) as [av|na],
           (sortValue now (String c key) (t_of b)) as [bv|nb]; cbn [toNumber].
  - destruct (Z.eqb_spec (localeCompare av bv) 0) as [E|E]; [reflexivity|].
    destruct sortDir; cbn.
    + destruct (Z.eqb_spec (localeCompare av bv) 0); [lia|reflexivity].
    + destruct (Z.eqb_spec (- localeCompare av bv) 0); [lia|reflexivity].
  - destruct sortDir, nb; reflexivity.
  - destruct sortDir, na; reflexivity.
  - destruct (num_eqb na nb) eqn:E; [reflexivity|].
    destruct sortDir; rewrite num_sub_not_zero; trivial.
    destruct na, nb; cbn in *; trivial. rewrite Z.eqb_sym. exact E.
Qed.

(** A sort key reads strings from every task, or reads from every task a
    number that is an integer or positive infinity. *)
Lemma sortValue_kind (key : string) :
  (forall t, exists s, sortValue now key t = VStr s) \/
  (forall t, exists n, sortValue now key t = VNum n /\
                       (n = PosInf \/ exists z, n = Fin z)).
Proof.
  unfold sortValue.
  destruct (String.eqb key "title"); [left; intros t; eauto|].
  destruct (String.eqb key "area"); [left; intros t; eauto|].
  destruct (String.eqb key "type"); [left; intros t; eauto|].
  destruct (String.eqb key "effort"); [left; intros t; eauto|].
  destruct (String.eqb key "status"); [left; intros t; eauto|].
  right. intros t.
  destruct (String.eqb key "impact"); [eauto|].
  destruct (String.eqb key "urgency"); [eauto|].
  destruct (_ || _); [|eauto].
  destruct (daysUntilDeadline now (deadline t)); eauto.
Qed.

(** The default order: by descending score. *)
Lemma keyCompare_default (sortDir : SortDir) (a b : Task) :
  keyCompare now None sortDir a b = Fin (calculateScore now b - calculateScore now a).
Proof.
  unfold keyCompare, comparator. cbn [t_of i_of].
  destruct (Z.eqb_spec (calculateScore now b) (calculateScore now a)) as [E|E];
    cbn; f_equal; lia.
Qed.

Lemma consistent_default (sortDir : SortDir) :
  consistent (keyCompare now None sortDir).
Proof.
  apply (consistent_of_order _ (fun a b => calculateScore now b - calculateScore now a)).
  - intros a b. rewrite keyCompare_default. split; [discriminate|reflexivity].
  - intros a b. lia.
  - intros a b d. lia.
Qed.

Lemma keyCompare_numeric (key : string) (sortDir : SortDir) (a b : Task) (na nb : num) :
  key <> "" ->
  sortValue now key a = VNum na -> sortValue now key b = VNum nb ->
  keyCompare now (Some key) sortDir a b =
  if num_eqb na nb then Fin 0
  else match sortDir with asc => num_sub na nb | desc => num_sub nb na end.
Proof.
  intros Hk Ha Hb. unfold keyCompare, comparator. cbn [t_of i_of].
  destruct key as [|c key]; [congruence|]. now rewrite Ha, Hb.
Qed.

Lemma keyCompare_string (key : string) (sortDir : SortDir) (a b : Task) (sa sb : string) :
  key <> "" ->
  sortValue now key a = VStr sa -> sortValue now key b = VStr sb ->
  keyCompare now (Some key) sortDir a b =
  if localeCompare sa sb =? 0 then Fin 0
  else match sortDir with
       | asc => Fin (localeCompare sa sb)
       | desc => Fin (- localeCompare sa sb)
       end.
Proof.
  intros Hk Ha Hb. unfold keyCompare, comparator. cbn [t_of i_of].
  destruct key as [|c key]; [congruence|]. now rewrite Ha, Hb.
Qed.

Lemma consistent_numeric (key : string) (sortDir : SortDir) :
  key <> "" ->
  (forall t, exists n, sortValue now key t = VNum n /\
                       (n = PosInf \/ exists z, n = Fin z)) ->
  consistent (keyCompare now (Some key) sortDir).
Proof.
  intros Hk Hn.
  apply (consistent_of_order _ (fun a b =>
    let c := num_order (toNumber (sortValue now key a)) (toNumber (sortValue now key b)) in
    match sortDir with asc => c | desc => - c end)).
  - intros a b.
    destruct (Hn a) as (na & Ea & Ha), (Hn b) as (nb & Eb & Hb).
    rewrite (keyCompare_numeric key sortDir a b na nb Hk Ea Eb), Ea, Eb.
    destruct Ha as [->|(x & ->)], Hb as [->|(y & ->)]; cbn;
      try (destruct sortDir; cbn; split; (discriminate || reflexivity)).
    destruct (Z.eqb_spec x y); destruct sortDir; cbn; split;
      try discriminate; lia.
  - intros a b.
    destruct (Hn a) as (na & -> & [->|(x & ->)]),
             (Hn b) as (nb & -> & [->|(y & ->)]); destruct sortDir; cbn; lia.
  - intros a b d.
    destruct (Hn a) as (na & -> & [->|(x & ->)]),
             (Hn b) as (nb & -> & [->|(y & ->)]),
             (Hn d) as (nd & -> & [->|(z & ->)]); destruct sortDir; cbn; lia.
Qed.

Lemma consistent_string `{!HostLaws H} (key : string) (sortDir : SortDir) :
  key <> "" ->
  (forall t, exists s, sortValue now key t = VStr s) ->
  consistent (keyCompare now (Some key) sortDir).
Proof.
  intros Hk Hs.
  pose (str := fun t => match sortValue now key t with VStr s => s | VNum _ => "" end).
  apply (consistent_of_order _ (fun a b =>
    let c := localeCompare (str a) (str b) in
    match sortDir with asc => c | desc => - c end)).
  - intros a b. unfold str.
    destruct (Hs a) as (sa & Ea), (Hs b) as (sb & Eb).
    rewrite (keyCompare_string key sortDir a b sa sb Hk Ea Eb), Ea, Eb.
    destruct (Z.eqb_spec (localeCompare sa sb) 0) as [E|E];
      destruct sortDir; cbn; split; try discriminate; lia.
  - intros a b. pose proof (localeCompare_swap (str a) (str b)).
    destruct sortDir; cbv zeta; lia.
  - intros a b d. cbv zeta.
    pose proof (localeCompare_swap (str a) (str b)).
    pose proof (localeCompare_swap (str b) (str d)).
    pose proof (localeCompare_swap (str a) (str d)).
    pose proof (localeCompare_trans (str a) (str b) (str d)).
    pose proof (localeCompare_trans (str d) (str b) (str a)).
    destruct sortDir; lia.
Qed.

(** On a platform whose [localeCompare] is consistent, every sort key and
    direction compare the tasks consistently. *)
Lemma consistent_keyCompare `{!HostLaws H} (sortBy : option string) (sortDir : SortDir) :
  consistent (keyCompare now sortBy sortDir).
Proof.
  destruct sortBy as [[|c key]|]; try exact (consistent_default sortDir).
  destruct (sortValue_kind (String c key)) as [Hs|Hn].
  - apply consistent_string; [discriminate|exact Hs].
  - apply consistent_numeric; [discriminate|exact Hn].
Qed.

Ltac split_zero :=
  repeat match goal with
         | |- context [if ?x =? 0 then _ else _] => destruct (Z.eqb_spec x 0)
         end.

Section Consistent.
Variable sortBy : option string.
Variable sortDir : SortDir.
Hypothesis HK : consistent (keyCompare now sortBy sortDir).

(** The sign of the comparator: the sign of the comparison of the keys, and
    where that is 0 the sign of the difference of the indices. *)
Lemma comparator_sgn_NaN (a b : Indexed) :
  comparator now sortBy sortDir a b <> NaN /\
  num_sgn (comparator now sortBy sortDir a b) =
  if num_sgn (keyCompare now sortBy sortDir (t_of a) (t_of b)) =? 0
  then Z.sgn (i_of a - i_of b)
  else num_sgn (keyCompare now sortBy sortDir (t_of a) (t_of b)).
Proof.
  rewrite comparator_split.
  pose proof (proj1 HK (t_of a) (t_of b)) as Hn.
  destruct (keyCompare now sortBy sortDir (t_of a) (t_of b)) as [z| | |];
    cbn; try congruence; try (split; [discriminate|reflexivity]).
  destruct (Z.eqb_spec z 0) as [E|E]; destruct (Z.eqb_spec (Z.sgn z) 0);
    cbn; split; try discriminate; lia.
Qed.

Lemma comparator_sgn (a b : Indexed) :
  num_sgn (comparator now sortBy sortDir a b) =
  if num_sgn (keyCompare now sortBy sortDir (t_of a) (t_of b)) =? 0
  then Z.sgn (i_of a - i_of b)
  else num_sgn (keyCompare now sortBy sortDir (t_of a) (t_of b)).
Proof. apply comparator_sgn_NaN. Qed.

(** The comparator of the view is consistent. *)
Lemma consistent_comparator : consistent (comparator now sortBy sortDir).
Proof.
  pose proof HK as (_ & Hswap & Htrans).
  split; [|split].
  - intros a b. apply comparator_sgn_NaN.
  - intros a b. rewrite !comparator_sgn.
    pose proof (Hswap (t_of a) (t_of b)).
    split_zero; lia.
  - intros a b d. rewrite !comparator_sgn.
    pose proof (Hswap (t_of a) (t_of b)). pose proof (Hswap (t_of b) (t_of d)).
    pose proof (Hswap (t_of a) (t_of d)).
    pose proof (Htrans (t_of a) (t_of b) (t_of d)).
    pose proof (Htrans (t_of d) (t_of a) (t_of b)).
    pose proof (Htrans (t_of b) (t_of d) (t_of a)).
    split_zero; lia.
Qed.

(** Two elements that the comparator leaves in either order have the same
    index. *)
Lemma before_antisym (a b : Indexed) :
  before (comparator now sortBy sortDir) a b ->
  before (comparator now sortBy sortDir) b a -> i_of a = i_of b.
Proof.
  pose proof HK as (_ & Hswap & _).
  unfold before. rewrite !num_pos_sgn, !comparator_sgn.
  pose proof (Hswap (t_of a) (t_of b)).
  split_zero; lia.
Qed.

End Consistent.

End ComparatorFacts.

(** *** Indices *)

(** The index of an element of [withIndex] is its position in the list. *)
Lemma In_withIndexFrom (lst : list Task) :
  forall (i : Z) (a : Indexed),
  In a (withIndexFrom i lst) ->
  i <= i_of a /\ nth_error lst (Z.to_nat (i_of a - i)) = Some (t_of a).
Proof.
  induction lst as [|t lst IH]; intros i a; cbn; [tauto|].
  intros [<-|Ha]; cbn.
  - rewrite Z.sub_diag. split; [lia|reflexivity].
  - destruct (IH _ _ Ha) as [Hi Hn]. split; [lia|].
    replace (i_of a - i) with (Z.succ (i_of a - (i + 1))) by lia.
    rewrite Z2Nat.inj_succ by lia. exact Hn.
Qed.

Lemma NoDup_withIndexFrom (lst : list Task) :
  forall i, NoDup (map i_of (withIndexFrom i lst)).
Proof.
  induction lst as [|t lst IH]; intros i; cbn; constructor; [|apply IH].
  intros Hin. apply in_map_iff in Hin. destruct Hin as (a & Ea & Ha).
  apply In_withIndexFrom in Ha. cbn in Ea. lia.
Qed.

(** Two elements of [withIndex] with the same index are the same. *)
Lemma withIndex_inj (lst : list Task) (a b : Indexed) :
  In a (withIndex lst) -> In b (withIndex lst) -> i_of a = i_of b -> a = b.
Proof.
  intros Ha Hb E.
  apply In_withIndexFrom in Ha, Hb. destruct Ha as [_ Ha], Hb as [_ Hb].
  rewrite E in Ha. destruct a, b; cbn in *. congruence.
Qed.

(** *** The sorted view *)

Section SortedView.
Context {H : Host} {HL : HostLaws H}.
Variable now : Z.
Variable sortBy : option string.
Variable sortDir : SortDir.
Hypothesis HK : consistent (keyCompare now sortBy sortDir).

Lemma sorted_perm (lst : list Task) :
  Permutation (Array_sort (comparator now sortBy sortDir) (withIndex lst))
              (withIndex lst).
Proof. apply Array_sort_perm, consistent_comparator, HK. Qed.

Lemma sorted_NoDup (lst : list Task) :
  NoDup (map i_of (Array_sort (comparator now sortBy sortDir) (withIndex lst))).
Proof.
  eapply Permutation_NoDup; [|apply (NoDup_withIndexFrom lst 0)].
  apply Permutation_map. symmetry. apply sorted_perm.
Qed.

(** Of two elements of the sorted array, the earlier is not behind the later
    by the key, and where the keys tie its index is the smaller. *)
Lemma sorted_positions (lst : list Task) (p q : nat) (a b : Indexed) :
  let out := Array_sort (comparator now sortBy sortDir) (withIndex lst) in
  (p < q)%nat -> nth_error out p = Some a -> nth_error out q = Some b ->
  num_pos (keyCompare now sortBy sortDir (t_of a) (t_of b)) = false /\
  (keyCompare now sortBy sortDir (t_of a) (t_of b) = Fin 0 -> i_of a < i_of b).
Proof.
  intros out Hpq Hp Hq.
  assert (B : before (comparator now sortBy sortDir) a b).
  { apply (StronglySorted_nth (before (comparator now sortBy sortDir)) out)
      with p q; trivial.
    apply Array_sort_sorted, consistent_comparator, HK. }
  assert (D : i_of a <> i_of b).
  { intros E. assert (p = q); [|lia].
    apply (proj1 (NoDup_nth_error (map i_of out)) (sorted_NoDup lst)).
    - rewrite length_map. apply nth_error_Some. congruence.
    - rewrite !nth_error_map, Hp, Hq. cbn. congruence. }
  unfold before in B. rewrite comparator_split in B.
  destruct (keyCompare now sortBy sortDir (t_of a) (t_of b)) as [z| | |];
    cbn in B |- *; try discriminate B; try (split; [reflexivity|discriminate]).
  destruct (Z.eqb_spec z 0) as [E|E]; cbn in B.
  - split; [apply Z.ltb_ge; lia|]. intros _. apply Z.ltb_ge in B. lia.
  - split; [exact B|]. congruence.
Qed.

End SortedView.

(** *** The order does not depend on the identifiers *)

Lemma Forall2_filter {A} (R : A -> A -> Prop) (f : A -> bool) (l l' : list A) :
  (forall a b, R a b -> f a = f b) ->
  Forall2 R l l' -> Forall2 R (filter f l) (filter f l').
Proof.
  intros Hf. induction 1 as [|a b l l' Hab Hl IH]; cbn; [constructor|].
  rewrite (Hf a b Hab). destruct (f b); [constructor|]; trivial.
Qed.

Lemma Forall2_In_l {A B} (R : A -> B -> Prop) (l : list A) (l' : list B) (a : A) :
  Forall2 R l l' -> In a l -> exists b, In b l' /\ R a b.
Proof.
  induction 1 as [|x y l l' Hxy Hl IH]; cbn; [tauto|].
  intros [<-|Ha]; [eauto|]. destruct (IH Ha) as (b & Hb & Hab). eauto.
Qed.

Lemma Forall2_In_r {A B} (R : A -> B -> Prop) (l : list A) (l' : list B) (b : B) :
  Forall2 R l l' -> In b l' -> exists a, In a l /\ R a b.
Proof.
  induction 1 as [|x y l l' Hxy Hl IH]; cbn; [tauto|].
  intros [<-|Hb]; [eauto|]. destruct (IH Hb) as (a & Ha & Hab). eauto.
Qed.

(** Two sorted lists without repetition whose elements correspond one to one
    under a relation that respects the order correspond position by
    position, when the order is antisymmetric on the first. *)
Lemma sorted_related {A} (R le : A -> A -> Prop) (l : list A) :
  forall l',
  NoDup l -> NoDup l' ->
  (forall a, In a l -> exists a', In a' l' /\ R a a') ->
  (forall a', In a' l' -> exists a, In a l /\ R a a') ->
  (forall a b a', In a l -> In b l -> R a a' -> R b a' -> a = b) ->
  (forall a a' b', In a' l' -> In b' l' -> R a a' -> R a b' -> a' = b') ->
  (forall a b a' b', R a a' -> R b b' -> le a' b' -> le a b) ->
  (forall a b, In a l -> In b l -> le a b -> le b a -> a = b) ->
  StronglySorted le l -> StronglySorted le l' ->
  Forall2 R l l'.
Proof.
  induction l as [|x l IH]; intros l' Hnd Hnd' Hl Hr Hinj Hfun Hle Hanti Hs Hs'.
  - destruct l' as [|y' l']; [constructor|].
    destruct (Hr y' (or_introl eq_refl)) as (a & [] & _).
  - destruct l' as [|y' l'].
    { destruct (Hl x (or_introl eq_refl)) as (a' & [] & _). }
    apply StronglySorted_inv in Hs, Hs'.
    destruct Hs as [Hs Hx], Hs' as [Hs' Hy'].
    rewrite Forall_forall in Hx, Hy'.
    apply NoDup_cons_iff in Hnd, Hnd'.
    destruct Hnd as [Hxl Hnd], Hnd' as [Hyl Hnd'].
    assert (Hxy : R x y').
    { destruct (Hl x (or_introl eq_refl)) as (x' & Hx' & Rx).
      destruct (Hr y' (or_introl eq_refl)) as (y & Hy & Ry).
      destruct Hx' as [<-|Hx']; [exact Rx|].
      destruct Hy as [<-|Hy]; [exact Ry|].
      assert (x = y); [|congruence].
      apply Hanti; cbn; auto.
      apply (Hle y x y' x' Ry Rx). auto. }
    constructor; [exact Hxy|].
    apply IH; trivial.
    + intros a Ha. destruct (Hl a (or_intror Ha)) as (a' & [<-|Ha'] & Ra); [|eauto].
      exfalso. apply Hxl.
      now rewrite (Hinj x a y' (or_introl eq_refl) (or_intror Ha) Hxy Ra).
    + intros a' Ha'. destruct (Hr a' (or_intror Ha')) as (a & [<-|Ha] & Ra); [|eauto].
      exfalso. apply Hyl.
      now rewrite (Hfun x y' a' (or_introl eq_refl) (or_intror Ha') Hxy Ra).
    + intros a b a' Ha Hb. apply Hinj; cbn; auto.
    + intros a a' b' Ha' Hb'. apply Hfun; cbn; auto.
    + intros a b Ha Hb. apply Hanti; cbn; auto.
Qed.

Section Relabelling.
Context {H : Host} {HL : HostLaws H}.
Variable now : Z.

Lemma filteredTasks_relabelled (v : View) (tasks tasks' : list Task) :
  Forall2 relabelled tasks tasks' ->
  Forall2 relabelled (filteredTasks now v tasks) (filteredTasks now v tasks').
Proof.
  intros Hr. unfold filteredTasks, quickFilter.
  repeat match goal with
         | |- context [if ?b then _ else _] => destruct b
         end;
    repeat (apply Forall2_filter; [intros a b ->; reflexivity|]); exact Hr.
Qed.

Lemma withIndexFrom_relabelled (lst lst' : list Task) :
  Forall2 relabelled lst lst' ->
  forall i,
  Forall2 (fun a a' => i_of a' = i_of a /\ relabelled (t_of a) (t_of a'))
          (withIndexFrom i lst) (withIndexFrom i lst').
Proof.
  induction 1; intros i; cbn; constructor; auto.
Qed.

Lemma comparator_relabelled (sortBy : option string) (sortDir : SortDir)
    (a b a' b' : Indexed) :
  i_of a' = i_of a /\ relabelled (t_of a) (t_of a') ->
  i_of b' = i_of b /\ relabelled (t_of b) (t_of b') ->
  comparator now sortBy sortDir a' b' = comparator now sortBy sortDir a b.
Proof.
  destruct a as [ta ia], b as [tb ib], a' as [ta' ia'], b' as [tb' ib']. cbn.
  intros [-> ->] [-> ->]. reflexivity.
Qed.

Lemma filteredSortedTasks_relabelled (v : View) (tasks tasks' : list Task) :
  Forall2 relabelled tasks tasks' ->
  Forall2 relabelled (filteredSortedTasks now v tasks)
                     (filteredSortedTasks now v tasks').
Proof.
  intros Hr. unfold filteredSortedTasks, sortedIndexed.
  apply filteredTasks_relabelled with (v := v) in Hr.
  set (lst := filteredTasks now v tasks) in *.
  set (lst' := filteredTasks now v tasks') in *.
  apply withIndexFrom_relabelled with (i := 0) in Hr.
  fold (withIndex lst) in Hr. fold (withIndex lst') in Hr.
  pose proof (consistent_keyCompare now (sortBy v) (sortDir v)) as HK.
  pose proof (consistent_comparator now _ _ HK) as HC.
  pose proof (sorted_perm now _ _ HK lst) as P.
  pose proof (sorted_perm now _ _ HK lst') as P'.
  set (R := fun a a' : Indexed => i_of a' = i_of a /\ relabelled (t_of a) (t_of a')) in *.
  assert (F : Forall2 R (Array_sort (comparator now (sortBy v) (sortDir v)) (withIndex lst))
                        (Array_sort (comparator now (sortBy v) (sortDir v)) (withIndex lst'))).
  { apply sorted_related with (le := before (comparator now (sortBy v) (sortDir v))).
    - eapply NoDup_map_inv, sorted_NoDup, HK.
    - eapply NoDup_map_inv, sorted_NoDup, HK.
    - intros a Ha. apply (Permutation_in _ P) in Ha.
      destruct (Forall2_In_l _ _ _ _ Hr Ha) as (a' & Ha' & Ra).
      exists a'. split; [|exact Ra]. apply (Permutation_in _ (Permutation_sym P')), Ha'.
    - intros a' Ha'. apply (Permutation_in _ P') in Ha'.
      destruct (Forall2_In_r _ _ _ _ Hr Ha') as (a & Ha & Ra).
      exists a. split; [|exact Ra]. apply (Permutation_in _ (Permutation_sym P)), Ha.
    - intros a b a' Ha Hb [Ea _] [Eb _].
      apply (withIndex_inj lst).
      + apply (Permutation_in _ P), Ha.
      + apply (Permutation_in _ P), Hb.
      + congruence.
    - intros a a' b' Ha' Hb' [Ea _] [Eb _].
      apply (withIndex_inj lst').
      + apply (Permutation_in _ P'), Ha'.
      + apply (Permutation_in _ P'), Hb'.
      + congruence.
    - intros a b a' b' Ra Rb. unfold before.
      now rewrite (comparator_relabelled _ _ a b a' b' Ra Rb).
    - intros a b Ha Hb Hab Hba.
      apply (withIndex_inj lst).
      + apply (Permutation_in _ P), Ha.
      + apply (Permutation_in _ P), Hb.
      + exact (before_antisym now _ _ HK a b Hab Hba).
    - apply Array_sort_sorted, HC.
    - apply Array_sort_sorted, HC. }
  assert (G : forall l l', Forall2 R l l' ->
                Forall2 relabelled (map t_of l) (map t_of l')).
  { induction 1 as [|a a' l l' [_ Ra] _ IH]; cbn; constructor; trivial. }
  exact (G _ _ F).
Qed.

End Relabelling.

(** *** The claims on the view *)

Section ViewFacts.
Context {H : Host} {HL : HostLaws H}.
Variable now : Z.

(** The filters keep a sublist: what stays is in the order of the task list. *)
Lemma filteredTasks_filter (v : View) (tasks : list Task) :
  exists keep, filteredTasks now v tasks = filter keep tasks.
Proof.
  assert (F : forall (f g : Task -> bool) l,
            filter g (filter f l) = filter (fun t => f t && g t) l).
  { intros f g l. induction l as [|t l IH]; cbn; [reflexivity|].
    destruct (f t); cbn; [destruct (g t)|]; now rewrite IH. }
  assert (T : forall l : list Task, l = filter (fun _ => true) l).
  { intros l. induction l; cbn; congruence. }
  unfold filteredTasks, quickFilter.
  repeat match goal with
         | |- context [if ?b then _ else _] => destruct b
         end;
    rewrite ?F; eauto.
Qed.

Lemma sortValue_deadline (key : string) (t : Task) :
  key = "deadline" \/ key = "daysLeft" ->
  sortValue now key t =
  VNum match daysUntilDeadline now (deadline t) with
       | Some d => Fin d
       | None => PosInf
       end.
Proof. intros [->| ->]; reflexivity. Qed.

(** C5. The sort of the view pipeline works on the filtered list with the
    position of every task attached (its index), and returns the tasks of
    the sorted array. On a platform that keeps the promises of the standards
    ([localeCompare] is a consistent comparator, and [sort] with a consistent
    comparator leaves no element before one that the comparator puts in
    front of it, whether or not it is a stable sort), for every task list,
    sort key and direction: the sorted array is a rearrangement of the
    indexed list; of any two of its elements the earlier is not behind the
    later by the key, and when the two compare equal under the key the
    earlier has the smaller index, that is, stood first in the list; with no
    sort key, the scores descend and equal scores stand in list order; and
    giving the tasks other identifiers changes nothing in the order of the
    output. *)
Theorem sort_is_stable (v : View) (tasks : list Task) :
  let lst := filteredTasks now v tasks in
  let out := sortedIndexed now v lst in
  (exists keep, lst = filter keep tasks) /\
  filteredSortedTasks now v tasks = map t_of out /\
  Permutation out (withIndex lst) /\
  (forall a, In a out ->
     0 <= i_of a /\ nth_error lst (Z.to_nat (i_of a)) = Some (t_of a)) /\
  (forall p q a b, (p < q)%nat ->
     nth_error out p = Some a -> nth_error out q = Some b ->
     num_pos (keyCompare now (sortBy v) (sortDir v) (t_of a) (t_of b)) = false /\
     (keyCompare now (sortBy v) (sortDir v) (t_of a) (t_of b) = Fin 0 ->
      i_of a < i_of b)) /\
  (sortBy v = None ->
   forall p q a b, (p < q)%nat ->
     nth_error out p = Some a -> nth_error out q = Some b ->
     calculateScore now (t_of b) <= calculateScore now (t_of a) /\
     (calculateScore now (t_of a) = calculateScore now (t_of b) ->
      i_of a < i_of b)) /\
  (forall tasks', Forall2 relabelled tasks tasks' ->
     Forall2 relabelled (filteredSortedTasks now v tasks)
                        (filteredSortedTasks now v tasks')).
Proof.
  intros lst out.
  pose proof (consistent_keyCompare now (sortBy v) (sortDir v)) as HK.
  assert (P : Permutation out (withIndex lst)) by (apply sorted_perm, HK).
  split; [apply filteredTasks_filter|].
  split; [reflexivity|].
  split; [exact P|].
  split.
  { intros a Ha. apply (Permutation_in _ P) in Ha.
    apply In_withIndexFrom in Ha. rewrite Z.sub_0_r in Ha. exact Ha. }
  split.
  { intros p q a b Hpq Hp Hq.
    exact (sorted_positions now _ _ HK lst p q a b Hpq Hp Hq). }
  split.
  { intros Hs p q a b Hpq Hp Hq.
    destruct (sorted_positions now _ _ HK lst p q a b Hpq Hp Hq) as [S T].
    rewrite Hs, keyCompare_default in S, T. cbn in S.
    apply Z.ltb_ge in S. split; [lia|].
    intros E. apply T. f_equal. lia. }
  intros tasks'. apply filteredSortedTasks_relabelled.
Qed.

(** C6. Under the sort keys deadline and days-left, a task for which
    [daysUntilDeadline] gives no day count (no deadline, or one that is not a
    date) has the key positive infinity. So in ascending order only such
    tasks follow such a task: they stand after all the dated tasks; and in
    descending order only such tasks precede such a task: they stand before
    all the dated tasks. *)
Theorem absent_deadline_sorts_as_infinity (v : View) (tasks : list Task) (key : string) :
  sortBy v = Some key -> key = "deadline" \/ key = "daysLeft" ->
  let out := filteredSortedTasks now v tasks in
  (forall t, daysUntilDeadline now (deadline t) = None ->
             sortValue now key t = VNum PosInf) /\
  (forall p q a b, (p < q)%nat ->
     nth_error out p = Some a -> nth_error out q = Some b ->
     (sortDir v = asc ->
      daysUntilDeadline now (deadline a) = None ->
      daysUntilDeadline now (deadline b) = None) /\
     (sortDir v = desc ->
      daysUntilDeadline now (deadline b) = None ->
      daysUntilDeadline now (deadline a) = None)).
Proof.
  intros Hs Hkey out.
  assert (Hne : key <> "") by (destruct Hkey as [->| ->]; discriminate).
  split.
  { intros t Ht. now rewrite sortValue_deadline, Ht. }
  intros p q a b Hpq Hp Hq. unfold out, filteredSortedTasks in Hp, Hq.
  rewrite nth_error_map in Hp, Hq.
  destruct (nth_error _ p) as [ia|] eqn:Ep; [|discriminate].
  destruct (nth_error _ q) as [ib|] eqn:Eq; [|discriminate].
  cbn in Hp, Hq. injection Hp as <-. injection Hq as <-.
  assert (HK : consistent (keyCompare now (sortBy v) (sortDir v))).
  { rewrite Hs. apply consistent_numeric; [exact Hne|].
    intros t. rewrite sortValue_deadline by exact Hkey.
    eexists. split; [reflexivity|].
    destruct (daysUntilDeadline now (deadline t)); eauto. }
  destruct (sorted_positions now _ _ HK _ p q ia ib Hpq Ep Eq) as [S _].
  rewrite Hs in S.
  rewrite (keyCompare_numeric now key _ _ _ _ _ Hne
             (sortValue_deadline key _ Hkey) (sortValue_deadline key _ Hkey)) in S.
  split; intros Hd Hn; rewrite Hd, Hn in S;
    destruct (daysUntilDeadline now (deadline _)); trivial; discriminate.
Qed.

End ViewFacts.

(** Witness of C5: five tasks on the reference host, sorted by title in
    descending order; the two tasks titled alike keep their list order. *)
Lemma sort_is_stable_witness :
  let a := mkTask "a" "2024-01-02T09:00:00.000Z" "Pay invoice" (Some "")
                  Personal Ticket Self R1 R1 E5m (Some "2024-01-12") Doing in
  let b := mkTask "b" "2024-01-03T10:00:00.000Z" "rotate keys" None
                  Infra Microtask Boss R3 R4 E1h None Inbox in
  let c := mkTask "c" "2024-01-04T11:00:00.000Z" "Audit DNS" None
                  DNS Ticket Jira R3 R4 E30m (Some "2024-01-11") Waiting in
  let d := mkTask "d" "2024-01-05T12:00:00.000Z" "Zed" None
                  DNS Ticket Jira R3 R4 E30m (Some "garbage") Done in
  let e := mkTask "e" "2024-01-06T13:00:00.000Z" "Rotate keys" None
                  Infra Microtask Boss R3 R4 E1h None Inbox in
  let v := mkView "All Tasks" "" "All" "All" false (Some "title") desc in
  let out := sortedIndexed (H := Ref.host) 1704891600000 v [a; b; c; d; e] in
  filteredSortedTasks (H := Ref.host) 1704891600000 v [a; b; c; d; e]
    = [d; b; e; a; c] /\
  Permutation out (withIndex [a; b; c; d; e]) /\
  (forall p q x y, (p < q)%nat ->
     nth_error out p = Some x -> nth_error out q = Some y ->
     num_pos (keyCompare (H := Ref.host) 1704891600000 (Some "title") desc
                         (t_of x) (t_of y)) = false /\
     (keyCompare (H := Ref.host) 1704891600000 (Some "title") desc
                 (t_of x) (t_of y) = Fin 0 -> i_of x < i_of y)).
Proof.
  intros a b c d e v out.
  destruct (sort_is_stable (H := Ref.host) (HL := Ref_laws) 1704891600000
              v [a; b; c; d; e])
    as (_ & E & P & _ & S & _).
  split; [rewrite E; reflexivity|]. split; [exact P|exact S].
Defined.

(** Witness of C6: three tasks sorted by deadline, ascending. *)
Lemma absent_deadline_sorts_as_infinity_witness :
  let a := mkTask "a" "2024-01-02T09:00:00.000Z" "Pay invoice" (Some "")
                  Personal Ticket Self R1 R1 E5m (Some "2024-01-12") Doing in
  let b := mkTask "b" "2024-01-03T10:00:00.000Z" "rotate keys" None
                  Infra Microtask Boss R3 R4 E1h None Inbox in
  let c := mkTask "c" "2024-01-04T11:00:00.000Z" "Audit DNS" None
                  DNS Ticket Jira R3 R4 E30m (Some "2024-01-11") Waiting in
  let v := mkView "All Tasks" "" "All" "All" false (Some "deadline") asc in
  let out := filteredSortedTasks (H := Ref.host) 1704891600000 v [a; b; c] in
  out = [c; a; b] /\
  sortValue (H := Ref.host) 1704891600000 "deadline" b = VNum PosInf /\
  (forall p q x y, (p < q)%nat ->
     nth_error out p = Some x -> nth_error out q = Some y ->
     daysUntilDeadline (H := Ref.host) 1704891600000 (deadline x) = None ->
     daysUntilDeadline (H := Ref.host) 1704891600000 (deadline y) = None).
Proof.
  intros a b c v out.
  destruct (absent_deadline_sorts_as_infinity (H := Ref.host) (HL := Ref_laws)
              1704891600000 v [a; b; c] "deadline" eq_refl (or_introl eq_refl))
    as [K S].
  split; [reflexivity|]. split; [apply K; reflexivity|].
  intros p q x y Hpq Hp Hq. apply (S p q x y Hpq Hp Hq). reflexivity.
Defined.

(** * Further properties of the page component *)

(** ** The store: delete, persistence, identifiers *)

Lemma stringify_reloads (st : State) :
  localStorage st = Some (JSON.stringify (tasks st)) -> reloads st.
Proof.
  intros E. unfold reloads. rewrite E.
  eexists. split; [apply loadEffect_stringify|]. apply as_tasks_values.
Qed.

(** On a list with unique identifiers, leaving out the tasks of the
    identifier of the task at [k] leaves out position [k] and nothing else. *)
Lemma filter_other_ids (l : list Task) :
  forall (k : nat) (t : Task),
  NoDup (map id l) -> nth_error l k = Some t ->
  filter (fun u => negb (String.eqb (id u) (id t))) l = firstn k l ++ skipn (S k) l.
Proof.
  induction l as [|x l IH]; intros k t Hnd Hk; [destruct k; discriminate|].
  cbn [map] in Hnd. apply NoDup_cons_iff in Hnd. destruct Hnd as [Hx Hnd].
  destruct k as [|k]; cbn in Hk.
  - injection Hk as ->. cbn. rewrite String.eqb_refl. cbn.
    apply forallb_filter_id. apply forallb_forall. intros u Hu.
    destruct (String.eqb_spec (id u) (id t)) as [E|E]; [|reflexivity].
    exfalso. apply Hx. rewrite <- E. now apply in_map.
  - cbn. destruct (String.eqb_spec (id x) (id t)) as [E|E]; cbn.
    + exfalso. apply Hx. rewrite E. apply in_map. eapply nth_error_In; eauto.
    + f_equal. now apply IH.
Qed.

Lemma filter_absent_id (l : list Task) (target : string) :
  (forall t, In t l -> id t <> target) ->
  filter (fun u => negb (String.eqb (id u) target)) l = l.
Proof.
  intros Ha. apply forallb_filter_id. apply forallb_forall. intros u Hu.
  destruct (String.eqb_spec (id u) target) as [E|E]; [|reflexivity].
  now apply Ha in Hu.
Qed.

Lemma map_id_update (f : Task -> Task) (x : string) (l : list Task) :
  (forall t, id (f t) = id t) ->
  map id (map (fun t => if String.eqb (id t) x then f t else t) l) = map id l.
Proof.
  intros Hf. rewrite map_map. apply map_ext. intros t.
  destruct (String.eqb (id t) x); [apply Hf|reflexivity].
Qed.

Lemma map_createdAt_update (f : Task -> Task) (x : string) (l : list Task) :
  (forall t, createdAt (f t) = createdAt t) ->
  map createdAt (map (fun t => if String.eqb (id t) x then f t else t) l)
  = map createdAt l.
Proof.
  intros Hf. rewrite map_map. apply map_ext. intros t.
  destruct (String.eqb (id t) x); [apply Hf|reflexivity].
Qed.

(** Leaving tasks out keeps the identifiers unique. *)
Lemma unique_ids_filter (keep : Task -> bool) (lst : list Task) :
  NoDup (map id lst) -> NoDup (map id (filter keep lst)).
Proof.
  induction lst as [|t lst IH]; cbn; [trivial|].
  intros Hnd. apply NoDup_cons_iff in Hnd. destruct Hnd as [Ht Hnd].
  destruct (keep t); cbn; [|now apply IH].
  constructor; [|now apply IH].
  intros Hin. apply Ht. apply in_map_iff in Hin.
  destruct Hin as (u & <- & Hu). apply in_map. apply filter_In in Hu. tauto.
Qed.

Section StoreExtras.
Context {H : Host}.

(** X1. With a target to delete that is not empty, on a list with unique
    identifiers where the target is the identifier of the task at position
    [k], the delete leaves the list without position [k], the other tasks
    in their order, closes the confirmation and forgets the target; and
    when no task has the target's identifier the list stays as it is. *)
Theorem performDelete_removes_target (p : Page) (target : string) :
  deleteTargetId p = Some target -> target <> "" ->
  let p' := performDelete p in
  showDeleteConfirm p' = false /\ deleteTargetId p' = None /\
  (forall k t, NoDup (map id (tasks (store p))) ->
     nth_error (tasks (store p)) k = Some t -> id t = target ->
     tasks (store p') = firstn k (tasks (store p)) ++ skipn (S k) (tasks (store p)) /\
     length_of (tasks (store p')) = length_of (tasks (store p)) - 1 /\
     (forall u, In u (tasks (store p')) -> id u <> target)) /\
  ((forall t, In t (tasks (store p)) -> id t <> target) ->
   tasks (store p') = tasks (store p)).
Proof.
  intros Ht Hne p'. unfold p', performDelete. rewrite Ht.
  destruct target as [|c target]; [congruence|].
  cbn [showDeleteConfirm deleteTargetId store tasks].
  split; [reflexivity|]. split; [reflexivity|]. split.
  - intros k t Hnd Hk E. rewrite <- E. split; [|split].
    + now apply filter_other_ids.
    + rewrite (filter_other_ids _ k t) by trivial.
      unfold length_of. rewrite length_app, length_firstn, length_skipn.
      assert (k < List.length (tasks (store p)))%nat
        by (apply nth_error_Some; congruence).
      lia.
    + intros u Hu. apply filter_In in Hu. destruct Hu as [_ Hu].
      destruct (String.eqb_spec (id u) (id t)); [discriminate|trivial].
  - apply filter_absent_id.
Qed.

(** X2. Every accepted mutation other than a create leaves in the storage a
    text that reads back as the list in memory: an edit submission with a
    title that is not blank, an inline status change, and a delete with a
    target that is not empty. *)
Theorem mutations_persist (uuid isoNow : string) (st : State) (editing : Task)
    (id' : string) (status' : Status) (p : Page) (target : string) :
  (editingTask st = Some editing -> trim (f_title (form st)) <> "" ->
   reloads (handleSubmit uuid isoNow st)) /\
  reloads (updateTaskStatus id' status' st) /\
  (deleteTargetId p = Some target -> target <> "" ->
   reloads (store (performDelete p))).
Proof.
  split; [|split].
  - intros He Ht. apply stringify_reloads. unfold handleSubmit.
    apply String.eqb_neq in Ht. now rewrite Ht, He.
  - apply stringify_reloads. reflexivity.
  - intros Ht Hne. apply stringify_reloads. unfold performDelete. rewrite Ht.
    destruct target; [congruence|reflexivity].
Qed.

(** X3. The operations of the store keep the identifiers unique: a create
    whose new identifier no task has, an edit submission, an inline status
    change and a delete. *)
Theorem unique_ids_preserved (uuid isoNow : string) (st : State)
    (id' : string) (status' : Status) (p : Page) :
  (NoDup (map id (tasks st)) ->
   (editingTask st = None -> ~ In uuid (map id (tasks st)) ->
    NoDup (map id (tasks (handleSubmit uuid isoNow st)))) /\
   (editingTask st <> None ->
    NoDup (map id (tasks (handleSubmit uuid isoNow st)))) /\
   NoDup (map id (tasks (updateTaskStatus id' status' st)))) /\
  (NoDup (map id (tasks (store p))) ->
   NoDup (map id (tasks (store (performDelete p))))).
Proof.
  split.
  - intros Hnd. split; [|split].
    + intros He Hu. unfold handleSubmit. rewrite He.
      destruct (String.eqb _ ""); [exact Hnd|]. cbn. now constructor.
    + intros He. unfold handleSubmit.
      destruct (String.eqb _ ""); [exact Hnd|].
      destruct (editingTask st) as [e|]; [|congruence]. cbn [tasks].
      now rewrite map_id_update.
    + unfold updateTaskStatus. cbn [tasks]. now rewrite map_id_update.
  - intros Hnd. unfold performDelete.
    destruct (deleteTargetId p) as [[|c t]|]; trivial. cbn.
    now apply unique_ids_filter.
Qed.

(** X4. Whatever the list, an edit submission and an inline status change
    leave the length of the list, the sequence of the identifiers and the
    sequence of the creation timestamps as they were. *)
Theorem updates_keep_identifiers (uuid isoNow : string) (st : State)
    (id' : string) (status' : Status) :
  (editingTask st <> None ->
   let tasks' := tasks (handleSubmit uuid isoNow st) in
   map id tasks' = map id (tasks st) /\
   map createdAt tasks' = map createdAt (tasks st) /\
   length_of tasks' = length_of (tasks st)) /\
  (let tasks' := tasks (updateTaskStatus id' status' st) in
   map id tasks' = map id (tasks st) /\
   map createdAt tasks' = map createdAt (tasks st) /\
   length_of tasks' = length_of (tasks st)).
Proof.
  split.
  - intros He tasks'. unfold tasks', handleSubmit, length_of.
    destruct (String.eqb _ ""); [auto|].
    destruct (editingTask st) as [e|]; [|congruence]. cbn [tasks].
    rewrite map_id_update, map_createdAt_update, length_map by reflexivity. auto.
  - intros tasks'. unfold tasks', updateTaskStatus, length_of. cbn [tasks].
    rewrite map_id_update, map_createdAt_update, length_map by reflexivity. auto.
Qed.

(** X5. A create followed by the delete of the task it made gives back the
    list of before, in memory and in the storage, when the new identifier
    is not empty and no task of the list had it. *)
Theorem create_then_delete (uuid isoNow : string) (p : Page) :
  editingTask (store p) = None ->
  trim (f_title (form (store p))) <> "" ->
  uuid <> "" -> ~ In uuid (map id (tasks (store p))) ->
  let created :=
    {| store := handleSubmit uuid isoNow (store p);
       view := view p;
       showDeleteConfirm := showDeleteConfirm p;
       deleteTargetId := deleteTargetId p;
       showInsights := showInsights p |} in
  let p' := performDelete (confirmDelete uuid created) in
  tasks (store p') = tasks (store p) /\
  localStorage (store p') = Some (JSON.stringify (tasks (store p))) /\
  reloads (store p').
Proof.
  intros He Ht Hu Hfresh created p'.
  assert (E : tasks (store p') = tasks (store p)).
  { unfold p', created, performDelete, confirmDelete. cbn [deleteTargetId].
    destruct uuid as [|c u]; [congruence|]. cbn [store tasks].
    unfold handleSubmit. apply String.eqb_neq in Ht. rewrite Ht, He.
    cbn [tasks filter newTask id]. rewrite String.eqb_refl. cbn [negb].
    apply filter_absent_id. intros t Hin E. apply Hfresh. rewrite <- E.
    now apply in_map. }
  assert (S : localStorage (store p') = Some (JSON.stringify (tasks (store p')))).
  { unfold p', performDelete, confirmDelete. cbn [deleteTargetId].
    destruct uuid; [congruence|reflexivity]. }
  split; [exact E|]. split; [now rewrite S, E|]. now apply stringify_reloads.
Qed.

(** X6. With no edit under way, opening a task of the list in the edit form
    and submitting the form as it was filled leaves the list as it is, on a
    list with unique identifiers, for a task as a create or an edit writes
    it: its title is its own trim, it has a description and its deadline is
    not the empty string. *)
Theorem edit_unchanged_is_identity (uuid isoNow : string) (st : State) (t : Task) :
  editingTask st = None ->
  NoDup (map id (tasks st)) -> In t (tasks st) ->
  trim (title t) = title t -> description t <> None -> deadline t <> Some "" ->
  form (startEdit t st) = formOf t /\
  isModalOpen (startEdit t st) = true /\
  tasks (handleSubmit uuid isoNow (startEdit t st)) = tasks st.
Proof.
  intros _ Hnd Hin Htitle Hdesc Hdl.
  split; [reflexivity|]. split; [reflexivity|].
  unfold handleSubmit, startEdit, syncForm.
  cbn [editingTask form tasks].
  destruct (String.eqb _ ""); [reflexivity|]. cbn [tasks].
  rewrite <- (map_id (tasks st)) at 2. apply map_ext_in. intros u Hu.
  destruct (String.eqb_spec (id u) (id t)) as [E|E]; [|reflexivity].
  assert (u = t) as ->.
  { destruct (In_nth_error _ _ Hu) as (j & Hj).
    destruct (In_nth_error _ _ Hin) as (k & Hk).
    assert (j = k) by (eapply unique_id; eauto). congruence. }
  destruct t as [i c ti de a ty o im ur ef dl s].
  unfold editedTask, formOf. cbn in *. rewrite Htitle. f_equal.
  - destruct de as [d|]; [|congruence]. now destruct (String.eqb_spec d "") as [->|].
  - destruct dl as [d|]; [|reflexivity].
    destruct (String.eqb_spec d "") as [->|]; [congruence|reflexivity].
Qed.

End StoreExtras.


(** ** The view: sort control, clearing, what a view lists *)

Lemma map_t_of_withIndexFrom (lst : list Task) :
  forall i, map t_of (withIndexFrom i lst) = lst.
Proof. induction lst as [|t lst IH]; intros i; cbn; [reflexivity|]. now rewrite IH. Qed.

Lemma Forall2_eq {A} (l l' : list A) : Forall2 eq l l' -> l = l'.
Proof. induction 1; congruence. Qed.

Lemma nil_of_no_member {A} (l : list A) : (forall x, ~ In x l) -> l = [].
Proof. destruct l as [|x l]; [reflexivity|]. intros Hn. destruct (Hn x). now left. Qed.

Lemma StronglySorted_weaken {A} (R R' : A -> A -> Prop) (l : list A) :
  (forall a b, R a b -> R' a b) -> StronglySorted R l -> StronglySorted R' l.
Proof.
  intros Hi. induction 1 as [|a l _ IH Hf]; constructor; [exact IH|].
  revert Hf. apply Forall_impl. apply Hi.
Qed.

Section ViewExtras.
Context {H : Host}.
Variable now : Z.

(** What the quick filter of the sidebar keeps. *)
Lemma quickFilter_In (af : string) (lst : list Task) (t : Task) :
  In t (quickFilter now af lst) <->
  In t lst /\
  (af = "Quick Wins" -> effort t = E5m \/ effort t = E15m) /\
  (af = "Critical" -> calculateLevel (calculateScore now t) = "Critical") /\
  (af = "Due Soon" ->
   exists d, daysUntilDeadline now (deadline t) = Some d /\ 0 <= d <= 3) /\
  (af = "Waiting" -> status t = Waiting) /\
  (af = "Done" -> status t = Done).
Proof.
  unfold quickFilter.
  destruct (String.eqb_spec af "Quick Wins") as [->|E1].
  { rewrite filter_In. split.
    - intros [Hin Hp]. split; [exact Hin|].
      repeat split; try discriminate. intros _.
      destruct (effort t); try discriminate; auto.
    - intros (Hin & Hq & _). split; [exact Hin|].
      destruct (Hq eq_refl) as [-> | ->]; reflexivity. }
  destruct (String.eqb_spec af "Critical") as [->|E2].
  { rewrite filter_In. split.
    - intros [Hin Hp]. split; [exact Hin|].
      repeat split; try discriminate. intros _. now apply String.eqb_eq.
    - intros (Hin & _ & Hq & _). split; [exact Hin|].
      apply String.eqb_eq. now apply Hq. }
  destruct (String.eqb_spec af "Due Soon") as [->|E3].
  { rewrite filter_In. split.
    - intros [Hin Hp]. split; [exact Hin|].
      repeat split; try discriminate. intros _.
      destruct (daysUntilDeadline now (deadline t)) as [d|]; [|discriminate].
      exists d. split; [reflexivity|]. apply andb_prop in Hp. lia.
    - intros (Hin & _ & _ & Hq & _). split; [exact Hin|].
      destruct (Hq eq_refl) as (d & -> & Hd). apply andb_true_intro. lia. }
  destruct (String.eqb_spec af "Waiting") as [->|E4].
  { rewrite filter_In. split.
    - intros [Hin Hp]. split; [exact Hin|].
      repeat split; try discriminate. intros _.
      destruct (status t); try discriminate; reflexivity.
    - intros (Hin & _ & _ & _ & Hq & _). split; [exact Hin|].
      now rewrite (Hq eq_refl). }
  destruct (String.eqb_spec af "Done") as [->|E5].
  { rewrite filter_In. split.
    - intros [Hin Hp]. split; [exact Hin|].
      repeat split; try discriminate. intros _.
      destruct (status t); try discriminate; reflexivity.
    - intros (Hin & _ & _ & _ & _ & Hq). split; [exact Hin|].
      now rewrite (Hq eq_refl). }
  split; [intros Hin; repeat split; trivial; congruence|tauto].
Qed.

Lemma status_not_Done (t : Task) :
  negb (status_eqb (status t) Done) = true <-> status t <> Done.
Proof. destruct (status t); cbn; split; congruence. Qed.

(** What the filters of a view keep. *)
Lemma filteredTasks_In (v : View) (tasks : list Task) (t : Task) :
  In t (filteredTasks now v tasks) <->
  In t tasks /\
  (activeFilter v = "Quick Wins" -> effort t = E5m \/ effort t = E15m) /\
  (activeFilter v = "Critical" -> calculateLevel (calculateScore now t) = "Critical") /\
  (activeFilter v = "Due Soon" ->
   exists d, daysUntilDeadline now (deadline t) = Some d /\ 0 <= d <= 3) /\
  (activeFilter v = "Waiting" -> status t = Waiting) /\
  (activeFilter v = "Done" -> status t = Done) /\
  (hideDone v = true -> status t <> Done) /\
  (statusFilter v <> "All" -> status_str (status t) = statusFilter v) /\
  (areaFilter v <> "All" -> area_str (area t) = areaFilter v) /\
  (trim (search v) <> "" ->
   includes (toLowerCase (title t)) (toLowerCase (search v)) = true).
Proof.
  unfold filteredTasks.
  set (l1 := quickFilter now (activeFilter v) tasks).
  set (l2 := if hideDone v then filter _ l1 else l1).
  set (l3 := if negb (String.eqb (statusFilter v) "All") then filter _ l2 else l2).
  set (l4 := if negb (String.eqb (areaFilter v) "All") then filter _ l3 else l3).
  assert (E4 : forall l, In t (if negb (String.eqb (trim (search v)) "")
                     then filter (fun t => includes (toLowerCase (title t))
                                                    (toLowerCase (search v))) l
                     else l) <->
               In t l /\ (trim (search v) <> "" ->
                          includes (toLowerCase (title t)) (toLowerCase (search v)) = true)).
  { intros l. destruct (String.eqb_spec (trim (search v)) "") as [E|E]; cbn.
    - tauto.
    - rewrite filter_In. tauto. }
  assert (E3 : In t l4 <-> In t l3 /\
               (areaFilter v <> "All" -> area_str (area t) = areaFilter v)).
  { unfold l4. destruct (String.eqb_spec (areaFilter v) "All") as [E|E]; cbn.
    - tauto.
    - rewrite filter_In, String.eqb_eq. tauto. }
  assert (E2 : In t l3 <-> In t l2 /\
               (statusFilter v <> "All" -> status_str (status t) = statusFilter v)).
  { unfold l3. destruct (String.eqb_spec (statusFilter v) "All") as [E|E]; cbn.
    - tauto.
    - rewrite filter_In, String.eqb_eq. tauto. }
  assert (E1 : In t l2 <-> In t l1 /\ (hideDone v = true -> status t <> Done)).
  { unfold l2. destruct (hideDone v).
    - rewrite filter_In, status_not_Done. tauto.
    - split; [intros; split; [trivial|discriminate]|tauto]. }
  cbv zeta. rewrite E4, E3, E2, E1. unfold l1. rewrite quickFilter_In. tauto.
Qed.

(** X7. A click on a column header that is not the sort key makes it the
    key, descending; a click on the header of the sort key turns the
    direction round and keeps the key, so that two clicks on it give the
    view back; no click changes a filter. *)
Theorem toggleSort_cycle (key : string) (v : View) :
  (sortBy v <> Some key ->
   sortBy (toggleSort key v) = Some key /\ sortDir (toggleSort key v) = desc) /\
  (sortBy v = Some key ->
   sortBy (toggleSort key v) = Some key /\
   sortDir (toggleSort key v) <> sortDir v /\
   toggleSort key (toggleSort key v) = v) /\
  toggleSort key (toggleSort key (toggleSort key v)) = toggleSort key v /\
  (forall tasks,
   filteredTasks now (toggleSort key v) tasks = filteredTasks now v tasks).
Proof.
  destruct v as [af s sf arf hd sb sd]. unfold toggleSort. cbn.
  split; [|split; [|split]].
  - intros Hne. destruct sb as [k|]; [|auto].
    destruct (String.eqb_spec k key) as [->|]; [congruence|auto].
  - intros ->. rewrite String.eqb_refl. cbn. rewrite String.eqb_refl.
    destruct sd; repeat split; congruence.
  - destruct sb as [k|]; [destruct (String.eqb_spec k key) as [->|]|];
      cbn; rewrite ?String.eqb_refl; cbn; rewrite ?String.eqb_refl;
      destruct sd; reflexivity.
  - intros tasks.
    destruct (match sb with Some k => String.eqb k key | None => false end);
      reflexivity.
Qed.

Section WithLaws.
Context {HL : HostLaws H}.

(** The sorted view holds the tasks that the filters keep. *)
Lemma filteredSortedTasks_perm (v : View) (tasks : list Task) :
  Permutation (filteredSortedTasks now v tasks) (filteredTasks now v tasks).
Proof.
  unfold filteredSortedTasks, sortedIndexed.
  rewrite <- (map_t_of_withIndexFrom (filteredTasks now v tasks) 0) at 2.
  apply Permutation_map.
  apply (sorted_perm now _ _ (consistent_keyCompare now _ _)).
Qed.

(** Two sort keys that compare every two elements alike give the same
    array. *)
Lemma Array_sort_same_order (sortBy sortBy' : option string) (sortDir sortDir' : SortDir)
    (lst : list Task) :
  (forall a b, comparator now sortBy sortDir a b = comparator now sortBy' sortDir' a b) ->
  Array_sort (comparator now sortBy sortDir) (withIndex lst) =
  Array_sort (comparator now sortBy' sortDir') (withIndex lst).
Proof.
  intros E. apply Forall2_eq.
  pose proof (consistent_keyCompare now sortBy sortDir) as HK.
  pose proof (consistent_keyCompare now sortBy' sortDir') as HK'.
  pose proof (sorted_perm now sortBy sortDir HK lst) as P.
  pose proof (sorted_perm now sortBy' sortDir' HK' lst) as P'.
  assert (N : NoDup (withIndex lst)).
  { apply (NoDup_map_inv i_of). apply NoDup_withIndexFrom. }
  apply (sorted_related eq (before (comparator now sortBy sortDir))).
  - eapply Permutation_NoDup; [symmetry; exact P|exact N].
  - eapply Permutation_NoDup; [symmetry; exact P'|exact N].
  - intros a Ha. exists a. split; [|reflexivity].
    eapply Permutation_in; [symmetry; exact P'|].
    eapply Permutation_in; [exact P|exact Ha].
  - intros a Ha. exists a. split; [|reflexivity].
    eapply Permutation_in; [symmetry; exact P|].
    eapply Permutation_in; [exact P'|exact Ha].
  - congruence.
  - congruence.
  - intros a b a' b' -> ->. trivial.
  - intros a b Ha Hb B B'.
    apply (withIndex_inj lst).
    + eapply Permutation_in; [exact P|exact Ha].
    + eapply Permutation_in; [exact P|exact Hb].
    + exact (before_antisym now sortBy sortDir HK a b B B').
  - apply Array_sort_sorted, consistent_comparator, HK.
  - assert (S' := Array_sort_sorted _ (comparator now sortBy' sortDir') (withIndex lst)
                    (consistent_comparator now sortBy' sortDir' HK')).
    revert S'. apply StronglySorted_weaken.
    intros a b. unfold before. now rewrite E.
Qed.

(** X8. Sorting the view by the score column, descending, or by a key that
    is none of the sort keys, lists the tasks exactly as the default order
    does, whatever the filters and whatever direction the default view
    carries. *)
Theorem score_key_is_default_order (key : string) (v v' : View) (tasks : list Task) :
  key <> "" ->
  ~ In key ["title"; "area"; "type"; "effort"; "status"; "impact"; "urgency";
            "deadline"; "daysLeft"] ->
  sortBy v = Some key -> sortDir v = desc -> sortBy v' = None ->
  activeFilter v' = activeFilter v -> search v' = search v ->
  statusFilter v' = statusFilter v -> areaFilter v' = areaFilter v ->
  hideDone v' = hideDone v ->
  filteredSortedTasks now v tasks = filteredSortedTasks now v' tasks.
Proof.
  intros Hne Hk Hs Hd Hs' F1 F2 F3 F4 F5.
  assert (Hf : filteredTasks now v tasks = filteredTasks now v' tasks).
  { unfold filteredTasks. now rewrite F1, F2, F3, F4, F5. }
  unfold filteredSortedTasks, sortedIndexed. rewrite Hf, Hs, Hd, Hs'.
  f_equal. apply Array_sort_same_order. intros a b.
  assert (V : forall t, sortValue now key t = VNum (Fin (calculateScore now t))).
  { intros t. unfold sortValue.
    repeat match goal with
           | |- context [String.eqb key ?s] =>
               destruct (String.eqb_spec key s) as [->|?];
               [exfalso; apply Hk; cbn; tauto|]
           end.
    reflexivity. }
  unfold comparator. destruct key as [|c key]; [congruence|].
  rewrite !V. cbn.
  destruct (Z.eqb_spec (calculateScore now (t_of a)) (calculateScore now (t_of b)))
    as [E|E];
    destruct (Z.eqb_spec (calculateScore now (t_of b)) (calculateScore now (t_of a)));
    try congruence; reflexivity.
Qed.

(** X9. After the filters are cleared the view lists every task, each one
    once, in the default order, on a platform where the trim of the empty
    string is empty. *)
Theorem clearFilters_shows_all (v : View) (tasks : list Task) :
  trim "" = "" ->
  filteredTasks now (clearFilters v) tasks = tasks /\
  Permutation (filteredSortedTasks now (clearFilters v) tasks) tasks /\
  filteredSortedTasks now (clearFilters v) tasks =
  map t_of (Array_sort (comparator now None desc) (withIndex tasks)).
Proof.
  intros Ht.
  assert (E : filteredTasks now (clearFilters v) tasks = tasks).
  { unfold filteredTasks, clearFilters, quickFilter. cbn. now rewrite Ht. }
  split; [exact E|]. split.
  - rewrite <- E at 2. apply filteredSortedTasks_perm.
  - unfold filteredSortedTasks, sortedIndexed. now rewrite E.
Qed.

(** X10. A task is listed by a view exactly when it is in the task list and
    passes every filter that is switched on: the quick filter of the
    sidebar, the hiding of the done tasks, the status, the area and the
    search text; the sort key and direction decide no membership. *)
Theorem view_lists_what_passes (v : View) (tasks : list Task) (t : Task) :
  In t (filteredSortedTasks now v tasks) <->
  In t tasks /\
  (activeFilter v = "Quick Wins" -> effort t = E5m \/ effort t = E15m) /\
  (activeFilter v = "Critical" -> calculateLevel (calculateScore now t) = "Critical") /\
  (activeFilter v = "Due Soon" ->
   exists d, daysUntilDeadline now (deadline t) = Some d /\ 0 <= d <= 3) /\
  (activeFilter v = "Waiting" -> status t = Waiting) /\
  (activeFilter v = "Done" -> status t = Done) /\
  (hideDone v = true -> status t <> Done) /\
  (statusFilter v <> "All" -> status_str (status t) = statusFilter v) /\
  (areaFilter v <> "All" -> area_str (area t) = areaFilter v) /\
  (trim (search v) <> "" ->
   includes (toLowerCase (title t)) (toLowerCase (search v)) = true).
Proof.
  rewrite <- filteredTasks_In. split; apply Permutation_in.
  - apply filteredSortedTasks_perm.
  - symmetry. apply filteredSortedTasks_perm.
Qed.

End WithLaws.
End ViewExtras.

(** ** Scores, levels and the counters of the header *)

Lemma filter_length_le {A} (p q : A -> bool) (l : list A) :
  (forall x, p x = true -> q x = true) ->
  (List.length (filter p l) <= List.length (filter q l))%nat.
Proof.
  intros Hi. induction l as [|x l IH]; cbn; [lia|].
  destruct (p x) eqn:P; [rewrite (Hi x P); cbn; lia|].
  destruct (q x); cbn; lia.
Qed.

Lemma calculateLevel_Critical (score : Z) :
  calculateLevel score = "Critical" <-> 900 <= score.
Proof.
  unfold calculateLevel.
  destruct (Z.leb_spec 900 score); [tauto|].
  destruct (30 <=? score); [|destruct (10 <=? score)];
    (split; [discriminate|lia]).
Qed.

Section ScoreExtras.
Context {H : Host}.
Variable now : Z.

(** The score of a task that is not done and has a day count. *)
Lemma calculateScore_dated (t : Task) (d : Z) :
  status t <> Done -> daysUntilDeadline now (deadline t) = Some d ->
  calculateScore now t =
  rating_val (impact t) * 2 + rating_val (urgency t) + 1000 - d * 20
  - match status t with Waiting => 10 | _ => 0 end.
Proof. intros Hs Hd. rewrite calculateScore_open, Hd by trivial. lia. Qed.

(** A critical task is not done and its deadline is at most five days
    away. *)
Lemma Critical_inv (t : Task) :
  calculateLevel (calculateScore now t) = "Critical" ->
  status t <> Done /\
  exists d, daysUntilDeadline now (deadline t) = Some d /\ d <= 5.
Proof.
  rewrite calculateLevel_Critical. intros Hc.
  assert (Hs : status t <> Done).
  { intros E. rewrite (calculateScore_Done now t E) in Hc. lia. }
  split; [exact Hs|].
  rewrite calculateScore_open in Hc by trivial.
  pose proof (rating_val_range (impact t)). pose proof (rating_val_range (urgency t)).
  destruct (daysUntilDeadline now (deadline t)) as [d|].
  - exists d. split; [reflexivity|]. destruct (status t); lia.
  - destruct (status t); lia.
Qed.

(** X11. For a task that is not done and has a day count: with the deadline
    at most four days away, or passed, the level is Critical whatever the
    ratings and the status; six days away or more it is never Critical; at
    five days it is Critical unless the task is waiting with impact*2 +
    urgency under 10. *)
Theorem critical_window (t : Task) (d : Z) :
  status t <> Done -> daysUntilDeadline now (deadline t) = Some d ->
  (d <= 4 -> calculateLevel (calculateScore now t) = "Critical") /\
  (6 <= d -> calculateLevel (calculateScore now t) <> "Critical") /\
  (d = 5 ->
   (calculateLevel (calculateScore now t) = "Critical" <->
    status t <> Waiting \/ 10 <= rating_val (impact t) * 2 + rating_val (urgency t))).
Proof.
  intros Hs Hd. rewrite calculateLevel_Critical, (calculateScore_dated t d Hs Hd).
  pose proof (rating_val_range (impact t)). pose proof (rating_val_range (urgency t)).
  repeat split.
  - destruct (status t); lia.
  - destruct (status t); lia.
  - destruct (status t); try (left; congruence); right; lia.
  - destruct (status t); try lia. intros [?|?]; [congruence|lia].
Qed.

(** X12. Of two tasks that are not done, the one whose deadline is at least
    two days earlier has the higher score, whatever the ratings and the
    statuses; and a task that is not done with a deadline at most 48 days
    away scores higher than every task with no day count and every done
    task. *)
Theorem earlier_deadline_scores_higher (a b : Task) (da : Z) :
  status a <> Done -> daysUntilDeadline now (deadline a) = Some da ->
  (forall db, status b <> Done -> daysUntilDeadline now (deadline b) = Some db ->
   da + 2 <= db -> calculateScore now b < calculateScore now a) /\
  (da <= 48 ->
   daysUntilDeadline now (deadline b) = None \/ status b = Done ->
   calculateScore now b < calculateScore now a).
Proof.
  intros Hs Hd. rewrite (calculateScore_dated a da Hs Hd).
  pose proof (rating_val_range (impact a)). pose proof (rating_val_range (urgency a)).
  pose proof (rating_val_range (impact b)). pose proof (rating_val_range (urgency b)).
  split.
  - intros db Hsb Hdb Hlt. rewrite (calculateScore_dated b db Hsb Hdb).
    destruct (status a), (status b); lia.
  - intros H48 Hb.
    destruct (status_eqb (status b) Done) eqn:E.
    + assert (status b = Done) as Eb by (destruct (status b); congruence || discriminate).
      rewrite (calculateScore_Done now b Eb). destruct (status a); lia.
    + assert (status b <> Done) as Eb by (intros Eb; rewrite Eb in E; discriminate).
      destruct Hb as [Hb|Hb]; [|congruence].
      rewrite calculateScore_open, Hb by trivial.
      destruct (status a), (status b); lia.
Qed.

(** X13. The colour of the priority indicator of a row, from the score: red
    from 900, orange from 30, yellow from 10 and none under 10; the row of a
    done task has none; and a row whose days are shown in red (a deadline
    at most two days away, or passed) has the red indicator unless the task
    is done. *)
Theorem indicator_colours (score : Z) (t : Task) :
  (levelClass (calculateLevel score) = "bg-red-600" <-> 900 <= score) /\
  (levelClass (calculateLevel score) = "bg-orange-500" <-> 30 <= score < 900) /\
  (levelClass (calculateLevel score) = "bg-yellow-500" <-> 10 <= score < 30) /\
  (levelClass (calculateLevel score) = "bg-transparent" <-> score < 10) /\
  (status t = Done ->
   levelClass (calculateLevel (calculateScore now t)) = "bg-transparent") /\
  (status t <> Done -> isUrgent now t = true ->
   levelClass (calculateLevel (calculateScore now t)) = "bg-red-600").
Proof.
  assert (L : forall s, (900 <= s -> levelClass (calculateLevel s) = "bg-red-600") /\
                        (30 <= s < 900 -> levelClass (calculateLevel s) = "bg-orange-500") /\
                        (10 <= s < 30 -> levelClass (calculateLevel s) = "bg-yellow-500") /\
                        (s < 10 -> levelClass (calculateLevel s) = "bg-transparent")).
  { intros s. unfold calculateLevel.
    destruct (Z.leb_spec 900 s); [|destruct (Z.leb_spec 30 s); [|destruct (Z.leb_spec 10 s)]];
      repeat split; intros; try lia; reflexivity. }
  destruct (L score) as (L1 & L2 & L3 & L4).
  assert (C : 900 <= score \/ 30 <= score < 900 \/ 10 <= score < 30 \/ score < 10) by lia.
  assert (I : forall (c : string) (P : Prop),
            levelClass (calculateLevel score) = c ->
            (900 <= score -> c = "bg-red-600" -> P) ->
            (30 <= score < 900 -> c = "bg-orange-500" -> P) ->
            (10 <= score < 30 -> c = "bg-yellow-500" -> P) ->
            (score < 10 -> c = "bg-transparent" -> P) -> P).
  { intros c P E P1 P2 P3 P4.
    destruct C as [C|[C|[C|C]]];
      [apply (P1 C)|apply (P2 C)|apply (P3 C)|apply (P4 C)]; rewrite <- E; auto. }
  split; [split; [|exact L1]|].
  { intros E. apply (I _ _ E); intros; (lia || discriminate). }
  split; [split; [|exact L2]|].
  { intros E. apply (I _ _ E); intros; (lia || discriminate). }
  split; [split; [|exact L3]|].
  { intros E. apply (I _ _ E); intros; (lia || discriminate). }
  split; [split; [|exact L4]|].
  { intros E. apply (I _ _ E); intros; (lia || discriminate). }
  split.
  - intros E. rewrite (calculateScore_Done now t E). reflexivity.
  - intros Hs Hu. unfold isUrgent in Hu.
    destruct (daysUntilDeadline now (deadline t)) as [d|] eqn:Hd; [|discriminate].
    apply (L (calculateScore now t)). rewrite (calculateScore_dated t d Hs Hd).
    pose proof (rating_val_range (impact t)). pose proof (rating_val_range (urgency t)).
    apply Z.leb_le in Hu. destruct (status t); lia.
Qed.

(** X14. The counters of the header: none is negative; the waiting, the
    critical and the due-soon tasks are each counted among the open ones;
    the open and the done tasks together are all the tasks. *)
Theorem stats_bounds (tasks : list Task) :
  let s := stats now tasks in
  0 <= waiting s <= open s /\
  0 <= critical s <= open s /\
  0 <= soon s <= open s /\
  open s + length_of (filter (fun t => status_eqb (status t) Done) tasks)
  = length_of tasks.
Proof.
  cbv zeta. unfold stats, length_of. cbn [open critical soon waiting].
  repeat split; try lia.
  - apply inj_le. apply filter_length_le. intros t.
    destruct (status t); cbn; congruence.
  - apply inj_le. apply filter_length_le. intros t Ht.
    apply String.eqb_eq in Ht. apply Critical_inv in Ht.
    apply status_not_Done. tauto.
  - apply inj_le. apply filter_length_le. intros t.
    destruct (status_eqb (status t) Done); cbn; congruence.
  - rewrite <- Nat2Z.inj_add. f_equal.
    rewrite Nat.add_comm. apply filter_length.
Qed.

End ScoreExtras.

(** ** What the views list, and in which order *)

Lemma filter_filter_id {A} (p q : A -> bool) (l : list A) :
  (forall x, q x = true -> p x = true) -> filter p (filter q l) = filter q l.
Proof.
  intros Hi. apply forallb_filter_id. apply forallb_forall.
  intros x Hx. apply filter_In in Hx. apply Hi, Hx.
Qed.

Lemma StronglySorted_app_inv {A} (R : A -> A -> Prop) (l1 l2 : list A) :
  StronglySorted R (l1 ++ l2) ->
  forall a b, In a l1 -> In b l2 -> R a b.
Proof.
  induction l1 as [|x l1 IH]; cbn; [tauto|].
  intros Hs a b [<-|Ha] Hb; apply StronglySorted_inv in Hs; destruct Hs as [Hs Hx].
  - rewrite Forall_forall in Hx. apply Hx, in_or_app. now right.
  - now apply IH.
Qed.

(** The score depends on the clock through the start of the day alone. *)
Lemma calculateScore_of_day {H : Host} (now now' : Z) (t : Task) :
  startOfDay now = startOfDay now' -> calculateScore now t = calculateScore now' t.
Proof.
  intros E. unfold calculateScore, daysUntilDeadline. now rewrite E.
Qed.

Section ListingExtras.
Context {H : Host} {HL : HostLaws H}.
Variable now : Z.

(** X15. In the default order of a view, of two listed tasks that are not
    done the one whose deadline is at least two days earlier stands first,
    whatever the ratings, the statuses and the places in the task list. *)
Theorem earlier_deadline_listed_first (v : View) (tasks : list Task)
    (a b : Task) (da db : Z) (p q : nat) :
  sortBy v = None ->
  status a <> Done -> daysUntilDeadline now (deadline a) = Some da ->
  status b <> Done -> daysUntilDeadline now (deadline b) = Some db ->
  da + 2 <= db ->
  nth_error (filteredSortedTasks now v tasks) p = Some a ->
  nth_error (filteredSortedTasks now v tasks) q = Some b ->
  (p < q)%nat.
Proof.
  intros Hs Hsa Hda Hsb Hdb Hlt Hp Hq.
  assert (S : calculateScore now b < calculateScore now a).
  { rewrite (calculateScore_dated now a da Hsa Hda), (calculateScore_dated now b db Hsb Hdb).
    pose proof (rating_val_range (impact a)). pose proof (rating_val_range (urgency a)).
    pose proof (rating_val_range (impact b)). pose proof (rating_val_range (urgency b)).
    destruct (status a), (status b); lia. }
  unfold filteredSortedTasks, sortedIndexed in Hp, Hq.
  rewrite Hs, nth_error_map in Hp, Hq.
  destruct (nth_error _ p) as [ia|] eqn:Ep; [|discriminate].
  destruct (nth_error _ q) as [ib|] eqn:Eq; [|discriminate].
  cbn in Hp, Hq. injection Hp as Ha. injection Hq as Hb.
  destruct (Nat.lt_trichotomy p q) as [L|[L|L]]; [exact L| |].
  - exfalso. subst q. rewrite Ep in Eq. injection Eq as ->. subst. lia.
  - exfalso.
    destruct (sorted_positions now None (sortDir v) (consistent_default now (sortDir v))
                _ q p ib ia L Eq Ep) as [B _].
    rewrite keyCompare_default, Hb, Ha in B. cbn in B. apply Z.ltb_ge in B. lia.
Qed.

(** X16. The quick filter Done with the done tasks hidden lists nothing; the
    quick filter Critical lists only tasks that are not done and whose
    deadline is at most five days away, so hiding the done tasks takes
    nothing from it. *)
Theorem quick_filters_and_done (v : View) (tasks : list Task) :
  (activeFilter v = "Done" -> hideDone v = true ->
   filteredSortedTasks now v tasks = []) /\
  (activeFilter v = "Critical" ->
   forall t, In t (filteredSortedTasks now v tasks) ->
   status t <> Done /\
   exists d, daysUntilDeadline now (deadline t) = Some d /\ d <= 5).
Proof.
  split.
  - intros Ha Hh. apply nil_of_no_member. intros t Hin.
    apply (Permutation_in _ (filteredSortedTasks_perm now v tasks)) in Hin.
    apply filteredTasks_In in Hin.
    destruct Hin as (_ & _ & _ & _ & _ & Hd & Hn & _).
    exact (Hn Hh (Hd Ha)).
  - intros Ha t Hin.
    apply (Permutation_in _ (filteredSortedTasks_perm now v tasks)) in Hin.
    apply filteredTasks_In in Hin.
    destruct Hin as (_ & _ & Hc & _).
    apply Critical_inv, Hc, Ha.
Qed.

(** X17. The counters of the header are computed when the task list
    changes and the view when a filter changes too, each with the clock of
    its own moment. With no status, area or search filter: whatever the two
    clocks, the view of the quick filter Waiting has as many rows as the
    waiting counter says, whether or not the done tasks are hidden, and the
    view of every task with the done tasks hidden as many as the open
    counter; the view of the quick filter Critical has as many rows as the
    critical counter when the two clocks are of the same day. *)
Theorem counters_match_views (now_stats : Z) (v : View) (tasks : list Task) :
  statusFilter v = "All" -> areaFilter v = "All" -> trim (search v) = "" ->
  (activeFilter v = "Critical" -> startOfDay now_stats = startOfDay now ->
   length_of (filteredSortedTasks now v tasks) = critical (stats now_stats tasks)) /\
  (activeFilter v = "Waiting" ->
   length_of (filteredSortedTasks now v tasks) = waiting (stats now_stats tasks)) /\
  (activeFilter v = "All Tasks" -> hideDone v = true ->
   length_of (filteredSortedTasks now v tasks) = open (stats now_stats tasks)).
Proof.
  intros Hsf Haf Hq.
  assert (L : length_of (filteredSortedTasks now v tasks)
              = length_of (if hideDone v
                           then filter (fun t => negb (status_eqb (status t) Done))
                                       (quickFilter now (activeFilter v) tasks)
                           else quickFilter now (activeFilter v) tasks)).
  { unfold length_of. rewrite (Permutation_length (filteredSortedTasks_perm now v tasks)).
    unfold filteredTasks. now rewrite Hsf, Haf, Hq. }
  rewrite L. unfold stats, quickFilter. cbn [open critical soon waiting].
  split; [|split].
  - intros -> Hday. cbn.
    rewrite (filter_ext
               (fun task => String.eqb (calculateLevel (calculateScore now_stats task))
                                       "Critical")
               (fun task => String.eqb (calculateLevel (calculateScore now task))
                                       "Critical"))
      by (intros t; now rewrite (calculateScore_of_day now_stats now t Hday)).
    destruct (hideDone v); [|reflexivity].
    rewrite filter_filter_id; [reflexivity|]. intros t Ht.
    apply String.eqb_eq, Critical_inv in Ht. apply status_not_Done. tauto.
  - intros ->. cbn. destruct (hideDone v); [|reflexivity].
    rewrite filter_filter_id; [reflexivity|]. intros t.
    destruct (status t); cbn; congruence.
  - intros -> ->. reflexivity.
Qed.

(** X18. Once a task is marked done from its row, no view that hides the
    done tasks lists a task with its identifier, and every task with its
    identifier scores 0. *)
Theorem done_task_leaves_hiding_views (target : string) (st : State) (v : View) :
  let tasks' := tasks (updateTaskStatus target Done st) in
  (hideDone v = true ->
   forall t, In t (filteredSortedTasks now v tasks') -> id t <> target) /\
  (forall t, In t tasks' -> id t = target ->
   status t = Done /\ calculateScore now t = 0).
Proof.
  cbv zeta. unfold updateTaskStatus. cbn [tasks].
  assert (D : forall t,
            In t (map (fun t => if String.eqb (id t) target then setStatus Done t else t)
                      (tasks st)) ->
            id t = target -> status t = Done).
  { intros t Hin E. apply in_map_iff in Hin. destruct Hin as (u & Hu & _).
    destruct (String.eqb_spec (id u) target) as [Eu|Eu].
    - now subst t.
    - subst t. congruence. }
  split.
  - intros Hh t Hin E.
    apply (Permutation_in _ (filteredSortedTasks_perm now v _)) in Hin.
    apply filteredTasks_In in Hin.
    destruct Hin as (Hin & _ & _ & _ & _ & _ & Hn & _).
    exact (Hn Hh (D t Hin E)).
  - intros t Hin E. split; [now apply D|].
    apply calculateScore_Done. now apply D.
Qed.

Lemma consistent_byScore : consistent (byScore now).
Proof.
  apply (consistent_of_order _ (fun a b => calculateScore now b - calculateScore now a)).
  - intros a b. split; [discriminate|reflexivity].
  - intros a b. lia.
  - intros a b d. lia.
Qed.

Lemma sortedTasks_perm (tasks : list Task) : Permutation (sortedTasks now tasks) tasks.
Proof. apply Array_sort_perm, consistent_byScore. Qed.

Lemma sortedTasks_sorted (tasks : list Task) :
  StronglySorted (fun a b => calculateScore now b <= calculateScore now a)
                 (sortedTasks now tasks).
Proof.
  apply (StronglySorted_weaken (before (byScore now))).
  - intros a b. unfold before, byScore. cbn. rewrite Z.ltb_ge. lia.
  - apply Array_sort_sorted, consistent_byScore.
Qed.

(** X19. The list of the earlier page: the tasks sorted by the difference of
    the scores hold every task once and no other, and no task stands before
    one that scores higher. *)
Theorem sortedTasks_descending (tasks : list Task) :
  Permutation (sortedTasks now tasks) tasks /\
  (forall p q a b, (p < q)%nat ->
   nth_error (sortedTasks now tasks) p = Some a ->
   nth_error (sortedTasks now tasks) q = Some b ->
   calculateScore now b <= calculateScore now a).
Proof.
  split; [apply sortedTasks_perm|].
  intros p q a b Hpq Hp Hq.
  exact (StronglySorted_nth _ _ (sortedTasks_sorted tasks) p q a b Hpq Hp Hq).
Qed.

(** X20. The top of the insights holds three tasks, or all of them when
    there are fewer; it is part of the task list, no task left out of it
    scores higher than one in it, and it is listed from the highest score
    down. *)
Theorem insights_top_highest (tasks : list Task) :
  let top := insights_top now tasks in
  length_of top = Z.min 3 (length_of tasks) /\
  (exists rest, Permutation (top ++ rest) tasks /\
     forall a b, In a top -> In b rest ->
     calculateScore now b <= calculateScore now a) /\
  (forall p q a b, (p < q)%nat ->
   nth_error top p = Some a -> nth_error top q = Some b ->
   calculateScore now b <= calculateScore now a).
Proof.
  cbv zeta. unfold insights_top.
  pose proof (sortedTasks_perm tasks) as P.
  pose proof (sortedTasks_sorted tasks) as S.
  split; [|split].
  - unfold length_of. rewrite length_firstn, (Permutation_length P). lia.
  - exists (skipn 3 (sortedTasks now tasks)). rewrite firstn_skipn.
    split; [exact P|].
    apply StronglySorted_app_inv. now rewrite firstn_skipn.
  - intros p q a b Hpq Hp Hq.
    rewrite <- (firstn_skipn 3 (sortedTasks now tasks)) in S.
    assert (S1 : StronglySorted (fun a b => calculateScore now b <= calculateScore now a)
                   (firstn 3 (sortedTasks now tasks))).
    { revert S. generalize (firstn 3 (sortedTasks now tasks)) as l1.
      induction l1 as [|x l1 IH]; cbn; intros S; [constructor|].
      apply StronglySorted_inv in S. destruct S as [S Hx].
      constructor; [now apply IH|].
      rewrite Forall_forall in Hx |- *. intros y Hy. apply Hx, in_or_app. now left. }
    exact (StronglySorted_nth _ _ S1 p q a b Hpq Hp Hq).
Qed.

End ListingExtras.

(** ** The insights: counts and sums *)

Lemma count_of_bump (k k' : string) (m : Counts) :
  count_of k (bump k' m) =
  if String.eqb k' k
  then Some (match count_of k m with Some v => v + 1 | None => 1 end)
  else count_of k m.
Proof.
  induction m as [|[k'' v] m IH]; cbn.
  - destruct (String.eqb k' k); reflexivity.
  - destruct (String.eqb_spec k'' k') as [E|E]; cbn.
    + subst k''. destruct (String.eqb_spec k' k) as [E'|E']; [|reflexivity].
      f_equal. destruct (Z.eqb_spec v 0); lia.
    + destruct (String.eqb_spec k'' k) as [E'|E'].
      * subst k''. destruct (String.eqb_spec k' k); [congruence|reflexivity].
      * exact IH.
Qed.

Lemma keys_bump (k : string) (m : Counts) (x : string) :
  In x (map fst (bump k m)) <-> x = k \/ In x (map fst m).
Proof.
  induction m as [|[k' v] m IH]; cbn.
  - intuition.
  - destruct (String.eqb_spec k' k) as [E|E]; cbn.
    + subst. intuition.
    + rewrite IH. intuition.
Qed.

Lemma NoDup_bump (k : string) (m : Counts) :
  NoDup (map fst m) -> NoDup (map fst (bump k m)).
Proof.
  induction m as [|[k' v] m IH]; cbn; intros Hnd.
  - constructor; [tauto|constructor].
  - apply NoDup_cons_iff in Hnd. destruct Hnd as [Hk Hnd].
    destruct (String.eqb_spec k' k) as [E|E]; cbn.
    + now constructor.
    + constructor; [|now apply IH].
      rewrite keys_bump. intros [E'|E']; [congruence|tauto].
Qed.

Lemma total_bump (k : string) (m : Counts) :
  fold_right Z.add 0 (map snd (bump k m)) = fold_right Z.add 0 (map snd m) + 1.
Proof.
  induction m as [|[k' v] m IH]; cbn; [reflexivity|].
  destruct (String.eqb k' k); cbn; [destruct (Z.eqb_spec v 0)|]; lia.
Qed.

Section Counting.
Variable name : Task -> string.

Lemma count_of_countBy (k : string) (tasks : list Task) :
  forall m,
  count_of k (countBy name tasks m) =
  let n := length_of (filter (fun t => String.eqb (name t) k) tasks) in
  match count_of k m with
  | Some v => Some (v + n)
  | None => if n =? 0 then None else Some n
  end.
Proof.
  unfold length_of.
  induction tasks as [|t tasks IH]; intros m; cbn [countBy filter].
  - cbn. destruct (count_of k m); [f_equal; lia|reflexivity].
  - rewrite IH, count_of_bump. cbv zeta.
    destruct (String.eqb (name t) k); cbn [List.length].
    + destruct (count_of k m); [f_equal; lia|].
      match goal with
      | |- context [?x =? 0] => destruct (Z.eqb_spec x 0)
      end; [lia|f_equal; lia].
    + reflexivity.
Qed.

Lemma NoDup_countBy (tasks : list Task) :
  forall m, NoDup (map fst m) -> NoDup (map fst (countBy name tasks m)).
Proof.
  induction tasks as [|t tasks IH]; intros m Hnd; cbn; [exact Hnd|].
  now apply IH, NoDup_bump.
Qed.

Lemma total_countBy (tasks : list Task) :
  forall m,
  fold_right Z.add 0 (map snd (countBy name tasks m))
  = fold_right Z.add 0 (map snd m) + length_of tasks.
Proof.
  unfold length_of.
  induction tasks as [|t tasks IH]; intros m; cbn [countBy List.length]; [cbn; lia|].
  rewrite IH, total_bump. lia.
Qed.

End Counting.

Lemma sum_of_bounds (f : Task -> Z) (lo hi : Z) (tasks : list Task) :
  (forall t, lo <= f t <= hi) ->
  forall acc,
  acc + lo * length_of tasks <= sum_of f tasks acc <= acc + hi * length_of tasks.
Proof.
  intros Hf. unfold length_of.
  induction tasks as [|t tasks IH]; intros acc; cbn [sum_of List.length]; [cbn; lia|].
  pose proof (IH (acc + f t)). pose proof (Hf t). nia.
Qed.

(** X21. The counts of the insights: the table by area has one entry for
    each area that some task has and no other, the number of an area is the
    number of the tasks of that area, and the numbers add up to the length
    of the task list; the same holds of the table by status. *)
Theorem insights_counts (tasks : list Task) :
  let byArea := insights_byArea tasks in
  let byStatus := insights_byStatus tasks in
  NoDup (map fst byArea) /\ NoDup (map fst byStatus) /\
  (forall k,
     let n := length_of (filter (fun t => String.eqb (area_str (area t)) k) tasks) in
     count_of k byArea = if n =? 0 then None else Some n) /\
  (forall k,
     let n := length_of (filter (fun t => String.eqb (status_str (status t)) k) tasks) in
     count_of k byStatus = if n =? 0 then None else Some n) /\
  fold_right Z.add 0 (map snd byArea) = length_of tasks /\
  fold_right Z.add 0 (map snd byStatus) = length_of tasks.
Proof.
  cbv zeta. unfold insights_byArea, insights_byStatus.
  split; [apply NoDup_countBy; constructor|].
  split; [apply NoDup_countBy; constructor|].
  split; [intros k; now rewrite count_of_countBy|].
  split; [intros k; now rewrite count_of_countBy|].
  rewrite !total_countBy. cbn. lia.
Qed.

(** X22. The sums of the insights: the sum of the impacts lies between the
    number of the tasks and five times that number, and so does the sum of
    the urgencies, so that the averages shown are between 1 and 5. *)
Theorem insights_sums_bounds (tasks : list Task) :
  length_of tasks <= impactSum tasks <= 5 * length_of tasks /\
  length_of tasks <= urgencySum tasks <= 5 * length_of tasks.
Proof.
  unfold impactSum, urgencySum.
  pose proof (sum_of_bounds (fun t => rating_val (impact t)) 1 5 tasks
                (fun t => rating_val_range (impact t)) 0).
  pose proof (sum_of_bounds (fun t => rating_val (urgency t)) 1 5 tasks
                (fun t => rating_val_range (urgency t)) 0).
  lia.
Qed.

(** ** Loading and the keyboard *)

(** X23. The load effect on a stored text that is JSON: an array replaces
    the task list, whatever its elements are, none is looked at; any other
    value (an object, a string, a number, a boolean, null) leaves the list
    alone. *)
Theorem load_only_arrays (s : string) (v : JSON.value) :
  JSON.parse s = Some v ->
  loadEffect (Some s) =
  Ok match v with
     | JSON.JArr parsed => SetTasks parsed
     | _ => KeepTasks
     end.
Proof.
  intros E. unfold loadEffect, JSON_parse.
  destruct s as [|c s]; [discriminate E|].
  rewrite E. destruct v; reflexivity.
Qed.

Section Keyboard.
Context {H : Host}.

(** X24. While the target of the key is an input, a text area or content
    that can be edited, no key does anything: Escape closes no dialog, the
    letter n opens no form and the slash is left to the field. *)
Theorem keys_in_fields_ignored (e : KeyEvent) (p : Page) :
  (exists tag, ev_tagName e = Some tag /\
     (toLowerCase tag = "input" \/ toLowerCase tag = "textarea")) \/
  ev_isContentEditable e = true ->
  onKey e p = (p, false).
Proof.
  unfold onKey.
  intros [(tag & -> & [E|E])|E]; cbn; rewrite E; cbn;
    rewrite ?orb_true_r; reflexivity.
Qed.

(** X25. No key changes the task list, the storage, the filters, the sort
    or the insights panel; only the letter n opens the form, and it opens
    it empty, for a create; no key opens the delete confirmation; outside
    the fields Escape closes the form, the detail view and the delete
    confirmation, and only the slash moves the focus to the search box. *)
Theorem keyboard_effects (e : KeyEvent) (p : Page) :
  let p' := fst (onKey e p) in
  tasks (store p') = tasks (store p) /\
  localStorage (store p') = localStorage (store p) /\
  view p' = view p /\ showInsights p' = showInsights p /\
  (isModalOpen (store p') = true ->
   isModalOpen (store p) = true \/
   ev_key e = "n" /\ editingTask (store p') = None /\ form (store p') = defaultForm) /\
  (showDeleteConfirm p' = true -> showDeleteConfirm p = true) /\
  ((forall tag, ev_tagName e = Some tag ->
      toLowerCase tag <> "input" /\ toLowerCase tag <> "textarea") ->
   ev_isContentEditable e = false -> ev_key e = "Escape" ->
   isModalOpen (store p') = false /\ editingTask (store p') = None /\
   viewingTask (store p') = None /\ showDeleteConfirm p' = false) /\
  (snd (onKey e p) = true -> ev_key e = "/" /\ p' = p).
Proof.
  cbv zeta. unfold onKey.
  destruct (_ || _ || ev_isContentEditable e) eqn:G.
  { cbn. repeat (split; [reflexivity|]).
    split; [auto|]. split; [auto|]. split; [|discriminate].
    intros Htag Hce _. exfalso. rewrite Hce in G.
    destruct (ev_tagName e) as [tag|]; cbn in G; [|discriminate].
    destruct (Htag tag eq_refl) as [A B].
    apply String.eqb_neq in A, B. rewrite A, B in G. discriminate. }
  destruct (String.eqb_spec (ev_key e) "n") as [En|En].
  { cbn. repeat (split; [reflexivity|]).
    split; [auto|]. split; [auto|]. split; [|discriminate].
    intros _ _ E. rewrite En in E. discriminate. }
  destruct (String.eqb_spec (ev_key e) "/") as [Es|Es].
  { cbn. repeat (split; [reflexivity|]).
    split; [auto|]. split; [auto|]. split; [|auto].
    intros _ _ E. rewrite Es in E. discriminate. }
  destruct (String.eqb_spec (ev_key e) "Escape") as [Ee|Ee].
  { cbn. repeat (split; [reflexivity|]).
    split; [discriminate|]. split; [discriminate|]. split; [auto|discriminate]. }
  cbn. repeat (split; [reflexivity|]).
  split; [auto|]. split; [auto|]. split; [|discriminate].
  intros _ _ E. congruence.
Qed.

End Keyboard.

(** ** Days, the search text and repeated status changes *)

Lemma ceil_div_spec (a b k : Z) :
  0 < b -> (ceil_div a b = k <-> (k - 1) * b < a <= k * b).
Proof.
  intros Hb. unfold ceil_div.
  pose proof (Z.div_mod (- a) b ltac:(lia)).
  pose proof (Z.mod_pos_bound (- a) b Hb).
  split; intros; nia.
Qed.

Lemma ceil_div_mono (a a' b : Z) :
  0 < b -> a <= a' -> ceil_div a b <= ceil_div a' b.
Proof.
  intros Hb Ha. unfold ceil_div.
  pose proof (Z.div_le_mono (- a') (- a) b Hb). lia.
Qed.

Lemma prefix_spec (q s : string) :
  String.prefix q s = true <-> exists post, s = String.append q post.
Proof.
  revert s. induction q as [|c q IH]; intros s.
  - split; [intros _; now exists s|intros _; now destruct s].
  - destruct s as [|d s]; cbn.
    + split; [discriminate|intros (post & E); discriminate E].
    + destruct (Ascii.ascii_dec c d) as [->|Hn].
      * rewrite IH. split; intros (post & E); exists post; congruence.
      * split; [discriminate|intros (post & E); congruence].
Qed.

(** [s.includes(q)]: [q] occurs in [s]. *)
Lemma includes_spec (s q : string) :
  includes s q = true <->
  exists pre post, s = String.append pre (String.append q post).
Proof.
  induction s as [|c s IH]; cbn [includes]; rewrite orb_true_iff, prefix_spec.
  - split.
    + intros [(post & E)|E]; [|discriminate]. now exists "", post.
    + intros (pre & post & E). left.
      destruct pre; [now exists post|discriminate].
  - rewrite IH. split.
    + intros [(post & E)|(pre & post & E)].
      * now exists "", post.
      * exists (String c pre), post. cbn. now rewrite E.
    + intros (pre & post & E). destruct pre as [|d pre]; cbn in E.
      * left. now exists post.
      * right. exists pre, post. congruence.
Qed.

Section FurtherExtras.
Context {H : Host}.

(** X26. The day count of a deadline that the platform reads as the time
    [target] is the number of days, rounded up, from the start of today to
    it: the count is [k] exactly when the deadline lies more than [k - 1]
    days and at most [k] days after the start of today. *)
Theorem days_count_is_ceiling (now : Z) (d : string) (target k : Z) :
  d <> "" -> Date_parse (String.append d "T00:00:00") = Some target ->
  (daysUntilDeadline now (Some d) = Some k <->
   (k - 1) * MS_PER_DAY < target - startOfDay now <= k * MS_PER_DAY).
Proof.
  intros Hd Hp. unfold daysUntilDeadline.
  destruct d as [|c d]; [congruence|]. rewrite Hp. cbv zeta.
  rewrite <- ceil_div_spec by reflexivity.
  split; congruence.
Qed.

(** X27. From one moment to a later one, where the start of the day is not
    earlier, no day count goes up and no score goes down: the score of a
    task that nobody touches only grows as its deadline comes nearer. *)
Theorem score_grows_with_time (now now' : Z) (t : Task) :
  startOfDay now <= startOfDay now' ->
  calculateScore now t <= calculateScore now' t /\
  (forall d, daysUntilDeadline now (deadline t) = Some d ->
   exists d', daysUntilDeadline now' (deadline t) = Some d' /\ d' <= d) /\
  (daysUntilDeadline now (deadline t) = None ->
   daysUntilDeadline now' (deadline t) = None).
Proof.
  intros Hle.
  assert (D : match daysUntilDeadline now (deadline t),
                    daysUntilDeadline now' (deadline t) with
              | Some d, Some d' => d' <= d
              | None, None => True
              | _, _ => False
              end).
  { unfold daysUntilDeadline.
    destruct (deadline t) as [[|c s]|]; trivial.
    destruct (Date_parse _) as [target|]; trivial. cbv zeta.
    apply ceil_div_mono; [reflexivity|lia]. }
  split; [|split].
  - unfold calculateScore.
    destruct (status_eqb (status t) Done); [lia|].
    destruct (daysUntilDeadline now (deadline t)),
             (daysUntilDeadline now' (deadline t)); try contradiction;
      destruct (status_eqb (status t) Waiting); lia.
  - intros d E. rewrite E in D.
    destruct (daysUntilDeadline now' (deadline t)) as [d'|]; [|contradiction].
    now exists d'.
  - intros E. rewrite E in D.
    now destruct (daysUntilDeadline now' (deadline t)).
Qed.

(** X28. With a search text that is not blank and no other filter, the view
    lists the tasks whose title in lower case holds the search text in
    lower case as a substring; the text is matched as it was typed, with
    its spaces, and nothing but the title is searched. *)
Theorem search_is_substring_match {HL : HostLaws H} (now : Z) (v : View)
    (tasks : list Task) (t : Task) :
  trim (search v) <> "" ->
  activeFilter v = "All Tasks" -> hideDone v = false ->
  statusFilter v = "All" -> areaFilter v = "All" ->
  (In t (filteredSortedTasks now v tasks) <->
   In t tasks /\
   exists pre post,
     toLowerCase (title t)
     = String.append pre (String.append (toLowerCase (search v)) post)).
Proof.
  intros Hq Ha Hh Hs Har.
  rewrite <- includes_spec.
  split.
  - intros Hin.
    apply (Permutation_in _ (filteredSortedTasks_perm now v tasks)) in Hin.
    apply filteredTasks_In in Hin. split; [tauto|]. apply Hin, Hq.
  - intros [Hin Hi].
    apply (Permutation_in _ (Permutation_sym (filteredSortedTasks_perm now v tasks))).
    apply filteredTasks_In. rewrite Ha, Hh, Hs, Har.
    repeat split; trivial; try discriminate; congruence.
Qed.

(** X29. Status changes compose: a second change of the same task
    overrides the first, changes of tasks with different identifiers can be
    made in either order, and a change to the status that the task already
    has leaves the list as it is; the list in memory and the text in the
    storage agree in each case. *)
Theorem status_changes_compose (id1 id2 : string) (s1 s2 : Status) (st : State) :
  (let st' := updateTaskStatus id1 s2 (updateTaskStatus id1 s1 st) in
   tasks st' = tasks (updateTaskStatus id1 s2 st) /\
   localStorage st' = localStorage (updateTaskStatus id1 s2 st)) /\
  (id1 <> id2 ->
   let st' := updateTaskStatus id1 s1 (updateTaskStatus id2 s2 st) in
   let st'' := updateTaskStatus id2 s2 (updateTaskStatus id1 s1 st) in
   tasks st' = tasks st'' /\ localStorage st' = localStorage st'') /\
  ((forall t, In t (tasks st) -> id t = id1 -> status t = s1) ->
   tasks (updateTaskStatus id1 s1 st) = tasks st).
Proof.
  assert (A : tasks (updateTaskStatus id1 s2 (updateTaskStatus id1 s1 st))
              = tasks (updateTaskStatus id1 s2 st)).
  { unfold updateTaskStatus. cbn [tasks]. rewrite map_map. apply map_ext.
    intros t. destruct (String.eqb (id t) id1) eqn:E; cbn [id setStatus];
      rewrite E; reflexivity. }
  assert (B : id1 <> id2 ->
              tasks (updateTaskStatus id1 s1 (updateTaskStatus id2 s2 st))
              = tasks (updateTaskStatus id2 s2 (updateTaskStatus id1 s1 st))).
  { intros Hne. unfold updateTaskStatus. cbn [tasks]. rewrite !map_map.
    apply map_ext. intros t.
    destruct (String.eqb_spec (id t) id2) as [E2|E2];
      destruct (String.eqb_spec (id t) id1) as [E1|E1]; cbn [id setStatus];
      try congruence.
    - destruct (String.eqb_spec (id t) id1); [congruence|].
      destruct (String.eqb_spec (id t) id2); [reflexivity|congruence].
    - destruct (String.eqb_spec (id t) id2); [congruence|].
      destruct (String.eqb_spec (id t) id1); [reflexivity|congruence].
    - destruct (String.eqb_spec (id t) id2); [congruence|].
      destruct (String.eqb_spec (id t) id1); [congruence|reflexivity]. }
  split; [|split].
  - cbv zeta. split; [exact A|].
    change (Some (JSON.stringify (tasks (updateTaskStatus id1 s2 (updateTaskStatus id1 s1 st))))
            = Some (JSON.stringify (tasks (updateTaskStatus id1 s2 st)))).
    now rewrite A.
  - intros Hne. cbv zeta. split; [exact (B Hne)|].
    change (Some (JSON.stringify
                    (tasks (updateTaskStatus id1 s1 (updateTaskStatus id2 s2 st))))
            = Some (JSON.stringify
                      (tasks (updateTaskStatus id2 s2 (updateTaskStatus id1 s1 st))))).
    now rewrite (B Hne).
  - intros Hs. unfold updateTaskStatus. cbn [tasks].
    rewrite <- (map_id (tasks st)) at 2. apply map_ext_in. intros t Hin.
    destruct (String.eqb_spec (id t) id1) as [E|E]; [|reflexivity].
    specialize (Hs t Hin E). destruct t; cbn in *. now subst.
Qed.

End FurtherExtras.

(** ** The properties above on the reference host *)

(** Witness of X1: the second of three tasks is deleted. *)
Lemma performDelete_removes_target_witness :
  let a := mkTask "a" "2024-01-02T09:00:00.000Z" "Pay invoice" (Some "")
                  Personal Ticket Self R1 R1 E5m (Some "2024-01-12") Doing in
  let b := mkTask "b" "2024-01-03T10:00:00.000Z" "rotate keys" None
                  Infra Microtask Boss R3 R4 E1h None Inbox in
  let c := mkTask "c" "2024-01-04T11:00:00.000Z" "Audit DNS" None
                  DNS Ticket Jira R3 R4 E30m (Some "2024-01-11") Waiting in
  let p := mkPage (mkState [a; b; c] false None None defaultForm None)
                  (mkView "All Tasks" "" "All" "All" false None desc)
                  true (Some "b") false in
  tasks (store (performDelete p)) = [a; c] /\
  deleteTargetId (performDelete p) = None.
Proof.
  intros a b c p.
  destruct (performDelete_removes_target p "b" eq_refl ltac:(discriminate))
    as (_ & E & K & _).
  split; [|exact E].
  destruct (K 1%nat b) as (E' & _); [|reflexivity|reflexivity|exact E'].
  repeat constructor; cbn; intuition discriminate.
Defined.

(** Witness of X5: a task is created on the reference host and deleted. *)
Lemma create_then_delete_witness :
  let a := mkTask "a" "2024-01-02T09:00:00.000Z" "Pay invoice" (Some "")
                  Personal Ticket Self R1 R1 E5m (Some "2024-01-12") Doing in
  let f := mkForm " Renew certificate " "" Infra Ticket Self R3 R3 E15m "" Inbox in
  let p := mkPage (mkState [a] true None None f None)
                  (mkView "All Tasks" "" "All" "All" false None desc)
                  false None false in
  let created :=
    mkPage (handleSubmit (H := Ref.host) "u1" "2024-01-10T13:00:00.000Z" (store p))
           (view p) (showDeleteConfirm p) (deleteTargetId p) (showInsights p) in
  tasks (store (performDelete (confirmDelete "u1" created))) = [a].
Proof.
  intros a f p created.
  apply (create_then_delete (H := Ref.host) "u1" "2024-01-10T13:00:00.000Z" p).
  - reflexivity.
  - vm_compute. discriminate.
  - discriminate.
  - cbn. intuition discriminate.
Defined.

(** Witness of X6: a task is opened in the form and submitted as it is. *)
Lemma edit_unchanged_is_identity_witness :
  let a := mkTask "a" "2024-01-02T09:00:00.000Z" "Pay invoice" (Some "")
                  Personal Ticket Self R1 R1 E5m (Some "2024-01-12") Doing in
  let b := mkTask "b" "2024-01-03T10:00:00.000Z" "rotate keys" None
                  Infra Microtask Boss R3 R4 E1h None Inbox in
  let st := mkState [a; b] false None None defaultForm None in
  tasks (handleSubmit (H := Ref.host) "u1" "2024-01-10T13:00:00.000Z" (startEdit a st))
  = [a; b].
Proof.
  intros a b st.
  apply (edit_unchanged_is_identity (H := Ref.host) "u1" "2024-01-10T13:00:00.000Z" st a).
  - reflexivity.
  - repeat constructor; cbn; intuition discriminate.
  - now left.
  - reflexivity.
  - discriminate.
  - discriminate.
Defined.

(** Witness of X8: the score column, descending, against the default
    order. *)
Lemma score_key_is_default_order_witness :
  let a := mkTask "a" "2024-01-02T09:00:00.000Z" "Pay invoice" (Some "")
                  Personal Ticket Self R1 R1 E5m (Some "2024-01-12") Doing in
  let b := mkTask "b" "2024-01-03T10:00:00.000Z" "rotate keys" None
                  Infra Microtask Boss R3 R4 E1h None Inbox in
  let c := mkTask "c" "2024-01-04T11:00:00.000Z" "Audit DNS" None
                  DNS Ticket Jira R3 R4 E30m (Some "2024-01-11") Waiting in
  let v := mkView "All Tasks" "" "All" "All" false (Some "score") desc in
  let v' := mkView "All Tasks" "" "All" "All" false None asc in
  filteredSortedTasks (H := Ref.host) 1704891600000 v [a; b; c]
  = filteredSortedTasks (H := Ref.host) 1704891600000 v' [a; b; c].
Proof.
  intros a b c v v'.
  apply (score_key_is_default_order (H := Ref.host) (HL := Ref_laws)
           1704891600000 "score" v v' [a; b; c]); try reflexivity.
  - discriminate.
  - cbn. intuition discriminate.
Defined.

(** Witness of X9: the filters are cleared on the reference host. *)
Lemma clearFilters_shows_all_witness :
  let a := mkTask "a" "2024-01-02T09:00:00.000Z" "Pay invoice" (Some "")
                  Personal Ticket Self R1 R1 E5m (Some "2024-01-12") Doing in
  let d := mkTask "d" "2024-01-05T12:00:00.000Z" "Zed" None
                  DNS Ticket Jira R3 R4 E30m (Some "garbage") Done in
  let v := mkView "Waiting" "zed" "Doing" "DNS" true (Some "title") asc in
  filteredTasks (H := Ref.host) 1704891600000 (clearFilters v) [a; d] = [a; d].
Proof.
  intros a d v.
  apply (clearFilters_shows_all (H := Ref.host) (HL := Ref_laws)
           1704891600000 v [a; d]).
  reflexivity.
Defined.

(** Witness of X10: a waiting task of the area DNS passes the filters of a
    view. *)
Lemma view_lists_what_passes_witness :
  let a := mkTask "a" "2024-01-02T09:00:00.000Z" "Pay invoice" (Some "")
                  Personal Ticket Self R1 R1 E5m (Some "2024-01-12") Doing in
  let c := mkTask "c" "2024-01-04T11:00:00.000Z" "Audit DNS" None
                  DNS Ticket Jira R3 R4 E30m (Some "2024-01-11") Waiting in
  let v := mkView "Waiting" "dns" "All" "DNS" true (Some "title") asc in
  In c (filteredSortedTasks (H := Ref.host) 1704891600000 v [a; c]).
Proof.
  intros a c v.
  apply (view_lists_what_passes (H := Ref.host) (HL := Ref_laws)
           1704891600000 v [a; c] c).
  split; [right; now left|].
  subst v. cbn [activeFilter hideDone statusFilter areaFilter search].
  repeat split; intros; try discriminate; try congruence; reflexivity.
Defined.

(** Witness of X11: a deadline two days away. *)
Lemma critical_window_witness :
  let a := mkTask "a" "2024-01-02T09:00:00.000Z" "Pay invoice" (Some "")
                  Personal Ticket Self R1 R1 E5m (Some "2024-01-12") Waiting in
  calculateLevel (calculateScore (H := Ref.host) 1704891600000 a) = "Critical".
Proof.
  intros a.
  apply (proj1 (critical_window (H := Ref.host) 1704891600000 a 2
                  ltac:(discriminate) eq_refl)).
  lia.
Defined.

(** Witness of X12: deadlines one day and three days away. *)
Lemma earlier_deadline_scores_higher_witness :
  let a := mkTask "a" "2024-01-02T09:00:00.000Z" "Pay invoice" (Some "")
                  Personal Ticket Self R1 R1 E5m (Some "2024-01-11") Waiting in
  let b := mkTask "b" "2024-01-03T10:00:00.000Z" "rotate keys" None
                  Infra Microtask Boss R5 R5 E1h (Some "2024-01-13") Doing in
  calculateScore (H := Ref.host) 1704891600000 b
  < calculateScore (H := Ref.host) 1704891600000 a.
Proof.
  intros a b.
  apply (proj1 (earlier_deadline_scores_higher (H := Ref.host) 1704891600000 a b 1
                  ltac:(discriminate) eq_refl) 3).
  - discriminate.
  - reflexivity.
  - lia.
Defined.

(** Witness of X15: the task due tomorrow is listed before the one due in
    three days, which has the higher ratings and stands first in the task
    list. *)
Lemma earlier_deadline_listed_first_witness :
  let a := mkTask "a" "2024-01-02T09:00:00.000Z" "Pay invoice" (Some "")
                  Personal Ticket Self R1 R1 E5m (Some "2024-01-11") Waiting in
  let b := mkTask "b" "2024-01-03T10:00:00.000Z" "rotate keys" None
                  Infra Microtask Boss R5 R5 E1h (Some "2024-01-13") Doing in
  let v := mkView "All Tasks" "" "All" "All" false None desc in
  nth_error (filteredSortedTasks (H := Ref.host) 1704891600000 v [b; a]) 0 = Some a /\
  nth_error (filteredSortedTasks (H := Ref.host) 1704891600000 v [b; a]) 1 = Some b /\
  (0 < 1)%nat.
Proof.
  intros a b v.
  split; [reflexivity|]. split; [reflexivity|].
  apply (earlier_deadline_listed_first (H := Ref.host) (HL := Ref_laws)
           1704891600000 v [b; a] a b 1 3); try reflexivity;
    discriminate.
Defined.

(** Witness of X16: the done tasks are hidden in the view of the done
    tasks. *)
Lemma quick_filters_and_done_witness :
  let a := mkTask "a" "2024-01-02T09:00:00.000Z" "Pay invoice" (Some "")
                  Personal Ticket Self R1 R1 E5m (Some "2024-01-12") Doing in
  let d := mkTask "d" "2024-01-05T12:00:00.000Z" "Zed" None
                  DNS Ticket Jira R3 R4 E30m (Some "garbage") Done in
  let v := mkView "Done" "" "All" "All" true None desc in
  filteredSortedTasks (H := Ref.host) 1704891600000 v [a; d] = [].
Proof.
  intros a d v.
  apply (quick_filters_and_done (H := Ref.host) (HL := Ref_laws)
           1704891600000 v [a; d]); reflexivity.
Defined.

(** Witness of X17: the rows of the critical view in the evening and the
    critical counter of the early afternoon of the same day. *)
Lemma counters_match_views_witness :
  let a := mkTask "a" "2024-01-02T09:00:00.000Z" "Pay invoice" (Some "")
                  Personal Ticket Self R1 R1 E5m (Some "2024-01-12") Doing in
  let b := mkTask "b" "2024-01-03T10:00:00.000Z" "rotate keys" None
                  Infra Microtask Boss R3 R4 E1h None Inbox in
  let c := mkTask "c" "2024-01-04T11:00:00.000Z" "Audit DNS" None
                  DNS Ticket Jira R3 R4 E30m (Some "2024-01-11") Waiting in
  let v := mkView "Critical" "" "All" "All" true (Some "title") asc in
  length_of (filteredSortedTasks (H := Ref.host) 1704920400000 v [a; b; c])
  = critical (stats (H := Ref.host) 1704891600000 [a; b; c]).
Proof.
  intros a b c v.
  apply (proj1 (counters_match_views (H := Ref.host) (HL := Ref_laws)
                  1704920400000 1704891600000 v [a; b; c]
                  eq_refl eq_refl eq_refl)); reflexivity.
Defined.

(** Witness of X18: a task is marked done and the done tasks are hidden. *)
Lemma done_task_leaves_hiding_views_witness :
  let a := mkTask "a" "2024-01-02T09:00:00.000Z" "Pay invoice" (Some "")
                  Personal Ticket Self R1 R1 E5m (Some "2024-01-12") Doing in
  let b := mkTask "b" "2024-01-03T10:00:00.000Z" "rotate keys" None
                  Infra Microtask Boss R3 R4 E1h None Inbox in
  let st := mkState [a; b] false None None defaultForm None in
  let v := mkView "All Tasks" "" "All" "All" true None desc in
  ~ In (setStatus Done a)
       (filteredSortedTasks (H := Ref.host) 1704891600000 v
          (tasks (updateTaskStatus "a" Done st))).
Proof.
  intros a b st v Hin.
  apply (proj1 (done_task_leaves_hiding_views (H := Ref.host) (HL := Ref_laws)
                  1704891600000 "a" st v) eq_refl _ Hin).
  reflexivity.
Defined.

(** Witness of X19: three tasks sorted by score on the reference host. *)
Lemma sortedTasks_descending_witness :
  let a := mkTask "a" "2024-01-02T09:00:00.000Z" "Pay invoice" (Some "")
                  Personal Ticket Self R1 R1 E5m (Some "2024-01-12") Doing in
  let b := mkTask "b" "2024-01-03T10:00:00.000Z" "rotate keys" None
                  Infra Microtask Boss R3 R4 E1h None Inbox in
  let c := mkTask "c" "2024-01-04T11:00:00.000Z" "Audit DNS" None
                  DNS Ticket Jira R3 R4 E30m (Some "2024-01-11") Waiting in
  Permutation (sortedTasks (H := Ref.host) 1704891600000 [a; b; c]) [a; b; c].
Proof.
  intros a b c.
  apply (sortedTasks_descending (H := Ref.host) (HL := Ref_laws)
           1704891600000 [a; b; c]).
Defined.

(** Witness of X20: the top three of four tasks. *)
Lemma insights_top_highest_witness :
  let a := mkTask "a" "2024-01-02T09:00:00.000Z" "Pay invoice" (Some "")
                  Personal Ticket Self R1 R1 E5m (Some "2024-01-12") Doing in
  let b := mkTask "b" "2024-01-03T10:00:00.000Z" "rotate keys" None
                  Infra Microtask Boss R3 R4 E1h None Inbox in
  let c := mkTask "c" "2024-01-04T11:00:00.000Z" "Audit DNS" None
                  DNS Ticket Jira R3 R4 E30m (Some "2024-01-11") Waiting in
  let d := mkTask "d" "2024-01-05T12:00:00.000Z" "Zed" None
                  DNS Ticket Jira R3 R4 E30m (Some "garbage") Done in
  length_of (insights_top (H := Ref.host) 1704891600000 [a; b; c; d]) = 3.
Proof.
  intros a b c d.
  apply (insights_top_highest (H := Ref.host) (HL := Ref_laws)
           1704891600000 [a; b; c; d]).
Defined.

(** Witness of X23: a stored object is not taken for the task list. *)
Lemma load_only_arrays_witness :
  loadEffect (Some "{}") = Ok KeepTasks /\
  loadEffect (Some "[1, null]")
  = Ok (SetTasks [JSON.JNum 1 0; JSON.JNull]).
Proof.
  split.
  - apply (load_only_arrays "{}" (JSON.JObj [])). reflexivity.
  - apply (load_only_arrays "[1, null]" (JSON.JArr [JSON.JNum 1 0; JSON.JNull])).
    reflexivity.
Defined.

(** Witness of X24: Escape in an input of the form. *)
Lemma keys_in_fields_ignored_witness :
  let p := mkPage (mkState [] true None None defaultForm None)
                  (mkView "All Tasks" "" "All" "All" false None desc)
                  false None false in
  onKey (H := Ref.host) (mkKeyEvent "Escape" (Some "INPUT") false) p = (p, false).
Proof.
  intros p.
  apply (keys_in_fields_ignored (H := Ref.host)).
  left. exists "INPUT". split; [reflexivity|]. left. reflexivity.
Defined.

(** Witness of X26: from the early afternoon of 10 January to the start of
    12 January. *)
Lemma days_count_is_ceiling_witness :
  daysUntilDeadline (H := Ref.host) 1704891600000 (Some "2024-01-12") = Some 2.
Proof.
  apply (days_count_is_ceiling (H := Ref.host) 1704891600000 "2024-01-12"
           1705017600000 2).
  - discriminate.
  - reflexivity.
  - vm_compute. split; [reflexivity|discriminate].
Defined.

(** Witness of X27: the same task a day later. *)
Lemma score_grows_with_time_witness :
  let a := mkTask "a" "2024-01-02T09:00:00.000Z" "Pay invoice" (Some "")
                  Personal Ticket Self R1 R1 E5m (Some "2024-01-12") Doing in
  calculateScore (H := Ref.host) 1704891600000 a
  <= calculateScore (H := Ref.host) 1704978000000 a.
Proof.
  intros a.
  apply (score_grows_with_time (H := Ref.host) 1704891600000 1704978000000 a).
  vm_compute. discriminate.
Defined.

(** Witness of X28: a search in capitals. *)
Lemma search_is_substring_match_witness :
  let a := mkTask "a" "2024-01-02T09:00:00.000Z" "Pay invoice" (Some "")
                  Personal Ticket Self R1 R1 E5m (Some "2024-01-12") Doing in
  let b := mkTask "b" "2024-01-03T10:00:00.000Z" "Rotate keys" None
                  Infra Microtask Boss R3 R4 E1h None Inbox in
  let v := mkView "All Tasks" "KEY" "All" "All" false None desc in
  In b (filteredSortedTasks (H := Ref.host) 1704891600000 v [a; b]).
Proof.
  intros a b v.
  apply (proj2 (search_is_substring_match (H := Ref.host) (HL := Ref_laws)
                  1704891600000 v [a; b] b
                  ltac:(vm_compute; discriminate) eq_refl eq_refl eq_refl eq_refl)).
  split; [right; now left|]. exists "rotate ", "s". reflexivity.
Defined.
